(** * DrawingCanvas: a shallow embedding of the raster drawing engine

    The development follows [src/components/DrawingCanvas.tsx]:

    - the colour model ([hexToRgba], [colorsMatch]);
    - the pixel data of an [ImageData] object, a flat [Uint8ClampedArray]
      with four channels per pixel;
    - the flood fill ([floodFill]) with its explicit stack and its
      [visited] array;
    - the bounded undo history ([pushSnapshotForUndo], the undo effect);
    - the pointer handlers and the two signal effects, over an abstract
      2D rendering context.

    JavaScript numbers that are integers by construction (channels,
    pixel coordinates, array offsets, signals) are modelled by [Z].
    Strings are sequences of code units below 256. *)

From Stdlib Require Import ZArith Lia List Bool Ascii String.
From stdpp Require Import base list.

Local Open Scope Z_scope.

(** ** JavaScript numbers and strings *)

Module Js.

(** [Number.parseInt] returns a double.  The integer scanned from the
    digits is rounded to the nearest double (ties to even); a value that
    is too large becomes [Infinity]. *)
Inductive number : Type :=
| NaN
| Infinity (negative : bool)
| Fin (negative : bool) (magnitude : Z).

(** Rounding of a non-negative integer to binary64. *)
Definition roundToDouble (n : Z) : option Z :=
  if n <? 2 ^ 53 then Some n
  else
    let e := Z.log2 n - 52 in
    let q := Z.shiftr n e in
    let r := Z.land n (Z.ones e) in
    let half := 2 ^ (e - 1) in
    let q' := if (half <? r) || ((r =? half) && Z.odd q) then q + 1 else q in
    let v := Z.shiftl q' e in
    if v <? 2 ^ 1024 then Some v else None.

(** [ToInt32], applied by [>>] and [&] to their operands. *)
Definition toInt32 (v : number) : Z :=
  match v with
  | NaN | Infinity _ => 0
  | Fin neg m =>
      let i := if neg then - m else m in
      (i + 2 ^ 31) mod 2 ^ 32 - 2 ^ 31
  end.

(** Operators on numbers, through [ToInt32]. *)
Definition sar (v : number) (k : Z) : Z := Z.shiftr (toInt32 v) k.
Definition band (v : number) (m : Z) : Z := Z.land (toInt32 v) m.

Definition code (c : ascii) : Z := Z.of_nat (nat_of_ascii c).

(** White space and line terminators among the code units below 256. *)
Definition isWhiteSpace (c : ascii) : bool :=
  let n := code c in
  (n =? 9) || (n =? 10) || (n =? 11) || (n =? 12) || (n =? 13)
  || (n =? 32) || (n =? 160).

(** Value of a digit in radix 16. *)
Definition hexDigit (c : ascii) : option Z :=
  let n := code c in
  if (48 <=? n) && (n <=? 57) then Some (n - 48)
  else if (97 <=? n) && (n <=? 102) then Some (n - 87)
  else if (65 <=? n) && (n <=? 70) then Some (n - 55)
  else None.

Fixpoint trimStart (s : string) : string :=
  match s with
  | String c rest => if isWhiteSpace c then trimStart rest else s
  | EmptyString => s
  end.

(** The longest prefix of hexadecimal digits, accumulated from the left;
    [None] when there is no digit at all. *)
Fixpoint scanHex (acc : option Z) (s : string) : option Z :=
  match s with
  | String c rest =>
      match hexDigit c with
      | Some d => scanHex (Some (match acc with Some a => a * 16 + d | None => d end)) rest
      | None => acc
      end
  | EmptyString => acc
  end.

(** An optional sign: code unit 45 is [-], 43 is [+]. *)
Definition stripSign (s : string) : bool * string :=
  match s with
  | String c rest =>
      if code c =? 45 then (true, rest)
      else if code c =? 43 then (false, rest)
      else (false, s)
  | EmptyString => (false, s)
  end.

(** An optional prefix [0x] or [0X] (code units 48, then 120 or 88). *)
Definition stripHexPrefix (s : string) : string :=
  match s with
  | String c0 (String c1 rest) =>
      if (code c0 =? 48) && ((code c1 =? 120) || (code c1 =? 88)) then rest else s
  | _ => s
  end.

(** [Number.parseInt(s, 16)]. *)
Definition parseInt16 (s : string) : number :=
  let '(neg, s1) := stripSign (trimStart s) in
  match scanHex None (stripHexPrefix s1) with
  | None => NaN
  | Some n =>
      match roundToDouble n with
      | Some v => Fin neg v
      | None => Infinity neg
      end
  end.

(** [s.replace("#", "")]: the first occurrence of the pattern is removed. *)
Fixpoint removeFirstHash (s : string) : string :=
  match s with
  | String c rest => if (code c =? 35) then rest else String c (removeFirstHash rest)
  | EmptyString => EmptyString
  end.

End Js.

(** ** Colour model *)

Record Rgba : Type := mkRgba { r : Z; g : Z; b : Z; a : Z }.

(** The tuple type [[number, number, number, number]] of the source. *)
Definition Quad : Type := (Z * Z * Z * Z)%type.

Definition hexToRgba (hex : string) : Rgba :=
  let normalized := Js.removeFirstHash hex in
  let bigint := Js.parseInt16 normalized in
  if (Z.of_nat (String.length normalized) =? 3) then
    let r4 := Z.land (Js.sar bigint 8) 15 in
    let g4 := Z.land (Js.sar bigint 4) 15 in
    let b4 := Js.band bigint 15 in
    {| r := Z.lor (Z.shiftl r4 4) r4;
       g := Z.lor (Z.shiftl g4 4) g4;
       b := Z.lor (Z.shiftl b4 4) b4;
       a := 255 |}
  else
    {| r := Z.land (Js.sar bigint 16) 255;
       g := Z.land (Js.sar bigint 8) 255;
       b := Js.band bigint 255;
       a := 255 |}.

(** Default value of the [tolerance] parameter. *)
Definition defaultTolerance : Z := 26.

Definition colorsMatch (px : Quad) (c : Rgba) (tolerance : Z) : bool :=
  let '(a0, a1, a2, a3) := px in
  (Z.abs (a0 - r c) <=? tolerance)
  && (Z.abs (a1 - g c) <=? tolerance)
  && (Z.abs (a2 - b c) <=? tolerance)
  && (Z.abs (a3 - a c) <=? tolerance).

Definition quadOf (c : Rgba) : Quad := (r c, g c, b c, a c).

(** ** Pixel data

    [ImageData.data] is a [Uint8ClampedArray]: a read outside the array
    yields [undefined] (here [None]), a write outside is ignored, and a
    written value is clamped to [0, 255]. *)

Record ImageData : Type := mkImageData {
  width : Z;
  height : Z;
  data : list Z
}.

Definition getAt (d : list Z) (i : Z) : option Z :=
  if i <? 0 then None else d !! Z.to_nat i.

Definition clampByte (v : Z) : Z := Z.max 0 (Z.min 255 v).

Definition setAt (d : list Z) (i : Z) (v : Z) : list Z :=
  if i <? 0 then d else <[Z.to_nat i := clampByte v]> d.

(** The four channels starting at [offset].  A comparison that involves an
    [undefined] channel is false in [colorsMatch] (the difference is
    [NaN]), so a quadruple with a missing channel is [None]. *)
Definition readQuad (d : list Z) (offset : Z) : option Quad :=
  match getAt d offset, getAt d (offset + 1), getAt d (offset + 2), getAt d (offset + 3) with
  | Some c0, Some c1, Some c2, Some c3 => Some (c0, c1, c2, c3)
  | _, _, _, _ => None
  end.

(** [colorsMatch] with the default tolerance on a quadruple read from the
    pixel data. *)
Definition colorsMatchRead (px : option Quad) (c : option Rgba) : bool :=
  match px, c with
  | Some q, Some c' => colorsMatch q c' defaultTolerance
  | _, _ => false
  end.

Definition rgbaOfQuad (q : Quad) : Rgba :=
  let '(c0, c1, c2, c3) := q in mkRgba c0 c1 c2 c3.

(** The pixel at column [x] and row [y] of an image. *)
Definition pixelOffset (w x y : Z) : Z := (y * w + x) * 4.

Definition getPixel (img : ImageData) (x y : Z) : option Quad :=
  readQuad (data img) (pixelOffset (width img) x y).

(** ** Flood fill *)

(** State of the loop of [floodFill].  The head of [stack] is the top of
    the JavaScript array used as a stack.  [painted] is a ghost trace: the
    coordinates of the calls of [setPixel], most recent first. *)
Record FillState : Type := mkFillState {
  fdata : list Z;
  visited : list Z;
  stack : list (Z * Z);
  painted : list (Z * Z)
}.

Definition setPixel (w : Z) (fillColor : Rgba) (d : list Z) (x y : Z) : list Z :=
  let offset := pixelOffset w x y in
  let d0 := setAt d offset (r fillColor) in
  let d1 := setAt d0 (offset + 1) (g fillColor) in
  let d2 := setAt d1 (offset + 2) (b fillColor) in
  setAt d2 (offset + 3) (a fillColor).

Definition matchTarget (w : Z) (target : option Rgba) (d : list Z) (x y : Z) : bool :=
  colorsMatchRead (readQuad d (pixelOffset w x y)) target.

Definition outOfBounds (w h x y : Z) : bool :=
  (x <? 0) || (w <=? x) || (y <? 0) || (h <=? y).

(** [visited[idx]] as a condition. *)
Definition isVisited (v : list Z) (idx : Z) : bool :=
  match getAt v idx with
  | Some flag => negb (flag =? 0)
  | None => false
  end.

(** One iteration of the [while] loop, after [stack.pop()] returned
    [(x, y)] and left [rest].  [visited] is a [Uint8Array]; the only value
    stored in it is 1. *)
Definition floodStep (w h : Z) (fillColor : Rgba) (target : option Rgba)
    (x y : Z) (rest : list (Z * Z)) (s : FillState) : FillState :=
  let idx := y * w + x in
  let skipped := mkFillState (fdata s) (visited s) rest (painted s) in
  if outOfBounds w h x y then skipped
  else if isVisited (visited s) idx then skipped
  else if negb (matchTarget w target (fdata s) x y) then skipped
  else
    mkFillState
      (setPixel w fillColor (fdata s) x y)
      (setAt (visited s) idx 1)
      ((x, y - 1) :: (x, y + 1) :: (x - 1, y) :: (x + 1, y) :: rest)
      ((x, y) :: painted s).

(** The loop; [None] when [fuel] iterations do not empty the stack. *)
Fixpoint floodLoop (fuel : nat) (w h : Z) (fillColor : Rgba) (target : option Rgba)
    (s : FillState) : option FillState :=
  match stack s with
  | [] => Some s
  | (x, y) :: rest =>
      match fuel with
      | O => None
      | S fuel' => floodLoop fuel' w h fillColor target (floodStep w h fillColor target x y rest s)
      end
  end.

(** Every iteration either shrinks the stack or marks one more of the
    [width * height] cells of [visited] and pushes four points. *)
Definition fillFuel (w h : Z) : nat := S (4 * Z.to_nat (w * h)).

(** Outcome of the fill on the pixel data: the early return, the data to
    write back with the trace of the calls of [setPixel] (oldest first), or
    a loop cut short by its fuel, which [floodFillImage_total] excludes. *)
Inductive FillResult : Type :=
| Unchanged
| Repainted (imageData : ImageData) (trace : list (Z * Z))
| OutOfFuel.

(** The body of [floodFill] between [getImageData] and [putImageData], at
    the pixel [pixelPoint] computed by [getPixelCoordinates] (two integers,
    the results of [Math.floor]). *)
Definition floodFillImage (color : string) (pixelPoint : Z * Z) (imageData : ImageData)
    : FillResult :=
  let '(px, py) := pixelPoint in
  let w := width imageData in
  let h := height imageData in
  let targetOffset := (py * w + px) * 4 in
  let targetColor := readQuad (data imageData) targetOffset in
  let targetColorRgba := option_map rgbaOfQuad targetColor in
  let fillColor := hexToRgba color in
  if colorsMatchRead targetColor (Some fillColor) then Unchanged
  else
    let init := mkFillState (data imageData) (replicate (Z.to_nat (w * h)) 0) [pixelPoint] [] in
    match floodLoop (fillFuel w h) w h fillColor targetColorRgba init with
    | Some s => Repainted (mkImageData w h (fdata s)) (reverse (painted s))
    | None => OutOfFuel
    end.

(** The pixel data after the fill. *)
Definition filledImage (color : string) (pixelPoint : Z * Z) (imageData : ImageData)
    : option ImageData :=
  match floodFillImage color pixelPoint imageData with
  | Unchanged => Some imageData
  | Repainted img _ => Some img
  | OutOfFuel => None
  end.

(** The 4-connected region of the seed: the pixels inside the image whose
    colour matches the colour [target] under the default tolerance, linked
    to the seed by horizontal and vertical steps through such pixels. *)
Definition inBounds (img : ImageData) (p : Z * Z) : Prop :=
  0 <= fst p < width img /\ 0 <= snd p < height img.

Definition adjacent4 (p q : Z * Z) : Prop :=
  q = (fst p + 1, snd p) \/ q = (fst p - 1, snd p)
  \/ q = (fst p, snd p + 1) \/ q = (fst p, snd p - 1).

Definition matchesTarget (img : ImageData) (target : Rgba) (p : Z * Z) : Prop :=
  exists q, getPixel img (fst p) (snd p) = Some q /\ colorsMatch q target defaultTolerance = true.

Inductive connected (img : ImageData) (target : Rgba) (seed : Z * Z) : Z * Z -> Prop :=
| connected_seed :
    inBounds img seed -> matchesTarget img target seed -> connected img target seed seed
| connected_step p q :
    connected img target seed p -> adjacent4 p q ->
    inBounds img q -> matchesTarget img target q -> connected img target seed q.

(** An image whose data has the size its dimensions announce. *)
Definition wellFormed (img : ImageData) : Prop :=
  0 <= width img /\ 0 <= height img
  /\ Z.of_nat (length (data img)) = 4 * (width img * height img).

(** Channels in the range of a byte. *)
Definition byteRange (v : Z) : Prop := 0 <= v <= 255.

Definition rgbaInRange (c : Rgba) : Prop :=
  byteRange (r c) /\ byteRange (g c) /\ byteRange (b c) /\ byteRange (a c).

(** A hexadecimal colour, written with or without the leading [#]. *)
Definition withHash (hash : bool) (digits : string) : string :=
  if hash then String "#" digits else digits.

(** Number of cells of [visited] that are still 0. *)
Definition zeros (v : list Z) : nat := length (filter (fun flag => flag = 0) v).

(** Number of calls of [setPixel] at the point [p] in a trace. *)
Definition paintCount (p : Z * Z) (trace : list (Z * Z)) : nat :=
  length (filter (fun q => q = p) trace).

(** Variant of the fill loop: cells of [visited] still to mark, weighted
    by the four points each marking pushes, plus the points on the stack. *)
Definition fillMeasure (s : FillState) : nat :=
  (4 * zeros (visited s) + length (stack s))%nat.

(** Invariant of the fill loop on the image [img], for the colour [target]
    read at [seed]. *)
Record fillInv (img : ImageData) (fillColor target : Rgba) (seed : Z * Z)
    (s : FillState) : Prop := mkFillInv {
  inv_len : length (fdata s) = length (data img);
  inv_vlen : Z.of_nat (length (visited s)) = width img * height img;
  inv_visited : forall x y, inBounds img (x, y) ->
      (isVisited (visited s) (y * width img + x) = true <-> In (x, y) (painted s));
  inv_nodup : NoDup (painted s);
  inv_sound : forall p, In p (painted s) -> connected img target seed p;
  inv_painted : forall x y, In (x, y) (painted s) ->
      readQuad (fdata s) (pixelOffset (width img) x y) = Some (quadOf fillColor);
  inv_frame : forall x y, inBounds img (x, y) -> ~ In (x, y) (painted s) ->
      readQuad (fdata s) (pixelOffset (width img) x y) = getPixel img x y;
  inv_stack : forall q, In q (stack s) ->
      q = seed \/ exists p, In p (painted s) /\ adjacent4 p q;
  inv_seed : In seed (painted s) \/ In seed (stack s);
  inv_closed : forall p q, In p (painted s) -> adjacent4 p q ->
      inBounds img q -> matchesTarget img target q ->
      In q (painted s) \/ In q (stack s)
}.

(** A 3 by 2 image used in the examples: a black column between a white
    column and a column that is white, then nearly white. *)
Definition demo : ImageData :=
  mkImageData 3 2
    [255; 255; 255; 255;   0; 0; 0; 255;   255; 255; 255; 255;
     255; 255; 255; 255;   0; 0; 0; 255;   250; 250; 250; 255].

(** ** Undo history

    [historyRef.current] is an array of snapshots, oldest first. *)

Definition historyLimit : nat := 25.

(** The history part of [pushSnapshotForUndo]: [shift] when the length has
    reached the limit, then [push]. *)
Definition pushHistory (snapshot : ImageData) (history : list ImageData) : list ImageData :=
  (if (historyLimit <=? length history)%nat then tail history else history) ++ [snapshot].

(** [history.pop()]: the last entry and the remaining array, or [None]
    (the array is left empty and [undefined] is returned). *)
Definition popHistory (history : list ImageData) : option (ImageData * list ImageData) :=
  match last history with
  | Some previous => Some (previous, take (length history - 1) history)
  | None => None
  end.

(** ** The canvas bitmap

    The bitmap of the canvas is modelled by the [ImageData] that
    [getImageData(0, 0, canvas.width, canvas.height)] returns for it. *)

Definition sameSize (i1 i2 : ImageData) : Prop :=
  width i1 = width i2 /\ height i1 = height i2 /\ length (data i1) = length (data i2).

(** [clearRect(0, 0, canvas.width, canvas.height)] under the identity
    transform: every pixel becomes transparent black. *)
Definition clearRectAll (bmp : ImageData) : ImageData :=
  mkImageData (width bmp) (height bmp)
    (replicate (Z.to_nat (4 * (width bmp * height bmp))) 0).

Inductive CompositeOperation : Type := SourceOver | DestinationOut.

(** [fillRect(0, 0, canvas.width, canvas.height)] with the fill style
    [#ffffff] under the identity transform.  Painted over the bitmap, the
    opaque colour replaces every pixel; with [destination-out] an opaque
    source erases every pixel. *)
Definition fillRectWhiteAll (op : CompositeOperation) (bmp : ImageData) : ImageData :=
  mkImageData (width bmp) (height bmp)
    (replicate (Z.to_nat (4 * (width bmp * height bmp)))
       (match op with SourceOver => 255 | DestinationOut => 0 end)).

(** [putImageData(img, 0, 0)]: the pixels of [img] that fall inside the
    bitmap replace the pixels there, whatever the composite operation; the
    other pixels of the bitmap stay. *)
Definition putImageData (img bmp : ImageData) : ImageData :=
  mkImageData (width bmp) (height bmp)
    (imap (fun i old =>
             let p := Z.of_nat i / 4 in
             let c := Z.of_nat i mod 4 in
             let x := p mod width bmp in
             let y := p / width bmp in
             if (x <? width img) && (y <? height img)
             then default old (getAt (data img) ((y * width img + x) * 4 + c))
             else old)
          (data bmp)).

(** [getImageData] throws on a bitmap it cannot read (no pixels, a canvas
    that is not origin-clean, no memory for the copy).  Whether a call
    returns is decided by the environment and given with each event. *)
Definition getImageData (readable : bool) (bmp : ImageData) : option ImageData :=
  if readable then Some bmp else None.

(** An image of one colour. *)
Definition whiteImage (w h : Z) : ImageData :=
  mkImageData w h (replicate (Z.to_nat (4 * (w * h))) 255).

(** ** The rendering context

    Strokes are rasterised by the browser.  The development is parametric
    in the rasteriser and in the arithmetic of the JavaScript numbers that
    carry display coordinates and sizes; it only relies on the fact that
    drawing does not resize the bitmap. *)

Inductive DrawingTool : Type := pencil | eraser | line | rectangle | ellipse | fill.

Class Canvas2D : Type := {
  num : Type;
  num_zero : num;
  num_two_pi : num;                       (* Math.PI * 2 *)
  num_sub : num -> num -> num;
  num_add : num -> num -> num;
  num_half : num -> num;                  (* v / 2 *)
  num_abs : num -> num;
  defaultLineWidth : num;
  (* the current transformation matrix *)
  Transform : Type;
  identityTransform : Transform;          (* setTransform(1, 0, 0, 1, 0, 0) *)
  (* paths; a point enters a path through the current transformation *)
  Path : Type;
  emptyPath : Path;                       (* beginPath() *)
  moveTo : Transform -> num -> num -> Path -> Path;
  lineTo : Transform -> num -> num -> Path -> Path;
  ellipseTo : Transform -> num -> num -> num -> num -> num -> num -> num -> Path -> Path;
  closePath : Path -> Path;
  (* the setter of lineWidth ignores zero, negative, infinite and NaN values *)
  validLineWidth : num -> bool;
  (* the setter of strokeStyle and fillStyle ignores what is not a CSS colour *)
  validStyle : string -> bool;
  validStyle_white : validStyle "#ffffff" = true;
  stroke : Transform -> num -> string -> CompositeOperation -> Path ->
           ImageData -> ImageData;
  strokeRect : Transform -> num -> string -> CompositeOperation ->
               num -> num -> num -> num -> ImageData -> ImageData;
  stroke_sameSize : forall t lw st op p bmp, sameSize (stroke t lw st op p bmp) bmp;
  strokeRect_sameSize : forall t lw st op x y w h bmp,
      sameSize (strokeRect t lw st op x y w h bmp) bmp
}.

Section Engine.

Context {R : Canvas2D}.

Definition Point : Type := (num * num)%type.

Record Props : Type := mkProps {
  color : string;
  brushSize : num;
  tool : DrawingTool;
  clearSignal : Z;
  undoSignal : Z
}.

(** What [context.save()] pushes and [context.restore()] brings back. *)
Record DrawingState : Type := mkDrawingState {
  savedTransform : Transform;
  savedLineWidth : num;
  savedStrokeStyle : string;
  savedFillStyle : string;
  savedComposite : CompositeOperation
}.

(** The refs of the component and the state of its rendering context. *)
Record Canvas : Type := mkCanvas {
  mounted : bool;                    (* canvasRef and contextRef are set *)
  bitmap : ImageData;
  transform : Transform;
  lineWidth : num;
  strokeStyle : string;
  fillStyle : string;
  globalCompositeOperation : CompositeOperation;
  saved : list DrawingState;         (* the stack of save() *)
  path : Path;
  isDrawing : bool;                  (* isDrawingRef *)
  history : list ImageData;          (* historyRef *)
  shapeStart : option Point;         (* shapeStartRef *)
  shapeSnapshot : option ImageData   (* shapeSnapshotRef *)
}.

(** What a pointer event brings: the point computed by
    [getCanvasCoordinates], the pixel that [getPixelCoordinates] computes
    from it under the current layout, and whether the calls of
    [getImageData] made while handling it return. *)
Record PointerEvent : Type := mkPointerEvent {
  point : Point;
  pixel : Z * Z;
  snapshotReadable : bool;           (* the call in pushSnapshotForUndo *)
  fillReadable : bool                (* the call in floodFill *)
}.

Definition setBitmap (bmp : ImageData) (c : Canvas) : Canvas :=
  mkCanvas (mounted c) bmp (transform c) (lineWidth c) (strokeStyle c) (fillStyle c)
    (globalCompositeOperation c) (saved c) (path c) (isDrawing c) (history c)
    (shapeStart c) (shapeSnapshot c).

Definition setTransform (t : Transform) (c : Canvas) : Canvas :=
  mkCanvas (mounted c) (bitmap c) t (lineWidth c) (strokeStyle c) (fillStyle c)
    (globalCompositeOperation c) (saved c) (path c) (isDrawing c) (history c)
    (shapeStart c) (shapeSnapshot c).

Definition setLineWidth (v : num) (c : Canvas) : Canvas :=
  mkCanvas (mounted c) (bitmap c) (transform c)
    (if validLineWidth v then v else lineWidth c)
    (strokeStyle c) (fillStyle c)
    (globalCompositeOperation c) (saved c) (path c) (isDrawing c) (history c)
    (shapeStart c) (shapeSnapshot c).

Definition setStrokeStyle (v : string) (c : Canvas) : Canvas :=
  mkCanvas (mounted c) (bitmap c) (transform c) (lineWidth c)
    (if validStyle v then v else strokeStyle c) (fillStyle c)
    (globalCompositeOperation c) (saved c) (path c) (isDrawing c) (history c)
    (shapeStart c) (shapeSnapshot c).

Definition setFillStyle (v : string) (c : Canvas) : Canvas :=
  mkCanvas (mounted c) (bitmap c) (transform c) (lineWidth c) (strokeStyle c)
    (if validStyle v then v else fillStyle c)
    (globalCompositeOperation c) (saved c) (path c) (isDrawing c) (history c)
    (shapeStart c) (shapeSnapshot c).

Definition setComposite (op : CompositeOperation) (c : Canvas) : Canvas :=
  mkCanvas (mounted c) (bitmap c) (transform c) (lineWidth c) (strokeStyle c) (fillStyle c)
    op (saved c) (path c) (isDrawing c) (history c) (shapeStart c) (shapeSnapshot c).

Definition setPath (p : Path) (c : Canvas) : Canvas :=
  mkCanvas (mounted c) (bitmap c) (transform c) (lineWidth c) (strokeStyle c) (fillStyle c)
    (globalCompositeOperation c) (saved c) p (isDrawing c) (history c)
    (shapeStart c) (shapeSnapshot c).

Definition setIsDrawing (v : bool) (c : Canvas) : Canvas :=
  mkCanvas (mounted c) (bitmap c) (transform c) (lineWidth c) (strokeStyle c) (fillStyle c)
    (globalCompositeOperation c) (saved c) (path c) v (history c)
    (shapeStart c) (shapeSnapshot c).

Definition setHistory (h : list ImageData) (c : Canvas) : Canvas :=
  mkCanvas (mounted c) (bitmap c) (transform c) (lineWidth c) (strokeStyle c) (fillStyle c)
    (globalCompositeOperation c) (saved c) (path c) (isDrawing c) h
    (shapeStart c) (shapeSnapshot c).

Definition setShape (start : option Point) (snapshot : option ImageData) (c : Canvas)
    : Canvas :=
  mkCanvas (mounted c) (bitmap c) (transform c) (lineWidth c) (strokeStyle c) (fillStyle c)
    (globalCompositeOperation c) (saved c) (path c) (isDrawing c) (history c) start snapshot.

(** [context.save()]. *)
Definition save (c : Canvas) : Canvas :=
  mkCanvas (mounted c) (bitmap c) (transform c) (lineWidth c) (strokeStyle c) (fillStyle c)
    (globalCompositeOperation c)
    (mkDrawingState (transform c) (lineWidth c) (strokeStyle c) (fillStyle c)
       (globalCompositeOperation c) :: saved c)
    (path c) (isDrawing c) (history c) (shapeStart c) (shapeSnapshot c).

(** [context.restore()]; nothing happens on an empty stack. *)
Definition restore (c : Canvas) : Canvas :=
  match saved c with
  | [] => c
  | s :: rest =>
      mkCanvas (mounted c) (bitmap c) (savedTransform s) (savedLineWidth s)
        (savedStrokeStyle s) (savedFillStyle s) (savedComposite s) rest
        (path c) (isDrawing c) (history c) (shapeStart c) (shapeSnapshot c)
  end.

(** [context.stroke()] with the current transformation, pen and path. *)
Definition strokeCurrent (c : Canvas) : Canvas :=
  setBitmap (stroke (transform c) (lineWidth c) (strokeStyle c)
               (globalCompositeOperation c) (path c) (bitmap c)) c.

(** *** Snapshots *)

(** [pushSnapshotForUndo]: the canvas afterwards and the returned snapshot.
    When [getImageData] throws, the [catch] returns [null] ([None]);
    [context.restore()] has then not run. *)
Definition pushSnapshotForUndo (readable : bool) (c : Canvas) : Canvas * option ImageData :=
  let c1 := setTransform identityTransform (save c) in
  match getImageData readable (bitmap c1) with
  | Some snapshot =>
      (setHistory (pushHistory snapshot (history c1)) (restore c1), Some snapshot)
  | None => (c1, None)
  end.

Definition restoreSnapshot (snapshot : option ImageData) (c : Canvas) : Canvas :=
  match snapshot with
  | Some snap =>
      if mounted c then
        let c1 := setTransform identityTransform (save c) in
        restore (setBitmap (putImageData snap (clearRectAll (bitmap c1))) c1)
      else c
  | None => c
  end.

(** *** Shape preview *)

Definition isShapeTool (t : DrawingTool) : bool :=
  match t with
  | line | rectangle | ellipse => true
  | pencil | eraser | fill => false
  end.

Definition linePath (t : Transform) (start current : Point) : Path :=
  lineTo t (fst current) (snd current) (moveTo t (fst start) (snd start) emptyPath).

Definition ellipsePath (t : Transform) (start current : Point) : Path :=
  let width := num_sub (fst current) (fst start) in
  let height := num_sub (snd current) (snd start) in
  let radiusX := num_half (num_abs width) in
  let radiusY := num_half (num_abs height) in
  let centerX := num_add (fst start) (num_half width) in
  let centerY := num_add (snd start) (num_half height) in
  ellipseTo t centerX centerY radiusX radiusY num_zero num_zero num_two_pi emptyPath.

Definition drawPreviewShape (props : Props) (current : Point) (c : Canvas) : Canvas :=
  if negb (mounted c) then c
  else
    match shapeStart c with
    | None => c
    | Some start =>
        let c1 := restoreSnapshot (shapeSnapshot c) c in
        let c2 := setLineWidth (brushSize props) c1 in
        let c3 := setStrokeStyle (color props) c2 in
        let c4 := setFillStyle (color props) c3 in
        let c5 := setComposite SourceOver c4 in
        let width := num_sub (fst current) (fst start) in
        let height := num_sub (snd current) (snd start) in
        match tool props with
        | line =>
            let c6 := strokeCurrent (setPath (linePath (transform c5) start current) c5) in
            setPath (closePath (path c6)) c6
        | rectangle =>
            setBitmap (strokeRect (transform c5) (lineWidth c5) (strokeStyle c5)
                         (globalCompositeOperation c5)
                         (fst start) (snd start) width height (bitmap c5)) c5
        | ellipse =>
            let c6 := strokeCurrent (setPath (ellipsePath (transform c5) start current) c5) in
            setPath (closePath (path c6)) c6
        | pencil | eraser | fill => c5
        end
    end.

(** The shape of a tool between two points, stroked over a bitmap under
    a transformation and with a pen. *)
Definition renderShape (t : DrawingTool) (tr : Transform) (width : num) (style : string)
    (start current : Point) (bmp : ImageData) : ImageData :=
  match t with
  | line => stroke tr width style SourceOver (linePath tr start current) bmp
  | rectangle =>
      strokeRect tr width style SourceOver (fst start) (snd start)
        (num_sub (fst current) (fst start)) (num_sub (snd current) (snd start)) bmp
  | ellipse => stroke tr width style SourceOver (ellipsePath tr start current) bmp
  | pencil | eraser | fill => bmp
  end.

(** The dot that the pencil or the eraser strokes at pointer down. *)
Definition dotPath (t : Transform) (p : Point) : Path :=
  lineTo t (fst p) (snd p) (moveTo t (fst p) (snd p) emptyPath).

(** *** Flood fill on the canvas *)

(** When [getImageData] throws here the exception leaves the handler:
    nothing has been drawn and [context.restore()] has not run. *)
Definition floodFill (props : Props) (ev : PointerEvent) (c : Canvas) : Canvas :=
  if negb (mounted c) then c
  else
    let c1 := setTransform identityTransform (save c) in
    match getImageData (fillReadable ev) (bitmap c1) with
    | None => c1
    | Some imageData =>
        match floodFillImage (color props) (pixel ev) imageData with
        | Unchanged => restore c1
        | Repainted imageData' _ =>
            restore (setBitmap (putImageData imageData' (bitmap c1)) c1)
        | OutOfFuel => c1
        end
    end.

(** *** Pointer handlers *)

Definition handlePointerDown (props : Props) (ev : PointerEvent) (c : Canvas) : Canvas :=
  if negb (mounted c) then c
  else
    let '(c1, snapshot) := pushSnapshotForUndo (snapshotReadable ev) c in
    match tool props with
    | fill => floodFill props ev c1
    | t =>
        let c2 := setIsDrawing true c1 in
        let c3 := setLineWidth (brushSize props) c2 in
        let c4 := setStrokeStyle (color props) c3 in
        let c5 := setComposite (match t with eraser => DestinationOut | _ => SourceOver end) c4 in
        match t with
        | pencil | eraser =>
            strokeCurrent (setPath (dotPath (transform c5) (point ev)) c5)
        | _ =>
            drawPreviewShape props (point ev) (setShape (Some (point ev)) snapshot c5)
        end
    end.

Definition handlePointerMove (props : Props) (ev : PointerEvent) (c : Canvas) : Canvas :=
  if negb (isDrawing c) then c
  else if negb (mounted c) then c
  else if isShapeTool (tool props) then drawPreviewShape props (point ev) c
  else
    let c1 := setLineWidth (brushSize props) c in
    let c2 := match tool props with eraser => c1 | _ => setStrokeStyle (color props) c1 end in
    let p := point ev in
    strokeCurrent (setPath (lineTo (transform c2) (fst p) (snd p) (path c2)) c2).

Definition stopDrawing (props : Props) (c : Canvas) : Canvas :=
  if negb (mounted c) then c
  else
    let c1 :=
      if isDrawing c then
        setComposite SourceOver
          (match tool props with
           | pencil | eraser => setPath (closePath (path c)) c
           | _ => c
           end)
      else c in
    setShape None None (setIsDrawing false c1).

Definition handlePointerUp (props : Props) (ev : PointerEvent) (c : Canvas) : Canvas :=
  stopDrawing props
    (if isShapeTool (tool props) then drawPreviewShape props (point ev) c else c).

Definition handlePointerLeave (props : Props) (c : Canvas) : Canvas := stopDrawing props c.

Definition handlePointerCancel (props : Props) (c : Canvas) : Canvas := stopDrawing props c.

(** A gesture: pointer down, the moves, pointer up. *)
Definition gesture (props : Props) (down : PointerEvent) (moves : list PointerEvent)
    (up : PointerEvent) (c : Canvas) : Canvas :=
  handlePointerUp props up
    (fold_left (fun c' ev => handlePointerMove props ev c') moves
       (handlePointerDown props down c)).

(** *** Signal effects *)

(** The effect that depends on [clearSignal]. *)
Definition clearEffect (c : Canvas) : Canvas :=
  if negb (mounted c) then c
  else
    let c1 := setTransform identityTransform (save c) in
    let c2 := setBitmap (clearRectAll (bitmap c1)) c1 in
    let c3 := setFillStyle "#ffffff" c2 in
    let c4 := setBitmap (fillRectWhiteAll (globalCompositeOperation c3) (bitmap c3)) c3 in
    setHistory [] (restore c4).

(** The effect that depends on [undoSignal]. *)
Definition undoEffect (signal : Z) (c : Canvas) : Canvas :=
  if signal =? 0 then c
  else if negb (mounted c) then c
  else
    match popHistory (history c) with
    | None => c
    | Some (previous, rest) =>
        let c1 := setTransform identityTransform (save (setHistory rest c)) in
        restore (setBitmap (putImageData previous (clearRectAll (bitmap c1))) c1)
    end.

(** [useEffect(f, [dep])] runs [f] after the first render and after every
    render in which [dep] differs from its value at the previous render.
    [prev] is [None] for the first render. *)
Definition depChanged (prev : option Props) (next : Props) (dep : Props -> Z) : bool :=
  match prev with
  | None => true
  | Some p => negb (dep p =? dep next)
  end.

(** The two signal effects of a render, in the order of the source. *)
Definition runSignalEffects (prev : option Props) (next : Props) (c : Canvas) : Canvas :=
  let c1 := if depChanged prev next clearSignal then clearEffect c else c in
  if depChanged prev next undoSignal then undoEffect (undoSignal next) c1 else c1.

(** The canvas once the first effect has set the refs: a bitmap, the
    scale of the device pixel ratio as transformation, the defaults of a
    fresh context, and the initial values of the refs. *)
Definition freshCanvas (scale : Transform) (bmp : ImageData) : Canvas :=
  mkCanvas true bmp scale defaultLineWidth "#000000" "#000000" SourceOver []
    emptyPath false [] None None.

(** The width and the style of the pen after the setters have been given
    the props: an invalid value leaves the previous one. *)
Definition penWidth (props : Props) (c : Canvas) : num :=
  if validLineWidth (brushSize props) then brushSize props else lineWidth c.

Definition penStyle (props : Props) (c : Canvas) : string :=
  if validStyle (color props) then color props else strokeStyle c.

(** The transformation in force after [pushSnapshotForUndo]: a failed
    capture leaves the identity set before the read. *)
Definition transformAfterCapture (readable : bool) (c : Canvas) : Transform :=
  if readable then transform c else identityTransform.

(** The canvas after pointer down and some moves of a gesture. *)
Definition previewAfter (props : Props) (down : PointerEvent) (moves : list PointerEvent)
    (c : Canvas) : Canvas :=
  fold_left (fun c' ev => handlePointerMove props ev c') moves
    (handlePointerDown props down c).

(** The point of the last event of a drag, the pointer-down event when
    there was no move. *)
Definition lastPoint (down : PointerEvent) (moves : list PointerEvent) : Point :=
  point (List.last moves down).

(** The same event, with another outcome for the snapshot read. *)
Definition withSnapshotReadable (readable : bool) (ev : PointerEvent) : PointerEvent :=
  mkPointerEvent (point ev) (pixel ev) readable (fillReadable ev).

(** Invariant of the preview frames of a shape gesture that started on the
    canvas [c0] at [start]: the buffer shows the one shape from [start] to
    the current point [cur], drawn over the bitmap of [c0]. *)
Definition previewing (props : Props) (c0 : Canvas) (start cur : Point) (c : Canvas) : Prop :=
  mounted c = true
  /\ isDrawing c = true
  /\ shapeStart c = Some start
  /\ shapeSnapshot c = Some (bitmap c0)
  /\ history c = pushHistory (bitmap c0) (history c0)
  /\ transform c = transform c0
  /\ lineWidth c = penWidth props c0
  /\ strokeStyle c = penStyle props c0
  /\ bitmap c = renderShape (tool props) (transform c0) (penWidth props c0)
                  (penStyle props c0) start cur (bitmap c0).

End Engine.

(** Thirty distinct one-pixel snapshots, for the examples. *)
Definition numbered (n : Z) : ImageData := mkImageData 1 1 [n; n; n; 255].
Definition thirty : list ImageData := numbered <$> seqZ 0 30.

(** ** A rasteriser for the examples

    Integer coordinates, a transformation is a scale factor, a path is the
    list of its vertices in device pixels, and a stroke inks the pixels at
    the vertices: opaque black when painting, transparent when erasing. *)

Definition plot (op : CompositeOperation) (pts : list (Z * Z)) (bmp : ImageData)
    : ImageData :=
  mkImageData (width bmp) (height bmp)
    (imap (fun i old =>
             if existsb (fun p => (0 <=? fst p) && (fst p <? width bmp)
                                  && (Z.of_nat i / 4 =? snd p * width bmp + fst p)) pts
             then match op with
                  | SourceOver => if Z.of_nat i mod 4 =? 3 then 255 else 0
                  | DestinationOut => 0
                  end
             else old)
          (data bmp)).

Definition pointRaster : Canvas2D :=
  {| num := Z;
     num_zero := 0;
     num_two_pi := 6;
     num_sub := Z.sub;
     num_add := Z.add;
     num_half := fun v => v / 2;
     num_abs := Z.abs;
     defaultLineWidth := 1;
     Transform := Z;
     identityTransform := 1;
     Path := list (Z * Z);
     emptyPath := [];
     moveTo := fun t x y p => p ++ [(t * x, t * y)];
     lineTo := fun t x y p => p ++ [(t * x, t * y)];
     ellipseTo := fun t cx cy rx ry _ _ _ p =>
       p ++ [(t * (cx - rx), t * cy); (t * (cx + rx), t * cy)];
     closePath := fun p => p;
     validLineWidth := fun v => 0 <? v;
     validStyle := fun s => negb (String.eqb s "");
     validStyle_white := eq_refl;
     stroke := fun _ _ _ op p bmp => plot op p bmp;
     strokeRect := fun t _ _ op x y w h bmp =>
       plot op [(t * x, t * y); (t * (x + w), t * (y + h))] bmp;
     stroke_sameSize := fun _ _ _ op p bmp =>
       conj eq_refl (conj eq_refl (length_imap _ (data bmp)));
     strokeRect_sameSize := fun _ _ _ op x y w h bmp =>
       conj eq_refl (conj eq_refl (length_imap _ (data bmp))) |}.

(** A white strip of four pixels, once at scale 1 and once at scale 2, and
    events along it. *)
Definition strip : Canvas (R := pointRaster) := @freshCanvas pointRaster 1 (whiteImage 4 1).

Definition strip2 : Canvas (R := pointRaster) := @freshCanvas pointRaster 2 (whiteImage 4 1).

Definition eventAt (x : Z) (snapshotOk : bool) : PointerEvent (R := pointRaster) :=
  @mkPointerEvent pointRaster (x, 0) (x, 0) snapshotOk true.

Definition sampleProps (t : DrawingTool) (c : string) : Props (R := pointRaster) :=
  @mkProps pointRaster c 2 t 0 0.

(** ** The rest of the component: resize, load, sequences of events *)

Section Surface.

Context {R : Canvas2D}.

(** The bitmap of a canvas whose [width] or [height] has just been set:
    transparent black. *)
Definition blankImage (w h : Z) : ImageData :=
  mkImageData w h (replicate (Z.to_nat (4 * (w * h))) 0).

(** [resizeToContainer].  [newWidth] and [newHeight] are the values that
    [canvas.width] and [canvas.height] take from [rect.width * ratio] and
    [rect.height * ratio]; [scale] is the transformation that
    [ctx.scale(ratio, ratio)] makes of the identity; [readable] tells
    whether [getImageData] returns.  Setting the size of a canvas resets
    its bitmap and the whole state of its context; the refs stay. *)
Definition resizeToContainer (newWidth newHeight : Z) (scale : Transform) (readable : bool)
    (c : Canvas) : Canvas :=
  if negb (mounted c) then c
  else
    let imageData :=
      if (0 <? width (bitmap c)) && (0 <? height (bitmap c))
      then getImageData readable (bitmap c)
      else None in
    let c0 := mkCanvas true (blankImage newWidth newHeight) scale defaultLineWidth
                "#000000" "#000000" SourceOver [] emptyPath
                (isDrawing c) (history c) (shapeStart c) (shapeSnapshot c) in
    let c1 := setTransform identityTransform (save c0) in
    let c2 :=
      match imageData with
      | Some img => setBitmap (putImageData img (bitmap c1)) c1
      | None =>
          let c1' := setFillStyle "#ffffff" c1 in
          setBitmap (fillRectWhiteAll (globalCompositeOperation c1') (bitmap c1')) c1'
      end in
    restore c2.

(** The [onload] callback of [loadFromDataURL], which exists when the refs
    were set at the call.  [drawImage] is what
    [context.drawImage(image, 0, 0, canvas.width, canvas.height)] makes of
    a bitmap for the decoded image, under a composite operation. *)
Definition imageLoaded (drawImage : CompositeOperation -> ImageData -> ImageData)
    (c : Canvas) : Canvas :=
  if negb (mounted c) then c
  else
    let c1 := setTransform identityTransform (save c) in
    let c2 := setBitmap (clearRectAll (bitmap c1)) c1 in
    let c3 := setBitmap (drawImage (globalCompositeOperation c2) (bitmap c2)) c2 in
    setHistory [] (restore c3).

(** What can happen to a mounted component. *)
Inductive Event : Type :=
| PointerDown (props : Props) (ev : PointerEvent)
| PointerMove (props : Props) (ev : PointerEvent)
| PointerUp (props : Props) (ev : PointerEvent)
| PointerLeave (props : Props)
| PointerCancel (props : Props)
| Rendered (prev next : Props)
| Resized (newWidth newHeight : nat) (scale : Transform) (readable : bool).

Definition stepEvent (e : Event) (c : Canvas) : Canvas :=
  match e with
  | PointerDown props ev => handlePointerDown props ev c
  | PointerMove props ev => handlePointerMove props ev c
  | PointerUp props ev => handlePointerUp props ev c
  | PointerLeave props => handlePointerLeave props c
  | PointerCancel props => handlePointerCancel props c
  | Rendered prev next => runSignalEffects (Some prev) next c
  | Resized w h scale readable =>
      resizeToContainer (Z.of_nat w) (Z.of_nat h) scale readable c
  end.

Definition runEvents (events : list Event) (c : Canvas) : Canvas :=
  fold_left (fun c' e => stepEvent e c') events c.

(** While no gesture is active the context paints. *)
Definition idlePaints (c : Canvas) : Prop :=
  isDrawing c = false -> globalCompositeOperation c = SourceOver.

(** A complete gesture, and a run of gestures. *)
Record Gesture : Type := mkGesture {
  gProps : Props;
  gDown : PointerEvent;
  gMoves : list PointerEvent;
  gUp : PointerEvent
}.

Definition runGestures (gs : list Gesture) (c : Canvas) : Canvas :=
  fold_left (fun c' g => gesture (gProps g) (gDown g) (gMoves g) (gUp g) c') gs c.

(** The undo button pressed [n] times when the signal is [signal]: the
    effect runs with the signals [signal + 1], ..., [signal + n]. *)
Definition undoClicks (signal : Z) (n : nat) (c : Canvas) : Canvas :=
  fold_left (fun c' s => undoEffect s c') (seqZ (signal + 1) (Z.of_nat n)) c.

(** Calls of [pushSnapshotForUndo] whose captures succeed, each made while
    the buffer shows the next image of [shown]; what was drawn between two
    calls is left open. *)
Definition pushEach (shown : list ImageData) (c : Canvas) : Canvas :=
  fold_left (fun c' bmp => fst (pushSnapshotForUndo true (setBitmap bmp c'))) shown c.

(** The buttons of the application ([setUndoSignal], [setClearSignal]) and
    its colour input, on the props they feed. *)
Definition pressUndo (p : Props) : Props :=
  mkProps (color p) (brushSize p) (tool p) (clearSignal p) (undoSignal p + 1).

Definition pressClear (p : Props) : Props :=
  mkProps (color p) (brushSize p) (tool p) (clearSignal p + 1) (undoSignal p).

Definition changeColor (value : string) (p : Props) : Props :=
  mkProps value (brushSize p)
    (match tool p with eraser => pencil | t => t end)
    (clearSignal p) (undoSignal p).

End Surface.

(** ** The gallery of saved drawings *)

Record SavedDrawing : Type := mkSavedDrawing {
  drawingId : string;
  dataURL : string;
  createdAt : Z
}.

Definition galleryLimit : nat := 12.

(** [handleSaveDrawing]: [dataURL] is what [toDataURL] returned ([None] for
    [null] or [undefined]); [id] and [now] are the fresh identifier and
    [Date.now()]. *)
Definition handleSaveDrawing (url : option string) (id : string) (now : Z)
    (previous : list SavedDrawing) : list SavedDrawing :=
  match url with
  | None => previous
  | Some u =>
      if String.eqb u "" then previous
      else take galleryLimit (mkSavedDrawing id u now :: previous)
  end.

Definition handleDeleteDrawing (id : string) (previous : list SavedDrawing)
    : list SavedDrawing :=
  List.filter (fun entry => negb (String.eqb (drawingId entry) id)) previous.

(** [handleLoadDrawing]: the data URL handed to [loadFromDataURL], if an
    entry has the identifier. *)
Definition handleLoadDrawing (id : string) (savedDrawings : list SavedDrawing)
    : option string :=
  match List.find (fun entry => String.eqb (drawingId entry) id) savedDrawings with
  | Some drawing => Some (dataURL drawing)
  | None => None
  end.

(** Events other than a resize. *)
Definition notResized {R : Canvas2D} (e : Event) : Prop :=
  match e with
  | Resized _ _ _ _ => False
  | _ => True
  end.

(** * Properties *)

Example hex_cyan : hexToRgba "#22d3ee" = mkRgba 34 211 238 255.
Proof. reflexivity. Qed.
Example hex_short : hexToRgba "#0f8" = mkRgba 0 255 136 255.
Proof. reflexivity. Qed.
Example hex_prefix : hexToRgba "-0x10" = mkRgba 255 255 240 255.
Proof. reflexivity. Qed.
Example hex_nan : hexToRgba "zz" = mkRgba 0 0 0 255.
Proof. reflexivity. Qed.

(** ** Colour model *)

Section ColourFacts.

Lemma land_255_range (v : Z) : 0 <= Z.land v 255 <= 255.
Proof.
  assert (E : Z.land v 255 = v mod 2 ^ 8) by (apply (Z.land_ones v 8); lia).
  rewrite E. assert (0 <= v mod 2 ^ 8 < 2 ^ 8) by (apply Z.mod_pos_bound; lia).
  change (2 ^ 8) with 256 in *. lia.
Qed.

Lemma land_15_range (v : Z) : 0 <= Z.land v 15 < 16.
Proof.
  change 15 with (Z.ones 4). rewrite Z.land_ones by lia.
  apply Z.mod_pos_bound. reflexivity.
Qed.

Lemma nibble_cases (d : Z) :
  0 <= d < 16 ->
  d = 0 \/ d = 1 \/ d = 2 \/ d = 3 \/ d = 4 \/ d = 5 \/ d = 6 \/ d = 7 \/
  d = 8 \/ d = 9 \/ d = 10 \/ d = 11 \/ d = 12 \/ d = 13 \/ d = 14 \/ d = 15.
Proof. lia. Qed.

(** Doubling a hexadecimal digit: [(d << 4) | d] is [17 * d]. *)
Lemma nibble_double (d : Z) : 0 <= d < 16 -> Z.lor (Z.shiftl d 4) d = 17 * d.
Proof.
  intros Hd. apply nibble_cases in Hd.
  repeat (destruct Hd as [-> | Hd]; [reflexivity |]). subst d. reflexivity.
Qed.

(** Whatever the string, the channels of a parsed colour are bytes. *)
Lemma hexToRgba_range (hex : string) : rgbaInRange (hexToRgba hex).
Proof.
  unfold hexToRgba, rgbaInRange, byteRange, Js.band.
  destruct (_ =? 3); cbn [r g b a].
  - repeat split; try lia;
      match goal with
      | |- context [Z.lor (Z.shiftl ?d 4) ?d] =>
          let H := fresh in
          assert (H : 0 <= d < 16) by apply land_15_range;
          rewrite (nibble_double d H); lia
      end.
  - repeat split; try lia; apply land_255_range.
Qed.

Lemma colorsMatch_true (px : Quad) (c : Rgba) (t : Z) :
  colorsMatch px c t = true <->
  Z.abs (px.1.1.1 - r c) <= t /\ Z.abs (px.1.1.2 - g c) <= t
  /\ Z.abs (px.1.2 - b c) <= t /\ Z.abs (px.2 - a c) <= t.
Proof.
  destruct px as [[[a0 a1] a2] a3]. unfold colorsMatch. cbn [fst snd].
  rewrite !andb_true_iff, !Z.leb_le. tauto.
Qed.

Lemma colorsMatch_refl (c : Rgba) (t : Z) : 0 <= t -> colorsMatch (quadOf c) c t = true.
Proof.
  intros Ht. apply colorsMatch_true. unfold quadOf. cbn [fst snd].
  rewrite !Z.sub_diag. cbn. tauto.
Qed.

Lemma colorsMatch_sym (c1 c2 : Rgba) (t : Z) :
  colorsMatch (quadOf c1) c2 t = colorsMatch (quadOf c2) c1 t.
Proof.
  assert (E : forall u v, Z.abs (u - v) = Z.abs (v - u)) by (intros; lia).
  unfold colorsMatch, quadOf.
  rewrite (E (r c1)), (E (g c1)), (E (b c1)), (E (a c1)). reflexivity.
Qed.

End ColourFacts.

(** C5.  [colorsMatch a b tolerance] is true exactly when the absolute
    difference of each of the four channels, alpha included, is at most the
    tolerance, whose default is 26; it is symmetric in the two colours; and
    for a tolerance of at least 0 every colour matches itself. *)
Theorem colorsMatch_iff_sym_refl :
  defaultTolerance = 26
  /\ (forall a0 a1 a2 a3 (c : Rgba) (t : Z),
        colorsMatch (a0, a1, a2, a3) c t = true <->
        Z.abs (a0 - r c) <= t /\ Z.abs (a1 - g c) <= t
        /\ Z.abs (a2 - b c) <= t /\ Z.abs (a3 - a c) <= t)
  /\ (forall (c1 c2 : Rgba) (t : Z),
        colorsMatch (quadOf c1) c2 t = colorsMatch (quadOf c2) c1 t)
  /\ (forall (c : Rgba) (t : Z), 0 <= t -> colorsMatch (quadOf c) c t = true).
Proof.
  split; [reflexivity |]. split; [| split].
  - intros. apply (colorsMatch_true (a0, a1, a2, a3)).
  - apply colorsMatch_sym.
  - apply colorsMatch_refl.
Qed.

Lemma colorsMatch_iff_sym_refl_witness :
  colorsMatch (quadOf (mkRgba 10 20 30 255)) (mkRgba 10 20 30 255) 0 = true.
Proof.
  apply (proj2 (proj2 (proj2 colorsMatch_iff_sym_refl))). lia.
Defined.

(** ** Parsing of hexadecimal colours *)

Section HexFacts.

Lemma hexDigit_code (c : ascii) (d : Z) :
  Js.hexDigit c = Some d ->
  0 <= d < 16 /\ (48 <= Js.code c <= 57 \/ 65 <= Js.code c <= 70 \/ 97 <= Js.code c <= 102).
Proof.
  unfold Js.hexDigit. intros H.
  repeat match type of H with
         | (if ?t then _ else _) = _ => destruct t eqn:?
         end; inversion H; subst; lia.
Qed.

Lemma hexDigit_not_space (c : ascii) (d : Z) :
  Js.hexDigit c = Some d -> Js.isWhiteSpace c = false.
Proof.
  intros H. apply hexDigit_code in H as [_ H]. unfold Js.isWhiteSpace.
  repeat (apply orb_false_intro); apply Z.eqb_neq; lia.
Qed.

Lemma removeFirstHash_digit (c : ascii) (d : Z) (rest : string) :
  Js.hexDigit c = Some d ->
  Js.removeFirstHash (String c rest) = String c (Js.removeFirstHash rest).
Proof.
  intros H. apply hexDigit_code in H as [_ H]. cbn [Js.removeFirstHash].
  destruct (Js.code c =? 35) eqn:E; [lia | reflexivity].
Qed.

Lemma roundToDouble_small (n : Z) : n < 2 ^ 53 -> Js.roundToDouble n = Some n.
Proof.
  intros H. unfold Js.roundToDouble.
  rewrite (proj2 (Z.ltb_lt n (2 ^ 53)) H). reflexivity.
Qed.

Lemma toInt32_small (n : Z) : 0 <= n < 2 ^ 31 -> Js.toInt32 (Js.Fin false n) = n.
Proof.
  intros H. unfold Js.toInt32.
  change (2 ^ 31) with 2147483648 in *. change (2 ^ 32) with 4294967296.
  rewrite Z.mod_small; lia.
Qed.

(** A string that starts with two hexadecimal digits has no white space,
    no sign and no [0x] prefix to strip. *)
Lemma parseInt16_digits (c1 c2 : ascii) (d1 d2 : Z) (rest : string) :
  Js.hexDigit c1 = Some d1 -> Js.hexDigit c2 = Some d2 ->
  Js.parseInt16 (String c1 (String c2 rest)) =
  match Js.scanHex (Some (d1 * 16 + d2)) rest with
  | None => Js.NaN
  | Some n =>
      match Js.roundToDouble n with
      | Some v => Js.Fin false v
      | None => Js.Infinity false
      end
  end.
Proof.
  intros H1 H2. unfold Js.parseInt16. cbn [Js.trimStart].
  rewrite (hexDigit_not_space _ _ H1). unfold Js.stripSign.
  pose proof (hexDigit_code _ _ H1) as [_ R1].
  pose proof (hexDigit_code _ _ H2) as [_ R2].
  destruct (Js.code c1 =? 45) eqn:E1; [lia |].
  destruct (Js.code c1 =? 43) eqn:E2; [lia |].
  unfold Js.stripHexPrefix.
  destruct (Js.code c2 =? 120) eqn:E3; [lia |].
  destruct (Js.code c2 =? 88) eqn:E4; [lia |].
  rewrite andb_false_r. cbn [Js.scanHex]. rewrite H1, H2. reflexivity.
Qed.

Lemma nibble_of (n k : Z) : 0 <= k -> Z.land (Z.shiftr n k) 15 = (n / 2 ^ k) mod 16.
Proof.
  intros Hk. rewrite Z.shiftr_div_pow2 by assumption.
  apply (Z.land_ones (n / 2 ^ k) 4). lia.
Qed.

Lemma byte_of (n k : Z) : 0 <= k -> Z.land (Z.shiftr n k) 255 = (n / 2 ^ k) mod 256.
Proof.
  intros Hk. rewrite Z.shiftr_div_pow2 by assumption.
  apply (Z.land_ones (n / 2 ^ k) 8). lia.
Qed.

Lemma hexToRgba_three (hash : bool) (c1 c2 c3 : ascii) (d1 d2 d3 : Z) :
  Js.hexDigit c1 = Some d1 -> Js.hexDigit c2 = Some d2 -> Js.hexDigit c3 = Some d3 ->
  hexToRgba (withHash hash (String c1 (String c2 (String c3 EmptyString)))) =
  mkRgba (Z.lor (Z.shiftl d1 4) d1) (Z.lor (Z.shiftl d2 4) d2) (Z.lor (Z.shiftl d3 4) d3) 255.
Proof.
  intros H1 H2 H3.
  pose proof (hexDigit_code _ _ H1) as [B1 _].
  pose proof (hexDigit_code _ _ H2) as [B2 _].
  pose proof (hexDigit_code _ _ H3) as [B3 _].
  assert (E : Js.removeFirstHash (withHash hash (String c1 (String c2 (String c3 EmptyString))))
              = String c1 (String c2 (String c3 EmptyString))).
  { destruct hash; cbn [withHash].
    - reflexivity.
    - rewrite (removeFirstHash_digit _ _ _ H1), (removeFirstHash_digit _ _ _ H2),
        (removeFirstHash_digit _ _ _ H3). reflexivity. }
  unfold hexToRgba. rewrite E. cbn [String.length]. cbn [Z.of_nat Pos.of_succ_nat Pos.succ Z.eqb Pos.eqb].
  rewrite (parseInt16_digits _ _ _ _ _ H1 H2). cbn [Js.scanHex]. rewrite H3.
  set (n := (d1 * 16 + d2) * 16 + d3).
  assert (Bn : 0 <= n < 4096) by (unfold n; lia).
  rewrite roundToDouble_small by (change (2 ^ 53) with 9007199254740992; lia).
  unfold Js.sar, Js.band.
  rewrite toInt32_small by (change (2 ^ 31) with 2147483648; lia).
  rewrite !nibble_of by lia.
  replace (Z.land n 15) with (Z.land (Z.shiftr n 0) 15) by (rewrite Z.shiftr_0_r; reflexivity).
  rewrite nibble_of by lia.
  change (2 ^ 8) with 256. change (2 ^ 4) with 16. change (2 ^ 0) with 1.
  assert (R1 : (n / 256) mod 16 = d1) by (unfold n; Z.div_mod_to_equations; lia).
  assert (R2 : (n / 16) mod 16 = d2) by (unfold n; Z.div_mod_to_equations; lia).
  assert (R3 : (n / 1) mod 16 = d3) by (unfold n; Z.div_mod_to_equations; lia).
  rewrite R1, R2, R3. reflexivity.
Qed.

Lemma hexToRgba_six (hash : bool) (c1 c2 c3 c4 c5 c6 : ascii) (d1 d2 d3 d4 d5 d6 : Z) :
  Js.hexDigit c1 = Some d1 -> Js.hexDigit c2 = Some d2 -> Js.hexDigit c3 = Some d3 ->
  Js.hexDigit c4 = Some d4 -> Js.hexDigit c5 = Some d5 -> Js.hexDigit c6 = Some d6 ->
  hexToRgba (withHash hash
    (String c1 (String c2 (String c3 (String c4 (String c5 (String c6 EmptyString))))))) =
  mkRgba (d1 * 16 + d2) (d3 * 16 + d4) (d5 * 16 + d6) 255.
Proof.
  intros H1 H2 H3 H4 H5 H6.
  pose proof (hexDigit_code _ _ H1) as [B1 _].
  pose proof (hexDigit_code _ _ H2) as [B2 _].
  pose proof (hexDigit_code _ _ H3) as [B3 _].
  pose proof (hexDigit_code _ _ H4) as [B4 _].
  pose proof (hexDigit_code _ _ H5) as [B5 _].
  pose proof (hexDigit_code _ _ H6) as [B6 _].
  set (s := String c1 (String c2 (String c3 (String c4 (String c5 (String c6 EmptyString)))))).
  assert (E : Js.removeFirstHash (withHash hash s) = s).
  { destruct hash; cbn [withHash].
    - reflexivity.
    - unfold s.
      rewrite (removeFirstHash_digit _ _ _ H1), (removeFirstHash_digit _ _ _ H2),
        (removeFirstHash_digit _ _ _ H3), (removeFirstHash_digit _ _ _ H4),
        (removeFirstHash_digit _ _ _ H5), (removeFirstHash_digit _ _ _ H6). reflexivity. }
  unfold hexToRgba. rewrite E. unfold s. cbn [String.length].
  cbn [Z.of_nat Pos.of_succ_nat Pos.succ Z.eqb Pos.eqb].
  rewrite (parseInt16_digits _ _ _ _ _ H1 H2). cbn [Js.scanHex]. rewrite H3, H4, H5, H6.
  set (n := ((((d1 * 16 + d2) * 16 + d3) * 16 + d4) * 16 + d5) * 16 + d6).
  assert (Bn : 0 <= n < 16777216) by (unfold n; lia).
  rewrite roundToDouble_small by (change (2 ^ 53) with 9007199254740992; lia).
  unfold Js.sar, Js.band.
  rewrite toInt32_small by (change (2 ^ 31) with 2147483648; lia).
  rewrite !byte_of by lia.
  replace (Z.land n 255) with (Z.land (Z.shiftr n 0) 255) by (rewrite Z.shiftr_0_r; reflexivity).
  rewrite byte_of by lia.
  change (2 ^ 16) with 65536. change (2 ^ 8) with 256. change (2 ^ 0) with 1.
  assert (R1 : (n / 65536) mod 256 = d1 * 16 + d2) by (unfold n; Z.div_mod_to_equations; lia).
  assert (R2 : (n / 256) mod 256 = d3 * 16 + d4) by (unfold n; Z.div_mod_to_equations; lia).
  assert (R3 : (n / 1) mod 256 = d5 * 16 + d6) by (unfold n; Z.div_mod_to_equations; lia).
  rewrite R1, R2, R3. reflexivity.
Qed.

End HexFacts.

(** C6.  A colour written as three or six hexadecimal digits, with or
    without a leading [#], is parsed to a quadruple whose channels lie in
    0..255 and whose alpha is 255.  With three digits each digit [d] becomes
    the byte [(d << 4) | d]; with six digits the consecutive pairs of digits
    are the bytes of red, green and blue. *)
Theorem hexToRgba_hex_forms (hash : bool) :
  (forall c1 c2 c3 d1 d2 d3,
      Js.hexDigit c1 = Some d1 -> Js.hexDigit c2 = Some d2 -> Js.hexDigit c3 = Some d3 ->
      let c := hexToRgba (withHash hash (String c1 (String c2 (String c3 EmptyString)))) in
      c = mkRgba (Z.lor (Z.shiftl d1 4) d1) (Z.lor (Z.shiftl d2 4) d2)
                 (Z.lor (Z.shiftl d3 4) d3) 255
      /\ rgbaInRange c /\ a c = 255)
  /\ (forall c1 c2 c3 c4 c5 c6 d1 d2 d3 d4 d5 d6,
      Js.hexDigit c1 = Some d1 -> Js.hexDigit c2 = Some d2 -> Js.hexDigit c3 = Some d3 ->
      Js.hexDigit c4 = Some d4 -> Js.hexDigit c5 = Some d5 -> Js.hexDigit c6 = Some d6 ->
      let c := hexToRgba (withHash hash
        (String c1 (String c2 (String c3 (String c4 (String c5 (String c6 EmptyString))))))) in
      c = mkRgba (d1 * 16 + d2) (d3 * 16 + d4) (d5 * 16 + d6) 255
      /\ rgbaInRange c /\ a c = 255).
Proof.
  split; intros; subst c.
  - split; [| split].
    + apply hexToRgba_three; assumption.
    + apply hexToRgba_range.
    + erewrite hexToRgba_three by eassumption. reflexivity.
  - split; [| split].
    + apply hexToRgba_six; assumption.
    + apply hexToRgba_range.
    + erewrite hexToRgba_six by eassumption. reflexivity.
Qed.

Lemma hexToRgba_hex_forms_witness :
  hexToRgba "#0f8" = mkRgba 0 255 136 255
  /\ hexToRgba "22d3EE" = mkRgba 34 211 238 255.
Proof.
  split.
  - apply (proj1 (hexToRgba_hex_forms true) "0" "f" "8" 0 15 8)%char; reflexivity.
  - apply (proj2 (hexToRgba_hex_forms false) "2" "2" "d" "3" "E" "E" 2 2 13 3 14 14)%char;
      reflexivity.
Defined.

(** ** Typed arrays *)

Section ArrayFacts.

Lemma length_setAt (d : list Z) (i v : Z) : length (setAt d i v) = length d.
Proof. unfold setAt. destruct (i <? 0); [reflexivity | apply length_insert]. Qed.

Lemma getAt_setAt_ne (d : list Z) (i j v : Z) :
  i <> j -> getAt (setAt d i v) j = getAt d j.
Proof.
  intros Hne. unfold getAt, setAt.
  destruct (j <? 0) eqn:Ej; [reflexivity |].
  destruct (i <? 0) eqn:Ei; [reflexivity |].
  apply list_lookup_insert_ne. lia.
Qed.

Lemma getAt_setAt_eq (d : list Z) (i v : Z) :
  0 <= i < Z.of_nat (length d) -> getAt (setAt d i v) i = Some (clampByte v).
Proof.
  intros Hi. unfold getAt, setAt.
  destruct (i <? 0) eqn:Ei; [lia |].
  apply list_lookup_insert_eq. lia.
Qed.

Lemma getAt_Some_range (d : list Z) (i v : Z) :
  getAt d i = Some v -> 0 <= i < Z.of_nat (length d).
Proof.
  unfold getAt. destruct (i <? 0) eqn:Ei; [discriminate |].
  intros H. apply lookup_lt_Some in H. lia.
Qed.

Lemma getAt_in_range (d : list Z) (i : Z) :
  0 <= i < Z.of_nat (length d) -> exists v, getAt d i = Some v.
Proof.
  intros Hi. unfold getAt. destruct (i <? 0) eqn:Ei; [lia |].
  destruct (lookup_lt_is_Some_2 d (Z.to_nat i)) as [v Hv]; [lia |]. eauto.
Qed.

Lemma clampByte_id (v : Z) : byteRange v -> clampByte v = v.
Proof. unfold byteRange, clampByte. lia. Qed.

Lemma zeros_replicate (n : nat) : zeros (replicate n 0) = n.
Proof.
  unfold zeros. induction n as [| n IH]; [reflexivity |].
  cbn [replicate]. rewrite filter_cons_True by reflexivity. cbn [length]. congruence.
Qed.

Lemma isVisited_replicate (n : nat) (idx : Z) : isVisited (replicate n 0) idx = false.
Proof.
  unfold isVisited, getAt. destruct (idx <? 0); [reflexivity |].
  destruct (replicate n 0 !! Z.to_nat idx) as [flag |] eqn:E; [| reflexivity].
  apply lookup_replicate in E as [-> _]. reflexivity.
Qed.

Lemma zeros_insert (v : list Z) (i : nat) :
  v !! i = Some 0 -> S (zeros (<[i := 1]> v)) = zeros v.
Proof.
  unfold zeros. revert i. induction v as [| z v IH]; intros i Hi; [discriminate |].
  destruct i as [| i]; cbn in Hi.
  - inversion Hi; subst. change (<[0%nat := 1]> (0 :: v)) with (1 :: v).
    rewrite filter_cons_False by (cbv beta; lia).
    rewrite filter_cons_True by reflexivity. reflexivity.
  - change (<[S i := 1]> (z :: v)) with (z :: <[i := 1]> v).
    destruct (decide (z = 0)) as [Hz | Hz].
    + rewrite !filter_cons_True by assumption. cbn [length]. f_equal. apply IH, Hi.
    + rewrite !filter_cons_False by assumption. apply IH, Hi.
Qed.

Lemma isVisited_false_zero (v : list Z) (idx : Z) :
  0 <= idx < Z.of_nat (length v) -> isVisited v idx = false -> getAt v idx = Some 0.
Proof.
  intros Hr. unfold isVisited. destruct (getAt_in_range v idx Hr) as [flag ->].
  destruct (flag =? 0) eqn:E; [| discriminate]. intros _. f_equal. lia.
Qed.

Lemma isVisited_setAt_eq (v : list Z) (idx : Z) :
  0 <= idx < Z.of_nat (length v) -> isVisited (setAt v idx 1) idx = true.
Proof. intros Hr. unfold isVisited. rewrite getAt_setAt_eq by assumption. reflexivity. Qed.

Lemma isVisited_setAt_ne (v : list Z) (i j : Z) :
  i <> j -> isVisited (setAt v i 1) j = isVisited v j.
Proof. intros Hne. unfold isVisited. rewrite getAt_setAt_ne by assumption. reflexivity. Qed.

Lemma zeros_setAt (v : list Z) (idx : Z) :
  getAt v idx = Some 0 -> S (zeros (setAt v idx 1)) = zeros v.
Proof.
  unfold getAt, setAt. destruct (idx <? 0); [discriminate |]. apply zeros_insert.
Qed.

End ArrayFacts.

(** ** Pixels of the flat array *)

Section PixelFacts.

Lemma index_range (w h x y : Z) : 0 <= x < w -> 0 <= y < h -> 0 <= y * w + x < w * h.
Proof. intros Hx Hy. nia. Qed.

Lemma index_inj (w x y x' y' : Z) :
  0 <= x < w -> 0 <= x' < w -> y * w + x = y' * w + x' -> x = x' /\ y = y'.
Proof.
  intros Hx Hx' E.
  assert (y = y') by nia. subst y'. lia.
Qed.

Lemma outOfBounds_false (w h x y : Z) :
  outOfBounds w h x y = false <-> 0 <= x < w /\ 0 <= y < h.
Proof. unfold outOfBounds. rewrite !orb_false_iff, !Z.ltb_ge, !Z.leb_gt. lia. Qed.

Lemma length_setPixel (w : Z) (c : Rgba) (d : list Z) (x y : Z) :
  length (setPixel w c d x y) = length d.
Proof. unfold setPixel. rewrite !length_setAt. reflexivity. Qed.

Lemma readQuad_setPixel_same (w : Z) (c : Rgba) (d : list Z) (x y : Z) :
  rgbaInRange c ->
  0 <= pixelOffset w x y -> pixelOffset w x y + 3 < Z.of_nat (length d) ->
  readQuad (setPixel w c d x y) (pixelOffset w x y) = Some (quadOf c).
Proof.
  intros (Hr & Hg & Hb & Ha) Hlo Hhi. unfold readQuad, setPixel.
  set (o := pixelOffset w x y) in *.
  rewrite !(getAt_setAt_ne _ _ o) by lia.
  rewrite !(getAt_setAt_ne _ _ (o + 1)) by lia.
  rewrite !(getAt_setAt_ne _ _ (o + 2)) by lia.
  rewrite !getAt_setAt_eq by (rewrite ?length_setAt; lia).
  rewrite !clampByte_id by assumption. reflexivity.
Qed.

Lemma readQuad_setPixel_other (w : Z) (c : Rgba) (d : list Z) (x y off : Z) :
  off + 3 < pixelOffset w x y \/ pixelOffset w x y + 3 < off ->
  readQuad (setPixel w c d x y) off = readQuad d off.
Proof.
  intros Hfar. unfold readQuad, setPixel.
  set (o := pixelOffset w x y) in *.
  rewrite !getAt_setAt_ne by lia. reflexivity.
Qed.

(** Two distinct pixels inside the image do not share a channel. *)
Lemma pixelOffset_apart (w x y x' y' : Z) :
  0 <= x < w -> 0 <= x' < w -> (x, y) <> (x', y') ->
  pixelOffset w x' y' + 3 < pixelOffset w x y \/ pixelOffset w x y + 3 < pixelOffset w x' y'.
Proof.
  intros Hx Hx' Hne. unfold pixelOffset.
  assert (y * w + x <> y' * w + x').
  { intros E. apply index_inj in E as [-> ->]; [congruence | assumption | assumption]. }
  lia.
Qed.

Lemma readQuad_in_range (d : list Z) (off : Z) :
  0 <= off -> off + 3 < Z.of_nat (length d) -> exists q, readQuad d off = Some q.
Proof.
  intros Hlo Hhi. unfold readQuad.
  destruct (getAt_in_range d off) as [c0 ->]; [lia |].
  destruct (getAt_in_range d (off + 1)) as [c1 ->]; [lia |].
  destruct (getAt_in_range d (off + 2)) as [c2 ->]; [lia |].
  destruct (getAt_in_range d (off + 3)) as [c3 ->]; [lia |]. eauto.
Qed.

Lemma pixelOffset_range (w h x y : Z) (d : list Z) :
  Z.of_nat (length d) = 4 * (w * h) -> 0 <= x < w -> 0 <= y < h ->
  0 <= pixelOffset w x y /\ pixelOffset w x y + 3 < Z.of_nat (length d).
Proof.
  intros Hlen Hx Hy. unfold pixelOffset.
  pose proof (index_range w h x y Hx Hy). lia.
Qed.

End PixelFacts.

(** ** Termination of the fill loop *)

Section FillTermination.

Variables (w h : Z) (fillColor : Rgba) (target : option Rgba).

Lemma floodStep_measure (x y : Z) (rest : list (Z * Z)) (s : FillState) :
  length (visited s) = Z.to_nat (w * h) ->
  stack s = (x, y) :: rest ->
  let s' := floodStep w h fillColor target x y rest s in
  length (visited s') = Z.to_nat (w * h) /\ (fillMeasure s' < fillMeasure s)%nat.
Proof.
  intros Hlen Hst. unfold floodStep, fillMeasure. rewrite Hst.
  destruct (outOfBounds w h x y) eqn:Hob; cbn [visited stack length]; [split; [assumption | lia] |].
  destruct (isVisited (visited s) (y * w + x)) eqn:Hv; cbn [visited stack length];
    [split; [assumption | lia] |].
  destruct (matchTarget w target (fdata s) x y); cbn [negb visited stack length];
    [| split; [assumption | lia]].
  apply outOfBounds_false in Hob as [Hx Hy].
  pose proof (index_range w h x y Hx Hy) as Hidx.
  split; [rewrite length_setAt; assumption |].
  assert (Hz : getAt (visited s) (y * w + x) = Some 0)
    by (apply isVisited_false_zero; [lia | assumption]).
  apply zeros_setAt in Hz. lia.
Qed.

Lemma floodLoop_total (fuel : nat) (s : FillState) :
  length (visited s) = Z.to_nat (w * h) ->
  (fillMeasure s <= fuel)%nat ->
  exists s', floodLoop fuel w h fillColor target s = Some s'.
Proof.
  revert s. induction fuel as [| fuel IH]; intros s Hlen Hm.
  - destruct (stack s) as [| [x y] rest] eqn:Hst.
    + exists s. cbn. rewrite Hst. reflexivity.
    + unfold fillMeasure in Hm. rewrite Hst in Hm. cbn [length] in Hm. lia.
  - destruct (stack s) as [| [x y] rest] eqn:Hst.
    + exists s. cbn. rewrite Hst. reflexivity.
    + cbn [floodLoop]. rewrite Hst.
      destruct (floodStep_measure x y rest s Hlen Hst) as [Hlen' Hlt].
      apply IH; [assumption | lia].
Qed.

End FillTermination.

(** ** The invariant of the fill loop *)

Section FillInvariant.

Variables (img : ImageData) (fillColor target : Rgba) (seed : Z * Z).
Hypothesis Hwf : wellFormed img.
Hypothesis Hfill : rgbaInRange fillColor.
Hypothesis Hseed : inBounds img seed.
Hypothesis Htarget : getPixel img (fst seed) (snd seed) = Some (quadOf target).

Local Abbreviation w := (width img).
Local Abbreviation h := (height img).

Lemma matchesTarget_read (x y : Z) :
  matchesTarget img target (x, y) <->
  colorsMatchRead (getPixel img x y) (Some target) = true.
Proof.
  unfold matchesTarget, colorsMatchRead. cbn [fst snd]. split.
  - intros (q & -> & Hq). exact Hq.
  - destruct (getPixel img x y) as [q |]; [eauto | discriminate].
Qed.

Lemma seed_matches : matchesTarget img target seed.
Proof.
  exists (quadOf target). split; [exact Htarget |].
  apply colorsMatch_refl. unfold defaultTolerance. lia.
Qed.

Lemma connected_inside (p : Z * Z) :
  connected img target seed p -> inBounds img p /\ matchesTarget img target p.
Proof. intros H. destruct H; split; assumption. Qed.

Lemma fillInv_init :
  fillInv img fillColor target seed
    (mkFillState (data img) (replicate (Z.to_nat (w * h)) 0) [seed] []).
Proof.
  destruct Hwf as (Hw & Hh & Hlen).
  constructor; cbn [fdata visited stack painted].
  - reflexivity.
  - rewrite length_replicate. nia.
  - intros x y _. rewrite isVisited_replicate. cbn. split; [discriminate | tauto].
  - constructor.
  - intros p [].
  - intros x y [].
  - intros x y _ _. reflexivity.
  - intros q [<- | []]. left. reflexivity.
  - right. left. reflexivity.
  - intros p q [].
Qed.

(** A point that the loop pops and skips is never one that still has to be
    painted. *)
Lemma skipped_not_pending (s : FillState) (x y : Z) :
  fillInv img fillColor target seed s ->
  outOfBounds w h x y = true
  \/ isVisited (visited s) (y * w + x) = true
  \/ matchTarget w (Some target) (fdata s) x y = false ->
  inBounds img (x, y) -> matchesTarget img target (x, y) -> In (x, y) (painted s).
Proof.
  intros Inv Hskip Hin Hm.
  destruct (isVisited (visited s) (y * w + x)) eqn:Hv.
  - apply (inv_visited _ _ _ _ _ Inv x y Hin). exact Hv.
  - exfalso. destruct Hskip as [Hob | [Hvis | Hnm]].
    + assert (outOfBounds w h x y = false) by (apply outOfBounds_false; exact Hin).
      congruence.
    + discriminate.
    + assert (Hnp : ~ In (x, y) (painted s)).
      { intros Hp. apply (inv_visited _ _ _ _ _ Inv x y Hin) in Hp.
        congruence. }
      unfold matchTarget in Hnm.
      rewrite (inv_frame _ _ _ _ _ Inv x y Hin Hnp) in Hnm.
      apply matchesTarget_read in Hm. congruence.
Qed.

Lemma fillInv_skip (s : FillState) (x y : Z) (rest : list (Z * Z)) :
  fillInv img fillColor target seed s ->
  stack s = (x, y) :: rest ->
  outOfBounds w h x y = true
  \/ isVisited (visited s) (y * w + x) = true
  \/ matchTarget w (Some target) (fdata s) x y = false ->
  fillInv img fillColor target seed (mkFillState (fdata s) (visited s) rest (painted s)).
Proof.
  intros Inv Hst Hskip.
  pose proof (skipped_not_pending s x y Inv Hskip) as Hdone.
  destruct Inv as [I1 I2 I3 I4 I5 I6 I7 I8 I9 I10].
  constructor; cbn [fdata visited stack painted]; try assumption.
  - intros q Hq. apply I8. rewrite Hst. right. exact Hq.
  - destruct I9 as [Hp | Hs]; [left; exact Hp |].
    rewrite Hst in Hs. destruct Hs as [E | Hs]; [| right; exact Hs].
    left. rewrite <- E. apply Hdone; rewrite E; [exact Hseed | exact seed_matches].
  - intros p q Hp Hadj Hin Hm.
    destruct (I10 p q Hp Hadj Hin Hm) as [Hq | Hq]; [left; exact Hq |].
    rewrite Hst in Hq. destruct Hq as [E | Hq]; [| right; exact Hq].
    left. subst q. apply Hdone; assumption.
Qed.

Lemma fillInv_paint (s : FillState) (x y : Z) (rest : list (Z * Z)) :
  fillInv img fillColor target seed s ->
  stack s = (x, y) :: rest ->
  outOfBounds w h x y = false ->
  isVisited (visited s) (y * w + x) = false ->
  matchTarget w (Some target) (fdata s) x y = true ->
  fillInv img fillColor target seed
    (mkFillState (setPixel w fillColor (fdata s) x y)
                 (setAt (visited s) (y * w + x) 1)
                 ((x, y - 1) :: (x, y + 1) :: (x - 1, y) :: (x + 1, y) :: rest)
                 ((x, y) :: painted s)).
Proof.
  intros Inv Hst Hob Hv Hm.
  apply outOfBounds_false in Hob as Hxy.
  assert (Hin : inBounds img (x, y)) by exact Hxy.
  destruct Hwf as (Hw & Hh & Hlen).
  assert (Hnp : ~ In (x, y) (painted s)).
  { intros Hp. apply (inv_visited _ _ _ _ _ Inv x y Hin) in Hp. congruence. }
  assert (Hmt : matchesTarget img target (x, y)).
  { apply matchesTarget_read.
    rewrite <- (inv_frame _ _ _ _ _ Inv x y Hin Hnp). exact Hm. }
  assert (Hconn : connected img target seed (x, y)).
  { destruct (inv_stack _ _ _ _ _ Inv (x, y)) as [E | (p & Hp & Hadj)].
    - rewrite Hst. left. reflexivity.
    - rewrite E. apply connected_seed; [exact Hseed | exact seed_matches].
    - eapply connected_step; [apply (inv_sound _ _ _ _ _ Inv p Hp) | exact Hadj | exact Hin | exact Hmt]. }
  pose proof (index_range _ _ x y (proj1 Hxy) (proj2 Hxy)) as Hidx.
  destruct Inv as [I1 I2 I3 I4 I5 I6 I7 I8 I9 I10].
  constructor; cbn [fdata visited stack painted].
  - rewrite length_setPixel. exact I1.
  - rewrite length_setAt. exact I2.
  - intros x' y' Hin'. destruct (decide ((x', y') = (x, y))) as [E | Hne].
    + inversion E; subst x' y'.
      rewrite isVisited_setAt_eq by lia.
      split; [intros _; left; reflexivity | reflexivity].
    + rewrite isVisited_setAt_ne.
      * rewrite (I3 x' y' Hin'). split; [intros Hp; right; exact Hp |].
        intros [E | Hp]; [congruence | exact Hp].
      * intros E. apply index_inj in E as [-> ->]; [congruence | apply Hxy | apply Hin'].
  - apply NoDup_cons. split; [rewrite list_elem_of_In; exact Hnp | exact I4].
  - intros p [<- | Hp]; [exact Hconn | apply I5, Hp].
  - intros x' y' [E | Hp].
    + inversion E; subst x' y'.
      destruct (pixelOffset_range w h x y (fdata s)) as [Hlo Hhi];
        [rewrite I1; exact Hlen | apply Hxy | apply Hxy |].
      apply readQuad_setPixel_same; assumption.
    + assert (Hne : (x, y) <> (x', y')) by congruence.
      pose proof (connected_inside _ (I5 _ Hp)) as [Hin' _].
      rewrite readQuad_setPixel_other; [apply I6, Hp |].
      apply pixelOffset_apart; [apply Hxy | apply Hin' | exact Hne].
  - intros x' y' Hin' Hnp'.
    assert (Hne : (x, y) <> (x', y')) by (intros E; apply Hnp'; left; exact E).
    rewrite readQuad_setPixel_other.
    + apply I7; [exact Hin' |]. intros Hp. apply Hnp'. right. exact Hp.
    + apply pixelOffset_apart; [apply Hxy | apply Hin' | exact Hne].
  - intros q Hq.
    assert (Hnew : adjacent4 (x, y) q \/ In q rest).
    { unfold adjacent4. cbn [fst snd]. cbn [In] in Hq. intuition auto. }
    destruct Hnew as [Hadj | Hr].
    + right. exists (x, y). split; [left; reflexivity | exact Hadj].
    + destruct (I8 q) as [E | (p & Hp & Hadj)].
      * rewrite Hst. right. exact Hr.
      * left. exact E.
      * right. exists p. split; [right; exact Hp | exact Hadj].
  - destruct I9 as [Hp | Hs]; [left; right; exact Hp |].
    rewrite Hst in Hs. destruct Hs as [E | Hs].
    + left. left. exact E.
    + right. do 4 right. exact Hs.
  - intros p q [E | Hp] Hadj Hinq Hmq.
    + subst p. right. unfold adjacent4 in Hadj. cbn [fst snd] in Hadj. cbn [In].
      intuition auto.
    + destruct (I10 p q Hp Hadj Hinq Hmq) as [Hq | Hq]; [left; right; exact Hq |].
      rewrite Hst in Hq. destruct Hq as [E | Hq].
      * left. left. exact E.
      * right. do 4 right. exact Hq.
Qed.

Lemma fillInv_step (s : FillState) (x y : Z) (rest : list (Z * Z)) :
  fillInv img fillColor target seed s ->
  stack s = (x, y) :: rest ->
  fillInv img fillColor target seed (floodStep w h fillColor (Some target) x y rest s).
Proof.
  intros Inv Hst. unfold floodStep.
  destruct (outOfBounds w h x y) eqn:Hob.
  { eapply fillInv_skip; eauto. }
  destruct (isVisited (visited s) (y * w + x)) eqn:Hv.
  { eapply fillInv_skip; eauto. }
  destruct (matchTarget w (Some target) (fdata s) x y) eqn:Hm; cbn [negb].
  - apply fillInv_paint; assumption.
  - eapply fillInv_skip; eauto.
Qed.

Lemma fillInv_loop (fuel : nat) (s s' : FillState) :
  fillInv img fillColor target seed s ->
  floodLoop fuel w h fillColor (Some target) s = Some s' ->
  fillInv img fillColor target seed s' /\ stack s' = [].
Proof.
  revert s. induction fuel as [| fuel IH]; intros s Inv Hrun.
  - cbn in Hrun. destruct (stack s) as [| [x y] rest] eqn:Hst; [| discriminate].
    inversion Hrun; subst. split; assumption.
  - cbn [floodLoop] in Hrun. destruct (stack s) as [| [x y] rest] eqn:Hst.
    + inversion Hrun; subst. split; assumption.
    + eapply IH; [| exact Hrun]. apply fillInv_step; assumption.
Qed.

(** When the stack is empty the painted points are the region of the seed. *)
Lemma fillInv_final (s : FillState) (p : Z * Z) :
  fillInv img fillColor target seed s -> stack s = [] ->
  (connected img target seed p <-> In p (painted s)).
Proof.
  intros Inv Hst. split; [| apply (inv_sound _ _ _ _ _ Inv)].
  intros Hc. induction Hc as [Hin Hm | p q Hc IH Hadj Hin Hm].
  - destruct (inv_seed _ _ _ _ _ Inv) as [Hp | Hs]; [exact Hp |].
    rewrite Hst in Hs. destruct Hs.
  - destruct (inv_closed _ _ _ _ _ Inv p q IH Hadj Hin Hm) as [Hq | Hq]; [exact Hq |].
    rewrite Hst in Hq. destruct Hq.
Qed.

End FillInvariant.

(** ** The flood fill *)

Section FloodFill.

Lemma quadOf_rgbaOfQuad (q : Quad) : quadOf (rgbaOfQuad q) = q.
Proof. destruct q as [[[c0 c1] c2] c3]. reflexivity. Qed.

Lemma paintCount_absent (p : Z * Z) (l : list (Z * Z)) :
  ~ In p l -> paintCount p l = 0%nat.
Proof.
  unfold paintCount. induction l as [| q l IH]; intros Hn; [reflexivity |].
  rewrite filter_cons_False by (intros ->; apply Hn; left; reflexivity).
  apply IH. intros Hp. apply Hn. right. exact Hp.
Qed.

Lemma paintCount_once (p : Z * Z) (l : list (Z * Z)) :
  NoDup l -> In p l -> paintCount p l = 1%nat.
Proof.
  induction l as [| q l IH]; intros Hnd Hin; [destruct Hin |].
  apply NoDup_cons in Hnd as [Hq Hnd]. rewrite list_elem_of_In in Hq.
  unfold paintCount. destruct (decide (q = p)) as [-> | Hne].
  - rewrite filter_cons_True by reflexivity. cbn [length]. f_equal.
    apply paintCount_absent. exact Hq.
  - rewrite filter_cons_False by exact Hne. apply IH; [exact Hnd |].
    destruct Hin as [E | Hin]; [congruence | exact Hin].
Qed.

Lemma paintCount_reverse (p : Z * Z) (l : list (Z * Z)) :
  paintCount p (reverse l) = paintCount p l.
Proof. unfold paintCount. rewrite filter_reverse. apply length_reverse. Qed.

(** The loop of [floodFill] runs to an empty stack within [fillFuel]. *)
Lemma floodLoop_runs (w h : Z) (fillColor : Rgba) (target : option Rgba)
    (d : list Z) (seed : Z * Z) :
  exists s, floodLoop (fillFuel w h) w h fillColor target
              (mkFillState d (replicate (Z.to_nat (w * h)) 0) [seed] []) = Some s.
Proof.
  apply floodLoop_total; cbn [visited stack].
  - apply length_replicate.
  - unfold fillMeasure, fillFuel. cbn [visited stack length].
    rewrite zeros_replicate. lia.
Qed.

(** The fill never stops for lack of fuel, whatever the image. *)
Lemma floodFillImage_total (color : string) (pixelPoint : Z * Z) (img : ImageData) :
  floodFillImage color pixelPoint img <> OutOfFuel.
Proof.
  unfold floodFillImage. destruct pixelPoint as [px py].
  destruct (colorsMatchRead _ _); [discriminate |].
  match goal with
  | |- context [floodLoop ?f ?w ?h ?c ?t (mkFillState ?d _ [?p] [])] =>
      destruct (floodLoop_runs w h c t d p) as [s ->]
  end.
  discriminate.
Qed.

(** What the fill does when the colour at the seed differs from the fill
    colour. *)
Lemma floodFillImage_region (color : string) (img : ImageData) (sx sy : Z) (tq : Quad) :
  wellFormed img -> inBounds img (sx, sy) ->
  getPixel img sx sy = Some tq ->
  colorsMatch tq (hexToRgba color) defaultTolerance = false ->
  exists s,
    floodFillImage color (sx, sy) img
    = Repainted (mkImageData (width img) (height img) (fdata s)) (reverse (painted s))
    /\ fillInv img (hexToRgba color) (rgbaOfQuad tq) (sx, sy) s
    /\ stack s = [].
Proof.
  intros Hwf Hin Hpx Hdiff.
  unfold floodFillImage. unfold getPixel, pixelOffset in Hpx. rewrite Hpx.
  cbn [colorsMatchRead option_map]. rewrite Hdiff.
  destruct (floodLoop_runs (width img) (height img) (hexToRgba color)
              (Some (rgbaOfQuad tq)) (data img) (sx, sy)) as [s Hs].
  rewrite Hs. exists s. split; [reflexivity |].
  assert (Htq : getPixel img (fst (sx, sy)) (snd (sx, sy)) = Some (quadOf (rgbaOfQuad tq))).
  { cbn [fst snd]. rewrite quadOf_rgbaOfQuad. exact Hpx. }
  apply (fillInv_loop img _ _ _ Hwf (hexToRgba_range color) Hin Htq _ _ s
           (fillInv_init img _ _ _ Hwf) Hs).
Qed.

End FloodFill.

(** The loop of [floodFill] on the image data it was given: the pixels of
    the 4-connected region of the seed are each written once, to the fill
    colour, and no other pixel is written. *)
Lemma floodFillImage_repaints (color : string) (img : ImageData) (sx sy : Z) (tq : Quad) :
  wellFormed img -> inBounds img (sx, sy) ->
  getPixel img sx sy = Some tq ->
  colorsMatch tq (hexToRgba color) defaultTolerance = false ->
  exists img' trace,
    floodFillImage color (sx, sy) img = Repainted img' trace
    /\ width img' = width img /\ height img' = height img
    /\ length (data img') = length (data img)
    /\ (forall p, connected img (rgbaOfQuad tq) (sx, sy) p ->
          getPixel img' (fst p) (snd p) = Some (quadOf (hexToRgba color))
          /\ paintCount p trace = 1%nat)
    /\ (forall p, ~ connected img (rgbaOfQuad tq) (sx, sy) p ->
          paintCount p trace = 0%nat
          /\ (inBounds img p -> getPixel img' (fst p) (snd p) = getPixel img (fst p) (snd p))).
Proof.
  intros Hwf Hin Hpx Hdiff.
  destruct (floodFillImage_region color img sx sy tq Hwf Hin Hpx Hdiff) as (s & Hrun & Inv & Hst).
  pose proof (fun p => fillInv_final img (hexToRgba color) (rgbaOfQuad tq) (sx, sy)
                         s p Inv Hst) as Hfinal.
  eexists _, _. split; [exact Hrun |]. cbn [width height data].
  split; [reflexivity |]. split; [reflexivity |].
  split; [apply (inv_len _ _ _ _ _ Inv) |]. split.
  - intros [x y] Hc. apply Hfinal in Hc as Hp. cbn [fst snd]. split.
    + unfold getPixel. cbn [width data]. apply (inv_painted _ _ _ _ _ Inv), Hp.
    + rewrite paintCount_reverse. apply paintCount_once; [apply (inv_nodup _ _ _ _ _ Inv) | exact Hp].
  - intros [x y] Hnc.
    assert (Hnp : ~ In (x, y) (painted s)) by (intros Hp; apply Hnc, Hfinal, Hp).
    split.
    + rewrite paintCount_reverse. apply paintCount_absent, Hnp.
    + intros Hinp. cbn [fst snd]. unfold getPixel at 1. cbn [width data].
      apply (inv_frame _ _ _ _ _ Inv); assumption.
Qed.

Lemma demo_wellFormed : wellFormed demo.
Proof. unfold wellFormed; cbn; lia. Qed.

Example floodFill_demo_left :
  floodFillImage "#00ff00" (0, 0) demo =
  Repainted
    (mkImageData 3 2
       [0; 255; 0; 255;   0; 0; 0; 255;   255; 255; 255; 255;
        0; 255; 0; 255;   0; 0; 0; 255;   250; 250; 250; 255])
    [(0, 0); (0, 1)].
Proof. vm_compute. reflexivity. Qed.

Example floodFill_demo_right :
  filledImage "#00ff00" (2, 0) demo =
  Some (mkImageData 3 2
       [255; 255; 255; 255;   0; 0; 0; 255;   0; 255; 0; 255;
        255; 255; 255; 255;   0; 0; 0; 255;   0; 255; 0; 255]).
Proof. vm_compute. reflexivity. Qed.



(** ** Undo history *)

Section HistoryFacts.

Implicit Types (h ss : list ImageData) (s : ImageData).

Lemma tail_is_drop h : tail h = drop 1 h.
Proof. destruct h; reflexivity. Qed.

Lemma pushHistory_full h s :
  (historyLimit <= length h)%nat -> pushHistory s h = tail h ++ [s].
Proof.
  intros H. unfold pushHistory.
  destruct (historyLimit <=? length h)%nat eqn:E; [reflexivity |].
  apply Nat.leb_gt in E. lia.
Qed.

Lemma pushHistory_room h s :
  (length h < historyLimit)%nat -> pushHistory s h = h ++ [s].
Proof.
  intros H. unfold pushHistory.
  destruct (historyLimit <=? length h)%nat eqn:E; [| reflexivity].
  apply Nat.leb_le in E. lia.
Qed.

Lemma pushHistory_length h s :
  (length h <= historyLimit)%nat -> (length (pushHistory s h) <= historyLimit)%nat.
Proof.
  intros H. destruct (Nat.lt_ge_cases (length h) historyLimit) as [Hlt | Hge].
  - rewrite pushHistory_room by exact Hlt. rewrite length_app. cbn [length]. lia.
  - rewrite pushHistory_full by exact Hge. rewrite length_app, tail_is_drop, length_drop.
    cbn [length]. unfold historyLimit in *. lia.
Qed.

Lemma popHistory_snoc h s : popHistory (h ++ [s]) = Some (s, h).
Proof.
  unfold popHistory. rewrite last_snoc, length_app. cbn [length].
  replace (length h + 1 - 1)%nat with (length h) by lia.
  rewrite take_app_length. reflexivity.
Qed.

Lemma popHistory_push h s :
  popHistory (pushHistory s h)
  = Some (s, if (historyLimit <=? length h)%nat then tail h else h).
Proof. unfold pushHistory. apply popHistory_snoc. Qed.

(** Pushing a sequence of snapshots on a history keeps the last
    [historyLimit] of the old entries and the new ones, in order. *)
Lemma pushHistory_fold h ss :
  (length h <= historyLimit)%nat ->
  fold_left (fun h' s => pushHistory s h') ss h
  = drop (length (h ++ ss) - historyLimit) (h ++ ss).
Proof.
  intros Hh. induction ss as [| s ss IH] using rev_ind.
  - rewrite app_nil_r. replace (length h - historyLimit)%nat with 0%nat by lia.
    reflexivity.
  - rewrite fold_left_app. cbn [fold_left]. rewrite IH, app_assoc.
    rewrite (length_app (h ++ ss) [s]). cbn [length].
    destruct (Nat.lt_ge_cases (length (h ++ ss)) historyLimit) as [Hlt | Hge].
    + replace (length (h ++ ss) - historyLimit)%nat with 0%nat by lia.
      replace (length (h ++ ss) + 1 - historyLimit)%nat with 0%nat by lia.
      rewrite !drop_0. apply pushHistory_room. exact Hlt.
    + rewrite pushHistory_full by (rewrite length_drop; unfold historyLimit in *; lia).
      rewrite tail_is_drop, drop_drop. unfold historyLimit in *.
      rewrite (drop_app_le (h ++ ss) [s]) by lia. f_equal. f_equal. lia.
Qed.

End HistoryFacts.

(** ** The bitmap of the canvas *)

Section BitmapFacts.

Lemma clearRectAll_dims (bmp : ImageData) :
  width (clearRectAll bmp) = width bmp /\ height (clearRectAll bmp) = height bmp.
Proof. split; reflexivity. Qed.

Lemma putImageData_dims (img bmp : ImageData) :
  width (putImageData img bmp) = width bmp /\ height (putImageData img bmp) = height bmp.
Proof. split; reflexivity. Qed.

(** Index arithmetic of a channel inside a [W] by [H] image. *)
Lemma channel_coordinates (W H n : Z) :
  0 <= n < 4 * (W * H) -> 0 <= W -> 0 <= H ->
  let p := n / 4 in
  0 <= p mod W < W /\ 0 <= p / W < H /\ (p / W * W + p mod W) * 4 + n mod 4 = n.
Proof.
  intros Hn HW HH p.
  assert (HWpos : 0 < W) by nia.
  assert (Hp : 0 <= p < W * H) by (unfold p; Z.div_mod_to_equations; nia).
  pose proof (Z.mod_pos_bound p W HWpos) as Hx.
  pose proof (Z.div_mod p W ltac:(lia)) as Hdm.
  pose proof (Z.div_mod n 4 ltac:(lia)) as Hn4.
  assert (Hy : 0 <= p / W) by (apply Z.div_pos; lia).
  split; [exact Hx |]. split; [split; [exact Hy | nia] |].
  fold p in Hn4. nia.
Qed.

(** Writing an image over a bitmap of the same dimensions replaces the
    whole bitmap. *)
Lemma putImageData_same (img bmp : ImageData) :
  wellFormed img ->
  width bmp = width img -> height bmp = height img ->
  length (data bmp) = length (data img) ->
  putImageData img bmp = img.
Proof.
  destruct img as [W H d], bmp as [W' H' d']. unfold wellFormed. cbn [width height data].
  intros (HW & HH & Hlen) -> -> Hl. unfold putImageData. cbn [width height data].
  f_equal. apply list_eq. intros i. rewrite list_lookup_imap.
  destruct (d' !! i) as [old |] eqn:E; cbn [fmap option_fmap option_map].
  - apply lookup_lt_Some in E.
    destruct (channel_coordinates W H (Z.of_nat i)) as (Hx & Hy & Hidx); [lia | lia | lia |].
    cbv zeta in Hx, Hy, Hidx.
    rewrite (proj2 (Z.ltb_lt _ _) (proj2 Hx)), (proj2 (Z.ltb_lt _ _) (proj2 Hy)).
    cbn [andb]. rewrite Hidx. unfold getAt.
    destruct (Z.of_nat i <? 0) eqn:Eneg; [lia |]. rewrite Nat2Z.id.
    destruct (lookup_lt_is_Some_2 d i) as [v Hv]; [lia |]. rewrite Hv. reflexivity.
  - apply lookup_ge_None in E. symmetry. apply lookup_ge_None. lia.
Qed.

Lemma clearRectAll_length (bmp : ImageData) :
  Z.of_nat (length (data (clearRectAll bmp))) = Z.max 0 (4 * (width bmp * height bmp)).
Proof. cbn [clearRectAll data]. rewrite length_replicate. lia. Qed.

(** [clearRect] then [putImageData] of a snapshot of the canvas size. *)
Lemma restore_same (snap bmp : ImageData) :
  wellFormed snap -> width bmp = width snap -> height bmp = height snap ->
  putImageData snap (clearRectAll bmp) = snap.
Proof.
  intros Hwf Hw Hh. apply putImageData_same; [exact Hwf | exact Hw | exact Hh |].
  destruct Hwf as (HW & HH & Hlen).
  apply Nat2Z.inj. rewrite clearRectAll_length, Hw, Hh, Hlen. nia.
Qed.

End BitmapFacts.

(** ** The size of the filled image *)

Section FillSize.

Lemma floodStep_length (w h : Z) (c : Rgba) (t : option Rgba) (x y : Z)
    (rest : list (Z * Z)) (s : FillState) :
  length (fdata (floodStep w h c t x y rest s)) = length (fdata s).
Proof.
  unfold floodStep.
  destruct (outOfBounds w h x y); [reflexivity |].
  destruct (isVisited _ _); [reflexivity |].
  destruct (negb _); [reflexivity |].
  cbn [fdata]. apply length_setPixel.
Qed.

Lemma floodLoop_length (fuel : nat) (w h : Z) (c : Rgba) (t : option Rgba)
    (s s' : FillState) :
  floodLoop fuel w h c t s = Some s' -> length (fdata s') = length (fdata s).
Proof.
  revert s. induction fuel as [| fuel IH]; intros s Hrun; cbn [floodLoop] in Hrun;
    destruct (stack s) as [| [x y] rest]; try discriminate;
    try (inversion Hrun; subst; reflexivity).
  apply IH in Hrun. rewrite Hrun. apply floodStep_length.
Qed.

Lemma filledImage_sameSize (color : string) (p : Z * Z) (img img' : ImageData) :
  filledImage color p img = Some img' -> sameSize img' img.
Proof.
  unfold filledImage, floodFillImage. destruct p as [px py].
  destruct (colorsMatchRead _ _).
  - intros E. inversion E; subst. repeat split.
  - destruct (floodLoop _ _ _ _ _ _) as [s |] eqn:Hrun; [| discriminate].
    intros E. inversion E; subst. apply floodLoop_length in Hrun.
    repeat split; cbn [width height data fdata] in *. exact Hrun.
Qed.

Lemma filledImage_total (color : string) (p : Z * Z) (img : ImageData) :
  exists img', filledImage color p img = Some img'.
Proof.
  unfold filledImage. pose proof (floodFillImage_total color p img) as Ht.
  destruct (floodFillImage color p img); [eauto | eauto | congruence].
Qed.

End FillSize.

(** ** Handlers and effects *)

Section EngineFacts.

Context {R : Canvas2D}.

Lemma renderShape_dims (t : DrawingTool) (tr : Transform) (lw : num) (st : string)
    (p q : Point) (bmp : ImageData) :
  width (renderShape t tr lw st p q bmp) = width bmp
  /\ height (renderShape t tr lw st p q bmp) = height bmp.
Proof.
  destruct t; cbn [renderShape]; try (split; reflexivity).
  - destruct (stroke_sameSize tr lw st SourceOver (linePath tr p q) bmp) as (? & ? & _). auto.
  - destruct (strokeRect_sameSize tr lw st SourceOver (fst p) (snd p)
                (num_sub (fst q) (fst p)) (num_sub (snd q) (snd p)) bmp) as (? & ? & _). auto.
  - destruct (stroke_sameSize tr lw st SourceOver (ellipsePath tr p q) bmp) as (? & ? & _). auto.
Qed.

(** [save], a change of transformation and of bitmap, then [restore]: only
    the bitmap has changed. *)
Lemma restore_after_save (bmp : ImageData) (t : Transform) (c : Canvas) :
  restore (setBitmap bmp (setTransform t (save c))) = setBitmap bmp c.
Proof. destruct c. reflexivity. Qed.

Lemma restore_save (t : Transform) (c : Canvas) :
  restore (setTransform t (save c)) = c.
Proof. destruct c. reflexivity. Qed.

Lemma restoreSnapshot_bitmap (snap : ImageData) (c : Canvas) :
  mounted c = true ->
  restoreSnapshot (Some snap) c = setBitmap (putImageData snap (clearRectAll (bitmap c))) c.
Proof.
  intros Hm. unfold restoreSnapshot. rewrite Hm.
  cbn [bitmap setTransform save]. apply restore_after_save.
Qed.

(** A captured snapshot: the history grows and nothing else changes. *)
Lemma pushSnapshotForUndo_captured (c : Canvas) :
  pushSnapshotForUndo true c
  = (setHistory (pushHistory (bitmap c) (history c)) c, Some (bitmap c)).
Proof.
  unfold pushSnapshotForUndo. cbn [getImageData bitmap history setTransform save].
  rewrite restore_save. reflexivity.
Qed.

(** A failed capture: the saved state stays on the stack and the
    transformation stays the identity. *)
Lemma pushSnapshotForUndo_failed (c : Canvas) :
  pushSnapshotForUndo false c = (setTransform identityTransform (save c), None).
Proof. reflexivity. Qed.

(** What [drawPreviewShape] does on a mounted canvas with a start point. *)
Lemma drawPreviewShape_shape (props : Props) (cur start : Point) (c : Canvas) :
  mounted c = true -> shapeStart c = Some start ->
  isShapeTool (tool props) = true ->
  let c' := drawPreviewShape props cur c in
  bitmap c' = renderShape (tool props) (transform c) (penWidth props c) (penStyle props c)
                start cur (bitmap (restoreSnapshot (shapeSnapshot c) c))
  /\ mounted c' = true /\ isDrawing c' = isDrawing c /\ history c' = history c
  /\ shapeStart c' = Some start /\ shapeSnapshot c' = shapeSnapshot c
  /\ transform c' = transform c
  /\ lineWidth c' = penWidth props c /\ strokeStyle c' = penStyle props c.
Proof.
  intros Hm Hs Ht. unfold drawPreviewShape, penWidth, penStyle.
  destruct c as [m bmp tr lw ss fs op sv pa dr hi st sn]. cbn in Hm, Hs. subst m st.
  cbn [negb mounted shapeStart shapeSnapshot].
  destruct sn as [snap |]; destruct (tool props); try discriminate;
    cbn -[putImageData clearRectAll]; repeat split; reflexivity.
Qed.

Lemma drawPreviewShape_history (props : Props) (cur : Point) (c : Canvas) :
  history (drawPreviewShape props cur c) = history c.
Proof.
  unfold drawPreviewShape.
  destruct c as [m bmp tr lw ss fs op sv pa dr hi st sn]. cbn [negb mounted shapeStart].
  destruct m; [| reflexivity]. destruct st as [start |]; [| reflexivity].
  destruct sn; destruct (tool props); reflexivity.
Qed.

Lemma floodFill_frame (props : Props) (ev : PointerEvent) (c : Canvas) :
  history (floodFill props ev c) = history c
  /\ isDrawing (floodFill props ev c) = isDrawing c
  /\ mounted (floodFill props ev c) = mounted c.
Proof.
  unfold floodFill. destruct c as [m bmp tr lw ss fs op sv pa dr hi st sn].
  cbn [negb mounted bitmap setTransform save]. destruct m; cbn [negb]; [| auto].
  destruct (getImageData _ _); [| auto].
  destruct (floodFillImage _ _ _); auto.
Qed.

(** The buffer after [floodFill] does not depend on the transformation,
    the stack of saved states or the history. *)
Lemma floodFill_bitmap_ext (props : Props) (ev ev' : PointerEvent) (c c' : Canvas) :
  mounted c' = mounted c -> bitmap c' = bitmap c ->
  pixel ev' = pixel ev -> fillReadable ev' = fillReadable ev ->
  bitmap (floodFill props ev' c') = bitmap (floodFill props ev c).
Proof.
  intros Hm Hb Hp Hf. unfold floodFill.
  destruct c as [m bmp tr lw ss fs op sv pa dr hi st sn].
  destruct c' as [m' bmp' tr' lw' ss' fs' op' sv' pa' dr' hi' st' sn'].
  cbn in Hm, Hb. subst m' bmp'. rewrite Hp, Hf.
  cbn [negb mounted bitmap setTransform save]. destruct m; cbn [negb]; [| reflexivity].
  destruct (getImageData _ _); [| reflexivity].
  destruct (floodFillImage _ _ _); reflexivity.
Qed.

(** On a readable canvas [floodFill] leaves the filled image as bitmap. *)
Lemma floodFill_bitmap (props : Props) (ev : PointerEvent) (c : Canvas) :
  mounted c = true -> wellFormed (bitmap c) -> fillReadable ev = true ->
  filledImage (color props) (pixel ev) (bitmap c) = Some (bitmap (floodFill props ev c)).
Proof.
  intros Hm Hwf Hr. unfold floodFill. rewrite Hm, Hr.
  cbn [negb getImageData bitmap setTransform save].
  destruct (filledImage_total (color props) (pixel ev) (bitmap c)) as [img' Himg].
  pose proof (filledImage_sameSize _ _ _ _ Himg) as (Hw & Hh & Hl).
  rewrite Himg. unfold filledImage in Himg.
  destruct (floodFillImage (color props) (pixel ev) (bitmap c)) as [| img2 tr |];
    inversion Himg; subst.
  - rewrite restore_save. reflexivity.
  - rewrite restore_after_save. cbn [bitmap setBitmap].
    rewrite putImageData_same; [reflexivity | | auto | auto | auto].
    destruct Hwf as (HW & HH & Hlen). unfold wellFormed. rewrite Hw, Hh, Hl. auto.
Qed.

Lemma handlePointerMove_history (props : Props) (ev : PointerEvent) (c : Canvas) :
  history (handlePointerMove props ev c) = history c.
Proof.
  unfold handlePointerMove.
  destruct (negb (isDrawing c)); [reflexivity |].
  destruct (negb (mounted c)); [reflexivity |].
  destruct (isShapeTool (tool props)); [apply drawPreviewShape_history |].
  destruct (tool props); reflexivity.
Qed.

Lemma stopDrawing_history (props : Props) (c : Canvas) :
  history (stopDrawing props c) = history c.
Proof.
  unfold stopDrawing. destruct (negb (mounted c)); [reflexivity |].
  destruct (isDrawing c); [destruct (tool props) |]; reflexivity.
Qed.

Lemma stopDrawing_bitmap (props : Props) (c : Canvas) :
  bitmap (stopDrawing props c) = bitmap c
  /\ (mounted c = true -> isDrawing (stopDrawing props c) = false).
Proof.
  unfold stopDrawing. destruct (mounted c); cbn [negb].
  - destruct (isDrawing c); [destruct (tool props) |]; split; reflexivity.
  - split; [reflexivity | discriminate].
Qed.

End EngineFacts.

(** C4.  Undo takes the most recent snapshot off the history and writes it
    into the cleared buffer: nothing of the previous contents remains, and
    a snapshot of the size of the buffer becomes the buffer.  With an empty
    history undo changes neither the buffer nor the history. *)
Theorem undo_pops_and_restores {R : Canvas2D} (signal : Z) (c : Canvas) :
  (history c = [] -> undoEffect signal c = c)
  /\ (signal <> 0 -> mounted c = true ->
      forall (h : list ImageData) (s : ImageData), history c = h ++ [s] ->
      let c' := undoEffect signal c in
      c' = setBitmap (putImageData s (clearRectAll (bitmap c))) (setHistory h c)
      /\ history c' = h
      /\ (forall other : ImageData,
            width other = width (bitmap c) -> height other = height (bitmap c) ->
            bitmap c' = putImageData s (clearRectAll other))
      /\ (wellFormed s -> width s = width (bitmap c) -> height s = height (bitmap c) ->
          bitmap c' = s)).
Proof.
  split.
  - intros Hh. unfold undoEffect. rewrite Hh.
    destruct (signal =? 0); [reflexivity |].
    destruct (negb (mounted c)); reflexivity.
  - intros Hs Hm h s Hh c'.
    assert (E : c' = setBitmap (putImageData s (clearRectAll (bitmap c))) (setHistory h c)).
    { subst c'. unfold undoEffect.
      apply Z.eqb_neq in Hs. rewrite Hs, Hm, Hh, popHistory_snoc. cbn [negb].
      cbn [bitmap setHistory setTransform save]. apply restore_after_save. }
    rewrite E. cbn [history bitmap setBitmap setHistory].
    split; [reflexivity |]. split; [reflexivity |]. split.
    + intros other Hw Hht. unfold clearRectAll. rewrite Hw, Hht. reflexivity.
    + intros Hwf Hw Hht. apply restore_same; [exact Hwf | symmetry; exact Hw | symmetry; exact Hht].
Qed.

Lemma undo_pops_and_restores_witness :
  let c := setHistory [whiteImage 4 1] (setBitmap (clearRectAll (whiteImage 4 1)) strip) in
  undoEffect 1 strip = strip
  /\ history (undoEffect 1 c) = []
  /\ bitmap (undoEffect 1 c) = whiteImage 4 1.
Proof.
  intros c. split; [| split].
  - apply (proj1 (undo_pops_and_restores 1 strip)). reflexivity.
  - apply (proj2 (undo_pops_and_restores 1 c) ltac:(lia) eq_refl [] (whiteImage 4 1) eq_refl).
  - apply (proj2 (undo_pops_and_restores 1 c) ltac:(lia) eq_refl [] (whiteImage 4 1) eq_refl).
    + unfold wellFormed, whiteImage; cbn [width height data].
      split; [lia | split; [lia | reflexivity]].
    + reflexivity.
    + reflexivity.
Defined.

(** C10.  The clear effect does not look at its signal: it runs after the
    first render, where the signal is 0, and after every change of the
    signal, fills the buffer with opaque white and empties the history.
    The undo effect returns at once for the signal 0 and pops a snapshot
    for a signal greater than 0. *)
Theorem clear_runs_at_mount_undo_skips_zero {R : Canvas2D} :
  (forall (props : Props) (scale : Transform) (bmp : ImageData) (h : list ImageData),
      clearSignal props = 0 -> undoSignal props = 0 ->
      let c' := runSignalEffects None props (setHistory h (freshCanvas scale bmp)) in
      bitmap c' = whiteImage (width bmp) (height bmp) /\ history c' = [])
  /\ (forall (prev next : Props) (c : Canvas),
      mounted c = true -> globalCompositeOperation c = SourceOver ->
      clearSignal next <> clearSignal prev -> undoSignal next = undoSignal prev ->
      let c' := runSignalEffects (Some prev) next c in
      bitmap c' = whiteImage (width (bitmap c)) (height (bitmap c)) /\ history c' = [])
  /\ (forall c : Canvas, undoEffect 0 c = c)
  /\ (forall (n : Z) (c : Canvas) (h : list ImageData) (s : ImageData),
      0 < n -> mounted c = true -> history c = h ++ [s] ->
      history (undoEffect n c) = h
      /\ bitmap (undoEffect n c) = putImageData s (clearRectAll (bitmap c))).
Proof.
  split; [| split; [| split]].
  - intros props scale bmp h Hc Hu c'. subst c'. unfold runSignalEffects, depChanged.
    rewrite Hu. cbn. split; reflexivity.
  - intros prev next c Hm Hop Hc Hu c'. subst c'. unfold runSignalEffects, depChanged.
    rewrite Hu, Z.eqb_refl. cbn [negb].
    destruct (clearSignal prev =? clearSignal next) eqn:E; [lia |]. cbn [negb].
    unfold clearEffect. rewrite Hm. destruct c. cbn in Hop. subst. cbn. split; reflexivity.
  - intros c. reflexivity.
  - intros n c h s Hn Hm Hh. unfold undoEffect.
    destruct (n =? 0) eqn:E; [lia |]. rewrite Hm, Hh, popHistory_snoc. cbn [negb].
    cbn [bitmap setHistory setTransform save]. rewrite restore_after_save.
    split; reflexivity.
Qed.

Lemma clear_runs_at_mount_undo_skips_zero_witness :
  bitmap (runSignalEffects None (sampleProps pencil "#000000")
            (setHistory [numbered 1] (@freshCanvas pointRaster 2 (clearRectAll (whiteImage 4 1)))))
  = whiteImage 4 1
  /\ bitmap (runSignalEffects (Some (sampleProps pencil "#000000"))
               (@mkProps pointRaster "#000000" 2 pencil 1 0)
               (setBitmap (clearRectAll (whiteImage 4 1)) strip))
     = whiteImage 4 1
  /\ history (undoEffect 3 (setHistory [numbered 1; numbered 2] strip)) = [numbered 1].
Proof.
  destruct (@clear_runs_at_mount_undo_skips_zero pointRaster) as (H1 & H2 & _ & H4).
  split; [| split].
  - apply (H1 (sampleProps pencil "#000000") 2 (clearRectAll (whiteImage 4 1)) [numbered 1]);
      reflexivity.
  - apply (H2 (sampleProps pencil "#000000") (@mkProps pointRaster "#000000" 2 pencil 1 0)
             (setBitmap (clearRectAll (whiteImage 4 1)) strip));
      [reflexivity | reflexivity | cbn; lia | reflexivity].
  - apply (H4 3 (setHistory [numbered 1; numbered 2] strip) [numbered 1] (numbered 2));
      [lia | reflexivity | reflexivity].
Defined.

(** ** Gestures *)

Section GestureFacts.

Context {R : Canvas2D}.

Lemma floodFillImage_unchanged (color : string) (p : Z * Z) (img : ImageData) (tq : Quad) :
  getPixel img (fst p) (snd p) = Some tq ->
  colorsMatch tq (hexToRgba color) defaultTolerance = true ->
  floodFillImage color p img = Unchanged.
Proof.
  destruct p as [px py]. cbn [fst snd]. intros Hpx Hm.
  unfold floodFillImage. unfold getPixel, pixelOffset in Hpx. rewrite Hpx.
  cbn [colorsMatchRead]. rewrite Hm. reflexivity.
Qed.

(** Pointer down with a shape tool. *)
Lemma handlePointerDown_shape (props : Props) (ev : PointerEvent) (c : Canvas) :
  mounted c = true -> isShapeTool (tool props) = true ->
  let c' := handlePointerDown props ev c in
  let snapshot := getImageData (snapshotReadable ev) (bitmap c) in
  let tr := transformAfterCapture (snapshotReadable ev) c in
  bitmap c' = renderShape (tool props) tr (penWidth props c) (penStyle props c)
                (point ev) (point ev)
                (match snapshot with
                 | Some s => putImageData s (clearRectAll (bitmap c))
                 | None => bitmap c
                 end)
  /\ mounted c' = true /\ isDrawing c' = true
  /\ shapeStart c' = Some (point ev) /\ shapeSnapshot c' = snapshot
  /\ transform c' = tr
  /\ lineWidth c' = penWidth props c /\ strokeStyle c' = penStyle props c
  /\ history c' = match snapshot with
                  | Some s => pushHistory s (history c)
                  | None => history c
                  end.
Proof.
  intros Hm Ht.
  unfold handlePointerDown, drawPreviewShape, pushSnapshotForUndo, penWidth, penStyle,
    transformAfterCapture.
  destruct c as [m bmp tr lw ss fs op sv pa dr hi st sn]. cbn in Hm. subst m.
  cbn [negb mounted bitmap history lineWidth strokeStyle transform setTransform save].
  destruct (snapshotReadable ev); cbn [getImageData];
    destruct (tool props); try discriminate;
    cbn -[putImageData clearRectAll pushHistory];
    destruct (validLineWidth (brushSize props)), (validStyle (color props));
    repeat split; reflexivity.
Qed.

(** Pointer down with the pencil or the eraser. *)
Lemma handlePointerDown_stroke (props : Props) (ev : PointerEvent) (c : Canvas) :
  mounted c = true -> tool props = pencil \/ tool props = eraser ->
  let c' := handlePointerDown props ev c in
  let tr := transformAfterCapture (snapshotReadable ev) c in
  bitmap c' = stroke tr (penWidth props c) (penStyle props c)
                (match tool props with eraser => DestinationOut | _ => SourceOver end)
                (dotPath tr (point ev)) (bitmap c)
  /\ isDrawing c' = true /\ transform c' = tr.
Proof.
  intros Hm Ht.
  unfold handlePointerDown, pushSnapshotForUndo, penWidth, penStyle, transformAfterCapture.
  destruct c as [m bmp tr lw ss fs op sv pa dr hi st sn]. cbn in Hm. subst m.
  cbn [negb mounted bitmap history lineWidth strokeStyle transform setTransform save].
  destruct (snapshotReadable ev); cbn [getImageData];
    destruct Ht as [-> | ->]; cbn -[pushHistory]; repeat split; reflexivity.
Qed.

Lemma handlePointerDown_fill (props : Props) (ev : PointerEvent) (c : Canvas) :
  mounted c = true -> tool props = fill ->
  handlePointerDown props ev c
  = floodFill props ev (fst (pushSnapshotForUndo (snapshotReadable ev) c)).
Proof.
  intros Hm Ht. unfold handlePointerDown. rewrite Hm, Ht. cbn [negb].
  destruct (pushSnapshotForUndo (snapshotReadable ev) c). reflexivity.
Qed.

Lemma pushSnapshotForUndo_frame (readable : bool) (c : Canvas) :
  let c1 := fst (pushSnapshotForUndo readable c) in
  mounted c1 = mounted c /\ bitmap c1 = bitmap c /\ isDrawing c1 = isDrawing c
  /\ history c1 = match getImageData readable (bitmap c) with
                  | Some s => pushHistory s (history c)
                  | None => history c
                  end.
Proof.
  destruct readable.
  - rewrite pushSnapshotForUndo_captured. cbn. auto.
  - rewrite pushSnapshotForUndo_failed. cbn. auto.
Qed.

Lemma handlePointerDown_history (props : Props) (ev : PointerEvent) (c : Canvas) :
  mounted c = true ->
  history (handlePointerDown props ev c)
  = match getImageData (snapshotReadable ev) (bitmap c) with
    | Some s => pushHistory s (history c)
    | None => history c
    end.
Proof.
  intros Hm. destruct (tool props) eqn:Ht.
  1, 2: unfold handlePointerDown; rewrite Hm, Ht; cbn [negb];
        destruct (pushSnapshotForUndo_frame (snapshotReadable ev) c) as (_ & _ & _ & Hh);
        destruct (pushSnapshotForUndo (snapshotReadable ev) c) as [c1 sn];
        cbn [fst] in Hh; rewrite <- Hh; reflexivity.
  1, 2, 3: apply handlePointerDown_shape; [exact Hm | rewrite Ht; reflexivity].
  rewrite handlePointerDown_fill by assumption.
  destruct (floodFill_frame props ev (fst (pushSnapshotForUndo (snapshotReadable ev) c)))
    as (-> & _). apply pushSnapshotForUndo_frame.
Qed.

Lemma penWidth_stable (props : Props) (c0 c : Canvas) :
  lineWidth c = penWidth props c0 -> penWidth props c = penWidth props c0.
Proof. unfold penWidth. intros ->. destruct (validLineWidth _); reflexivity. Qed.

Lemma penStyle_stable (props : Props) (c0 c : Canvas) :
  strokeStyle c = penStyle props c0 -> penStyle props c = penStyle props c0.
Proof. unfold penStyle. intros ->. destruct (validStyle _); reflexivity. Qed.

Lemma previewing_down (props : Props) (down : PointerEvent) (c0 : Canvas) :
  mounted c0 = true -> wellFormed (bitmap c0) ->
  isShapeTool (tool props) = true -> snapshotReadable down = true ->
  previewing props c0 (point down) (point down) (handlePointerDown props down c0).
Proof.
  intros Hm Hwf Ht Hr.
  destruct (handlePointerDown_shape props down c0 Hm Ht)
    as (Hb & Hm' & Hd & Hs & Hsn & Htr & Hlw & Hss & Hh).
  unfold transformAfterCapture in *. rewrite Hr in *. cbn [getImageData] in *.
  rewrite restore_same in Hb by (auto using eq_refl).
  unfold previewing. auto 10.
Qed.

(** A preview frame: the snapshot comes back, then the shape is drawn. *)
Lemma previewing_frame (props : Props) (cur' : Point) (c0 : Canvas) (start cur : Point)
    (c : Canvas) :
  wellFormed (bitmap c0) -> isShapeTool (tool props) = true ->
  previewing props c0 start cur c ->
  previewing props c0 start cur' (drawPreviewShape props cur' c).
Proof.
  intros Hwf Ht (Hm & Hd & Hs & Hsn & Hh & Htr & Hlw & Hss & Hb).
  destruct (drawPreviewShape_shape props cur' start c Hm Hs Ht)
    as (Hb' & Hm' & Hd' & Hh' & Hs' & Hsn' & Htr' & Hlw' & Hss').
  rewrite (penWidth_stable _ _ _ Hlw), (penStyle_stable _ _ _ Hss) in *.
  rewrite Hsn, (restoreSnapshot_bitmap _ _ Hm) in Hb'.
  cbn [bitmap setBitmap] in Hb'.
  destruct (renderShape_dims (tool props) (transform c0) (penWidth props c0)
              (penStyle props c0) start cur (bitmap c0)) as [Hw Hht].
  rewrite restore_same in Hb' by (rewrite ?Hb; auto).
  unfold previewing. rewrite Hd', Hh', Hsn', Htr', <- Htr. auto 10.
Qed.

Lemma previewing_move (props : Props) (ev : PointerEvent) (c0 : Canvas) (start cur : Point)
    (c : Canvas) :
  wellFormed (bitmap c0) -> isShapeTool (tool props) = true ->
  previewing props c0 start cur c ->
  previewing props c0 start (point ev) (handlePointerMove props ev c).
Proof.
  intros Hwf Ht Hp. pose proof Hp as (Hm & Hd & _).
  unfold handlePointerMove. rewrite Hd, Hm, Ht. cbn [negb].
  eapply previewing_frame; eassumption.
Qed.

Lemma last_cons_default (ev d : PointerEvent) (moves : list PointerEvent) :
  List.last (ev :: moves) d = List.last moves ev.
Proof.
  revert ev d. induction moves as [| ev' moves IH]; intros ev d; [reflexivity |].
  change (List.last (ev :: ev' :: moves) d) with (List.last (ev' :: moves) d).
  rewrite (IH ev' d), (IH ev' ev). reflexivity.
Qed.

Lemma previewing_moves (props : Props) (moves : list PointerEvent) (c0 : Canvas)
    (start : Point) (ev0 : PointerEvent) (c : Canvas) :
  wellFormed (bitmap c0) -> isShapeTool (tool props) = true ->
  previewing props c0 start (point ev0) c ->
  previewing props c0 start (point (List.last moves ev0))
    (fold_left (fun c' ev => handlePointerMove props ev c') moves c).
Proof.
  intros Hwf Ht. revert ev0 c. induction moves as [| ev moves IH]; intros ev0 c Hp.
  - exact Hp.
  - rewrite last_cons_default. cbn [fold_left]. apply IH.
    eapply previewing_move; eassumption.
Qed.

End GestureFacts.

(** C3, as amended.  For a gesture with the line, rectangle or ellipse tool
    whose snapshot was captured at pointer down, every preview frame first
    brings back the bitmap of the start of the gesture and then draws the
    shape from the start point to the current point; after any number of
    moves and the pointer up, the buffer is the bitmap of the start of the
    gesture with the one shape from the start point to the release point,
    and the gesture has pushed that bitmap once on the history. *)
Theorem shape_gesture_leaves_final_shape {R : Canvas2D}
    (props : Props) (down : PointerEvent) (moves : list PointerEvent) (up : PointerEvent)
    (c : Canvas) :
  mounted c = true -> wellFormed (bitmap c) ->
  isShapeTool (tool props) = true -> snapshotReadable down = true ->
  (forall frames : list PointerEvent,
      let c' := previewAfter props down frames c in
      bitmap (restoreSnapshot (shapeSnapshot c') c') = bitmap c
      /\ bitmap c' = renderShape (tool props) (transform c) (penWidth props c)
                       (penStyle props c) (point down) (lastPoint down frames) (bitmap c))
  /\ bitmap (gesture props down moves up c)
     = renderShape (tool props) (transform c) (penWidth props c) (penStyle props c)
         (point down) (point up) (bitmap c)
  /\ history (gesture props down moves up c) = pushHistory (bitmap c) (history c)
  /\ isDrawing (gesture props down moves up c) = false.
Proof.
  intros Hm Hwf Ht Hr.
  assert (Hframes : forall frames,
             previewing props c (point down) (lastPoint down frames)
               (previewAfter props down frames c)).
  { intros frames. unfold previewAfter, lastPoint.
    apply previewing_moves; [exact Hwf | exact Ht |].
    apply previewing_down; assumption. }
  split.
  - intros frames c'. subst c'.
    destruct (Hframes frames) as (Hm' & _ & _ & Hsn & _ & _ & _ & _ & Hb).
    split; [| exact Hb].
    rewrite Hsn, (restoreSnapshot_bitmap _ _ Hm'). cbn [bitmap setBitmap].
    destruct (renderShape_dims (tool props) (transform c) (penWidth props c)
                (penStyle props c) (point down) (lastPoint down frames) (bitmap c))
      as [Hw Hht].
    apply restore_same; [exact Hwf | rewrite Hb; exact Hw | rewrite Hb; exact Hht].
  - pose proof (previewing_frame props (point up) c _ _ _ Hwf Ht (Hframes moves))
      as (Hm' & _ & _ & _ & Hh & _ & _ & _ & Hb).
    unfold gesture, handlePointerUp. rewrite Ht. fold (previewAfter props down moves c).
    destruct (stopDrawing_bitmap props
                (drawPreviewShape props (point up) (previewAfter props down moves c)))
      as [Hsb Hsd].
    rewrite Hsb, stopDrawing_history. auto.
Qed.

Lemma shape_gesture_leaves_final_shape_witness :
  bitmap (gesture (sampleProps line "#000000") (eventAt 0 true) [eventAt 1 true; eventAt 2 true]
            (eventAt 3 true) strip)
  = renderShape line (transform strip) (penWidth (sampleProps line "#000000") strip)
      (penStyle (sampleProps line "#000000") strip)
      (point (eventAt 0 true)) (point (eventAt 3 true)) (bitmap strip).
Proof.
  apply (shape_gesture_leaves_final_shape (sampleProps line "#000000") (eventAt 0 true)
           [eventAt 1 true; eventAt 2 true] (eventAt 3 true) strip).
  - reflexivity.
  - unfold wellFormed, strip, whiteImage. cbn [bitmap freshCanvas width height data].
    split; [lia | split; [lia | reflexivity]].
  - reflexivity.
  - reflexivity.
Defined.

(** C3 as stated fails when the snapshot could not be captured at pointer
    down: no frame restores anything, and the shape of the intermediate
    frame stays in the buffer.  The drag goes out to pixel 3 and comes back
    to pixel 1: the far end of the intermediate line lies beyond the final
    line and stays inked. *)
Lemma shape_gesture_residue_counterexample :
  mounted strip = true
  /\ isShapeTool (tool (sampleProps line "#000000")) = true
  /\ bitmap (gesture (sampleProps line "#000000") (eventAt 0 false) [eventAt 3 false]
               (eventAt 1 false) strip)
     <> renderShape line (transform strip) (penWidth (sampleProps line "#000000") strip)
          (penStyle (sampleProps line "#000000") strip)
          (point (eventAt 0 false)) (point (eventAt 1 false)) (bitmap strip).
Proof.
  split; [reflexivity |]. split; [reflexivity |].
  intros E. apply (f_equal data) in E. vm_compute in E. discriminate E.
Qed.

Example residue_after_failed_capture :
  data (bitmap (gesture (sampleProps line "#000000") (eventAt 0 false) [eventAt 3 false]
                  (eventAt 1 false) strip))
  = [0; 0; 0; 255;   0; 0; 0; 255;   255; 255; 255; 255;   0; 0; 0; 255]
  /\ data (bitmap (gesture (sampleProps line "#000000") (eventAt 0 true) [eventAt 3 true]
                     (eventAt 1 true) strip))
     = [0; 0; 0; 255;   0; 0; 0; 255;   255; 255; 255; 255;   255; 255; 255; 255].
Proof. split; vm_compute; reflexivity. Qed.

(** On a canvas at scale 2 the dot of the pencil lands on another pixel
    when the capture has failed: it is stroked, under the identity. *)
Example dot_after_failed_capture :
  data (bitmap (handlePointerDown (sampleProps pencil "#000000") (eventAt 1 false) strip2))
  = [255; 255; 255; 255;   0; 0; 0; 255;   255; 255; 255; 255;   255; 255; 255; 255]
  /\ data (bitmap (handlePointerDown (sampleProps pencil "#000000") (eventAt 1 true) strip2))
     = [255; 255; 255; 255;   255; 255; 255; 255;   0; 0; 0; 255;   255; 255; 255; 255].
Proof. split; vm_compute; reflexivity. Qed.

(** C9.  A pointer down on a canvas whose snapshot can be captured pushes
    exactly one snapshot, the bitmap as it is before the tool runs, whatever
    the tool.  This also holds for the fill tool when the seed already
    matches the fill colour: the buffer keeps its contents and the history
    has one more entry (unless it was full, where the oldest entry makes
    room). *)
Theorem pointer_down_pushes_one_snapshot {R : Canvas2D}
    (props : Props) (ev : PointerEvent) (c : Canvas) :
  mounted c = true -> snapshotReadable ev = true ->
  history (handlePointerDown props ev c) = pushHistory (bitmap c) (history c)
  /\ ((length (history c) < 25)%nat ->
      history (handlePointerDown props ev c) = history c ++ [bitmap c]
      /\ length (history (handlePointerDown props ev c)) = S (length (history c)))
  /\ (tool props = fill ->
      forall tq : Quad,
        getPixel (bitmap c) (fst (pixel ev)) (snd (pixel ev)) = Some tq ->
        colorsMatch tq (hexToRgba (color props)) defaultTolerance = true ->
        bitmap (handlePointerDown props ev c) = bitmap c).
Proof.
  intros Hm Hr.
  assert (Hh : history (handlePointerDown props ev c) = pushHistory (bitmap c) (history c)).
  { rewrite handlePointerDown_history by exact Hm. rewrite Hr. reflexivity. }
  split; [exact Hh |]. split.
  - intros Hlt. rewrite Hh, pushHistory_room by exact Hlt.
    split; [reflexivity |]. rewrite length_app. cbn [length]. lia.
  - intros Ht tq Hpx Hmatch. rewrite handlePointerDown_fill by assumption.
    rewrite Hr, pushSnapshotForUndo_captured. cbn [fst].
    unfold floodFill. cbn [mounted setHistory bitmap setTransform save]. rewrite Hm.
    cbn [negb].
    destruct (getImageData (fillReadable ev) (bitmap c)) as [img |] eqn:Hg; [| reflexivity].
    unfold getImageData in Hg. destruct (fillReadable ev); [| discriminate].
    inversion Hg; subst img.
    rewrite (floodFillImage_unchanged _ _ _ tq Hpx Hmatch). rewrite restore_save.
    reflexivity.
Qed.

Lemma pointer_down_pushes_one_snapshot_witness :
  history (handlePointerDown (sampleProps fill "#fafafa") (eventAt 0 true) strip)
  = [whiteImage 4 1]
  /\ bitmap (handlePointerDown (sampleProps fill "#fafafa") (eventAt 0 true) strip)
     = whiteImage 4 1
  /\ history (handlePointerDown (sampleProps pencil "#000000") (eventAt 0 true) strip)
     = [whiteImage 4 1].
Proof.
  split; [| split].
  - apply (pointer_down_pushes_one_snapshot (sampleProps fill "#fafafa") (eventAt 0 true) strip
             eq_refl eq_refl). cbn. lia.
  - apply (proj2 (proj2 (pointer_down_pushes_one_snapshot (sampleProps fill "#fafafa")
                           (eventAt 0 true) strip eq_refl eq_refl))
             eq_refl (255, 255, 255, 255)); reflexivity.
  - apply (pointer_down_pushes_one_snapshot (sampleProps pencil "#000000") (eventAt 0 true) strip
             eq_refl eq_refl). cbn. lia.
Defined.

(** * Further properties of the component *)

(** ** The size of the buffer *)

Section SizeFacts.

Context {R : Canvas2D}.

Lemma sameSize_refl (i : ImageData) : sameSize i i.
Proof. repeat split. Qed.

Lemma sameSize_trans (i1 i2 i3 : ImageData) :
  sameSize i1 i2 -> sameSize i2 i3 -> sameSize i1 i3.
Proof. intros (? & ? & ?) (? & ? & ?). repeat split; congruence. Qed.

Lemma sameSize_wellFormed (i1 i2 : ImageData) :
  sameSize i1 i2 -> wellFormed i2 -> wellFormed i1.
Proof. intros (Hw & Hh & Hl) (? & ? & ?). unfold wellFormed. rewrite Hw, Hh, Hl. auto. Qed.

Lemma putImageData_sameSize (img bmp : ImageData) : sameSize (putImageData img bmp) bmp.
Proof. repeat split. cbn [putImageData data]. apply length_imap. Qed.

Lemma clearRectAll_sameSize (bmp : ImageData) :
  wellFormed bmp -> sameSize (clearRectAll bmp) bmp.
Proof.
  intros (Hw & Hh & Hl). repeat split. cbn [clearRectAll data].
  rewrite length_replicate. apply Nat2Z.inj. rewrite Hl. nia.
Qed.

Lemma fillRectWhiteAll_sameSize (op : CompositeOperation) (bmp : ImageData) :
  wellFormed bmp -> sameSize (fillRectWhiteAll op bmp) bmp.
Proof.
  intros (Hw & Hh & Hl). repeat split. cbn [fillRectWhiteAll data].
  rewrite length_replicate. apply Nat2Z.inj. rewrite Hl. nia.
Qed.

Lemma blankImage_wellFormed (w h : Z) : 0 <= w -> 0 <= h -> wellFormed (blankImage w h).
Proof.
  intros Hw Hh. unfold wellFormed, blankImage. cbn [width height data].
  rewrite length_replicate. repeat split; try assumption. nia.
Qed.

Lemma restored_sameSize (snap bmp : ImageData) :
  wellFormed bmp -> sameSize (putImageData snap (clearRectAll bmp)) bmp.
Proof.
  intros Hwf. eapply sameSize_trans; [apply putImageData_sameSize |].
  apply clearRectAll_sameSize, Hwf.
Qed.

Lemma renderShape_sameSize (t : DrawingTool) (tr : Transform) (lw : num) (st : string)
    (p q : Point) (bmp : ImageData) :
  sameSize (renderShape t tr lw st p q bmp) bmp.
Proof.
  destruct t; cbn [renderShape];
    first [apply stroke_sameSize | apply strokeRect_sameSize | apply sameSize_refl].
Qed.

Lemma restoreSnapshot_sameSize (sn : option ImageData) (c : Canvas) :
  wellFormed (bitmap c) -> sameSize (bitmap (restoreSnapshot sn c)) (bitmap c).
Proof.
  intros Hwf. destruct sn as [snap |]; [| apply sameSize_refl].
  destruct (mounted c) eqn:Hm.
  - rewrite restoreSnapshot_bitmap by exact Hm. cbn [bitmap setBitmap].
    apply restored_sameSize, Hwf.
  - unfold restoreSnapshot. rewrite Hm. apply sameSize_refl.
Qed.

Lemma drawPreviewShape_sameSize (props : Props) (cur : Point) (c : Canvas) :
  wellFormed (bitmap c) -> sameSize (bitmap (drawPreviewShape props cur c)) (bitmap c).
Proof.
  intros Hwf. pose proof (restoreSnapshot_sameSize (shapeSnapshot c) c Hwf) as Hr.
  unfold drawPreviewShape.
  destruct (mounted c); cbn [negb]; [| apply sameSize_refl].
  destruct (shapeStart c) as [start |]; [| apply sameSize_refl].
  destruct (tool props); cbn [bitmap setBitmap setPath setComposite setFillStyle
                                setStrokeStyle setLineWidth strokeCurrent];
    try exact Hr;
    (eapply sameSize_trans; [| exact Hr]);
    first [apply stroke_sameSize | apply strokeRect_sameSize].
Qed.

Lemma floodFill_sameSize (props : Props) (ev : PointerEvent) (c : Canvas) :
  sameSize (bitmap (floodFill props ev c)) (bitmap c).
Proof.
  unfold floodFill. destruct (negb (mounted c)); [apply sameSize_refl |].
  cbn [bitmap setTransform save].
  destruct (getImageData _ _); [| apply sameSize_refl].
  destruct (floodFillImage _ _ _).
  - rewrite restore_save. apply sameSize_refl.
  - rewrite restore_after_save. cbn [bitmap setBitmap]. apply putImageData_sameSize.
  - apply sameSize_refl.
Qed.

Lemma pushSnapshotForUndo_bitmap (readable : bool) (c : Canvas) :
  bitmap (fst (pushSnapshotForUndo readable c)) = bitmap c.
Proof. apply pushSnapshotForUndo_frame. Qed.

Lemma handlePointerDown_sameSize (props : Props) (ev : PointerEvent) (c : Canvas) :
  wellFormed (bitmap c) -> sameSize (bitmap (handlePointerDown props ev c)) (bitmap c).
Proof.
  intros Hwf. unfold handlePointerDown.
  destruct (negb (mounted c)); [apply sameSize_refl |].
  pose proof (pushSnapshotForUndo_bitmap (snapshotReadable ev) c) as Hb.
  destruct (pushSnapshotForUndo (snapshotReadable ev) c) as [c1 sn]. cbn [fst] in Hb.
  destruct (tool props).
  1, 2: cbn [bitmap setBitmap strokeCurrent setPath setComposite setStrokeStyle
               setLineWidth setIsDrawing]; rewrite <- Hb; apply stroke_sameSize.
  1, 2, 3:
    (eapply sameSize_trans;
       [apply drawPreviewShape_sameSize;
        cbn [bitmap setShape setComposite setStrokeStyle setLineWidth setIsDrawing];
        rewrite Hb; exact Hwf
       | cbn [bitmap setShape setComposite setStrokeStyle setLineWidth setIsDrawing];
         rewrite Hb; apply sameSize_refl]).
  rewrite <- Hb. apply floodFill_sameSize.
Qed.

Lemma handlePointerMove_sameSize (props : Props) (ev : PointerEvent) (c : Canvas) :
  wellFormed (bitmap c) -> sameSize (bitmap (handlePointerMove props ev c)) (bitmap c).
Proof.
  intros Hwf. unfold handlePointerMove.
  destruct (negb (isDrawing c)); [apply sameSize_refl |].
  destruct (negb (mounted c)); [apply sameSize_refl |].
  destruct (isShapeTool (tool props)); [apply drawPreviewShape_sameSize, Hwf |].
  destruct (tool props);
    cbn [bitmap setBitmap strokeCurrent setPath setStrokeStyle setLineWidth];
    apply stroke_sameSize.
Qed.

Lemma handlePointerUp_sameSize (props : Props) (ev : PointerEvent) (c : Canvas) :
  wellFormed (bitmap c) -> sameSize (bitmap (handlePointerUp props ev c)) (bitmap c).
Proof.
  intros Hwf. unfold handlePointerUp.
  rewrite (proj1 (stopDrawing_bitmap props _)).
  destruct (isShapeTool (tool props)); [apply drawPreviewShape_sameSize, Hwf |].
  apply sameSize_refl.
Qed.

Lemma clearEffect_bitmap (c : Canvas) :
  mounted c = true ->
  clearEffect c
  = setHistory [] (setBitmap (fillRectWhiteAll (globalCompositeOperation c)
                                (clearRectAll (bitmap c))) c).
Proof.
  intros Hm. unfold clearEffect. rewrite Hm. destruct c. reflexivity.
Qed.

Lemma clearEffect_sameSize (c : Canvas) :
  wellFormed (bitmap c) -> sameSize (bitmap (clearEffect c)) (bitmap c).
Proof.
  intros Hwf. destruct (mounted c) eqn:Hm.
  - rewrite clearEffect_bitmap by exact Hm. cbn [bitmap setBitmap setHistory].
    eapply sameSize_trans; [| apply clearRectAll_sameSize, Hwf].
    apply fillRectWhiteAll_sameSize.
    eapply sameSize_wellFormed; [apply clearRectAll_sameSize, Hwf | exact Hwf].
  - unfold clearEffect. rewrite Hm. apply sameSize_refl.
Qed.

Lemma undoEffect_popped (signal : Z) (c : Canvas) (previous : ImageData)
    (rest : list ImageData) :
  signal <> 0 -> mounted c = true -> popHistory (history c) = Some (previous, rest) ->
  undoEffect signal c
  = setBitmap (putImageData previous (clearRectAll (bitmap c))) (setHistory rest c).
Proof.
  intros Hs Hm Hp. unfold undoEffect. apply Z.eqb_neq in Hs. rewrite Hs, Hm, Hp.
  cbn [negb bitmap setHistory setTransform save]. apply restore_after_save.
Qed.

Lemma undoEffect_sameSize (signal : Z) (c : Canvas) :
  wellFormed (bitmap c) -> sameSize (bitmap (undoEffect signal c)) (bitmap c).
Proof.
  intros Hwf. destruct (Z.eq_dec signal 0) as [-> | Hs]; [apply sameSize_refl |].
  destruct (mounted c) eqn:Hm.
  - destruct (popHistory (history c)) as [[previous rest] |] eqn:Hp.
    + rewrite (undoEffect_popped _ _ _ _ Hs Hm Hp). cbn [bitmap setBitmap setHistory].
      apply restored_sameSize, Hwf.
    + unfold undoEffect. apply Z.eqb_neq in Hs. rewrite Hs, Hm, Hp. apply sameSize_refl.
  - unfold undoEffect. rewrite Hm. destruct (signal =? 0); apply sameSize_refl.
Qed.

Lemma runSignalEffects_sameSize (prev : option Props) (next : Props) (c : Canvas) :
  wellFormed (bitmap c) -> sameSize (bitmap (runSignalEffects prev next c)) (bitmap c).
Proof.
  intros Hwf. unfold runSignalEffects.
  assert (H1 : sameSize (bitmap (if depChanged prev next clearSignal then clearEffect c else c))
                 (bitmap c)).
  { destruct (depChanged prev next clearSignal);
      [apply clearEffect_sameSize, Hwf | apply sameSize_refl]. }
  destruct (depChanged prev next undoSignal); [| exact H1].
  eapply sameSize_trans; [| exact H1]. apply undoEffect_sameSize.
  eapply sameSize_wellFormed; [exact H1 | exact Hwf].
Qed.

Lemma resizeToContainer_mounted (w h : Z) (scale : Transform) (readable : bool) (c : Canvas) :
  mounted c = true ->
  resizeToContainer w h scale readable c
  = mkCanvas true
      (match (if (0 <? width (bitmap c)) && (0 <? height (bitmap c))
              then getImageData readable (bitmap c) else None) with
       | Some img => putImageData img (blankImage w h)
       | None => fillRectWhiteAll SourceOver (blankImage w h)
       end)
      scale defaultLineWidth "#000000" "#000000" SourceOver [] emptyPath
      (isDrawing c) (history c) (shapeStart c) (shapeSnapshot c).
Proof.
  intros Hm. unfold resizeToContainer. rewrite Hm. cbn [negb].
  destruct (if (0 <? width (bitmap c)) && (0 <? height (bitmap c))
            then getImageData readable (bitmap c) else None); reflexivity.
Qed.

Lemma resizeToContainer_wellFormed (w h : Z) (scale : Transform) (readable : bool)
    (c : Canvas) :
  0 <= w -> 0 <= h -> wellFormed (bitmap c) ->
  wellFormed (bitmap (resizeToContainer w h scale readable c)).
Proof.
  intros Hw Hh Hwf. destruct (mounted c) eqn:Hm.
  - rewrite resizeToContainer_mounted by exact Hm. cbn [bitmap].
    pose proof (blankImage_wellFormed w h Hw Hh) as Hb.
    destruct (if (0 <? width (bitmap c)) && (0 <? height (bitmap c))
              then getImageData readable (bitmap c) else None).
    + eapply sameSize_wellFormed; [apply putImageData_sameSize | exact Hb].
    + eapply sameSize_wellFormed; [apply fillRectWhiteAll_sameSize, Hb | exact Hb].
  - unfold resizeToContainer. rewrite Hm. exact Hwf.
Qed.

End SizeFacts.

(** ** More on colours and on the fill *)

(** X1.  [hexToRgba] gives a colour for every string: the channels are
    bytes and alpha is 255, also when the string is no colour at all. *)
Theorem hexToRgba_always_opaque_bytes (hex : string) :
  rgbaInRange (hexToRgba hex) /\ a (hexToRgba hex) = 255.
Proof.
  split; [apply hexToRgba_range |].
  unfold hexToRgba. destruct (_ =? 3); reflexivity.
Qed.

(** X2.  The short form of a colour is the long form with every digit
    doubled: [#abc] and [#aabbcc] are the same colour, with or without
    the [#]. *)
Theorem hexToRgba_short_is_doubled (hash hash' : bool) (c1 c2 c3 : ascii) (d1 d2 d3 : Z) :
  Js.hexDigit c1 = Some d1 -> Js.hexDigit c2 = Some d2 -> Js.hexDigit c3 = Some d3 ->
  hexToRgba (withHash hash (String c1 (String c2 (String c3 EmptyString))))
  = hexToRgba (withHash hash'
      (String c1 (String c1 (String c2 (String c2 (String c3 (String c3 EmptyString))))))).
Proof.
  intros H1 H2 H3.
  rewrite (hexToRgba_three hash _ _ _ _ _ _ H1 H2 H3).
  rewrite (hexToRgba_six hash' _ _ _ _ _ _ _ _ _ _ _ _ H1 H1 H2 H2 H3 H3).
  pose proof (hexDigit_code _ _ H1) as [B1 _].
  pose proof (hexDigit_code _ _ H2) as [B2 _].
  pose proof (hexDigit_code _ _ H3) as [B3 _].
  rewrite !nibble_double by assumption. f_equal; lia.
Qed.

Lemma hexToRgba_short_is_doubled_witness :
  hexToRgba "#0f8" = hexToRgba "00ff88".
Proof.
  apply (hexToRgba_short_is_doubled true false "0" "f" "8" 0 15 8)%char; reflexivity.
Defined.

(** X3.  A larger tolerance matches whatever a smaller one matches, and a
    negative tolerance matches nothing, not even a colour with itself. *)
Theorem colorsMatch_tolerance (px : Quad) (c : Rgba) (t t' : Z) :
  (colorsMatch px c t = true -> t <= t' -> colorsMatch px c t' = true)
  /\ (t < 0 -> colorsMatch px c t = false).
Proof.
  split.
  - intros Hm Hle. apply colorsMatch_true in Hm. apply colorsMatch_true. lia.
  - intros Hneg. destruct (colorsMatch px c t) eqn:E; [| reflexivity].
    apply colorsMatch_true in E. lia.
Qed.

Lemma colorsMatch_tolerance_witness :
  colorsMatch (250, 250, 250, 255) (mkRgba 255 255 255 255) 26 = true
  /\ colorsMatch (10, 20, 30, 255) (mkRgba 10 20 30 255) (-1) = false.
Proof.
  split.
  - apply (proj1 (colorsMatch_tolerance (250, 250, 250, 255) (mkRgba 255 255 255 255) 5 26));
      [reflexivity | lia].
  - apply (proj2 (colorsMatch_tolerance (10, 20, 30, 255) (mkRgba 10 20 30 255) (-1) 0)). lia.
Defined.

Lemma floodLoop_empty (fuel : nat) (w h : Z) (c : Rgba) (t : option Rgba) (s : FillState) :
  stack s = [] -> floodLoop fuel w h c t s = Some s.
Proof. intros Hs. destruct fuel; cbn [floodLoop]; rewrite Hs; reflexivity. Qed.

(** X4.  A seed outside the image fills nothing: whatever colour the read
    at its offset finds, no pixel is written and the image comes back as it
    was. *)
Theorem floodFill_outside_seed (color : string) (img : ImageData) (sx sy : Z) :
  ~ inBounds img (sx, sy) ->
  filledImage color (sx, sy) img = Some img
  /\ (floodFillImage color (sx, sy) img = Unchanged
      \/ floodFillImage color (sx, sy) img = Repainted img []).
Proof.
  intros Hout.
  assert (Hob : outOfBounds (width img) (height img) sx sy = true).
  { destruct (outOfBounds (width img) (height img) sx sy) eqn:E; [reflexivity |].
    apply outOfBounds_false in E. exfalso. apply Hout. exact E. }
  assert (Hcases : floodFillImage color (sx, sy) img = Unchanged
                   \/ floodFillImage color (sx, sy) img = Repainted img []).
  { unfold floodFillImage. destruct (colorsMatchRead _ _); [left; reflexivity |].
    right. unfold fillFuel. cbn [floodLoop stack]. unfold floodStep. rewrite Hob.
    rewrite floodLoop_empty by reflexivity. cbn [fdata painted].
    destruct img. reflexivity. }
  split; [| exact Hcases].
  unfold filledImage. destruct Hcases as [-> | ->]; reflexivity.
Qed.

Lemma floodFill_outside_seed_witness :
  filledImage "#00ff00" (3, 0) demo = Some demo
  /\ filledImage "#00ff00" (0, -1) demo = Some demo.
Proof.
  split.
  - apply (floodFill_outside_seed "#00ff00" demo 3 0). unfold inBounds. cbn. lia.
  - apply (floodFill_outside_seed "#00ff00" demo 0 (-1)). unfold inBounds. cbn. lia.
Defined.

(** X5.  The fill loop ends for every image, seed and colour, and the image
    it leaves has the dimensions and the data length of the one it got. *)
Theorem floodFill_terminates_same_size (color : string) (p : Z * Z) (img : ImageData) :
  exists img', filledImage color p img = Some img' /\ sameSize img' img.
Proof.
  destruct (filledImage_total color p img) as [img' H].
  exists img'. split; [exact H |]. eapply filledImage_sameSize, H.
Qed.

(** ** The gallery *)

Section GalleryFacts.

Implicit Types (l : list SavedDrawing) (id : string).

Lemma find_after_delete id id' l :
  handleLoadDrawing id' (handleDeleteDrawing id l)
  = if String.eqb id' id then None else handleLoadDrawing id' l.
Proof.
  unfold handleLoadDrawing, handleDeleteDrawing.
  induction l as [| e l IH]; [destruct (String.eqb id' id); reflexivity |].
  cbn [List.filter List.find].
  destruct (String.eqb (drawingId e) id) eqn:E1; cbn [negb].
  - rewrite IH. destruct (String.eqb id' id) eqn:E2; [reflexivity |].
    destruct (String.eqb (drawingId e) id') eqn:E3; [| reflexivity].
    apply String.eqb_eq in E1, E3. apply String.eqb_neq in E2. congruence.
  - cbn [List.find]. destruct (String.eqb (drawingId e) id') eqn:E3.
    + apply String.eqb_eq in E3. subst id'. rewrite E1. reflexivity.
    + exact IH.
Qed.

Lemma delete_absent id l :
  handleLoadDrawing id l = None -> handleDeleteDrawing id l = l.
Proof.
  unfold handleLoadDrawing, handleDeleteDrawing.
  induction l as [| e l IH]; [reflexivity |]. cbn [List.filter List.find].
  destruct (String.eqb (drawingId e) id); [discriminate |]. cbn [negb].
  intros H. f_equal. apply IH, H.
Qed.

Lemma delete_length id l : (length (handleDeleteDrawing id l) <= length l)%nat.
Proof.
  unfold handleDeleteDrawing. induction l as [| e l IH]; [reflexivity |].
  cbn [List.filter]. destruct (negb _); cbn [length]; lia.
Qed.

End GalleryFacts.



(** X7.  A deleted drawing can no longer be loaded, the other drawings load
    as before, deleting an identifier that is not there changes nothing,
    and a drawing just saved is the one its identifier loads. *)
Theorem gallery_delete_and_load (id : string) (l : list SavedDrawing) :
  handleLoadDrawing id (handleDeleteDrawing id l) = None
  /\ (forall id', id' <> id ->
        handleLoadDrawing id' (handleDeleteDrawing id l) = handleLoadDrawing id' l)
  /\ (handleLoadDrawing id l = None -> handleDeleteDrawing id l = l)
  /\ (length (handleDeleteDrawing id l) <= length l)%nat
  /\ (forall u now, u <> EmptyString ->
        handleLoadDrawing id (handleSaveDrawing (Some u) id now l) = Some u).
Proof.
  split; [| split; [| split; [| split]]].
  - rewrite find_after_delete, String.eqb_refl. reflexivity.
  - intros id' Hne. rewrite find_after_delete.
    apply String.eqb_neq in Hne. rewrite Hne. reflexivity.
  - apply delete_absent.
  - apply delete_length.
  - intros u now Hne. unfold handleSaveDrawing, galleryLimit.
    apply String.eqb_neq in Hne. rewrite Hne. cbn [take].
    unfold handleLoadDrawing. cbn [List.find drawingId]. rewrite String.eqb_refl.
    reflexivity.
Qed.

Lemma gallery_delete_and_load_witness :
  let l := [mkSavedDrawing "a" "data:a" 1; mkSavedDrawing "b" "data:b" 2] in
  handleLoadDrawing "b" (handleDeleteDrawing "a" l) = handleLoadDrawing "b" l
  /\ handleDeleteDrawing "z" l = l
  /\ handleLoadDrawing "c" (handleSaveDrawing (Some "data:c"%string) "c" 3 l) = Some "data:c"%string.
Proof.
  intros l.
  destruct (gallery_delete_and_load "a" l) as (_ & H2 & _).
  destruct (gallery_delete_and_load "z" l) as (_ & _ & H3 & _).
  destruct (gallery_delete_and_load "c" l) as (_ & _ & _ & _ & H5).
  split; [apply H2; discriminate |]. split; [apply H3; reflexivity |].
  apply H5. discriminate.
Defined.

(** ** Invariants over the events of the component *)

Section EventFacts.

Context {R : Canvas2D}.

Lemma handlePointerUp_history (props : Props) (ev : PointerEvent) (c : Canvas) :
  history (handlePointerUp props ev c) = history c.
Proof.
  unfold handlePointerUp. rewrite stopDrawing_history.
  destruct (isShapeTool (tool props)); [apply drawPreviewShape_history | reflexivity].
Qed.

Lemma popHistory_length (h rest : list ImageData) (previous : ImageData) :
  popHistory h = Some (previous, rest) -> S (length rest) = length h.
Proof.
  unfold popHistory. destruct (last h) as [x |] eqn:E; [| discriminate].
  intros H. inversion H; subst. apply last_Some in E as [l' ->].
  rewrite length_take, length_app. cbn [length]. lia.
Qed.

Lemma undoEffect_history_length (signal : Z) (c : Canvas) :
  (length (history (undoEffect signal c)) <= length (history c))%nat.
Proof.
  unfold undoEffect. destruct (signal =? 0); [lia |].
  destruct (negb (mounted c)); [lia |].
  destruct (popHistory (history c)) as [[previous rest] |] eqn:Hp; [| lia].
  apply popHistory_length in Hp.
  cbn [bitmap setHistory setTransform save]. rewrite restore_after_save.
  cbn [history setBitmap setHistory]. lia.
Qed.

Lemma clearEffect_history_length (c : Canvas) :
  (length (history (clearEffect c)) <= length (history c))%nat.
Proof.
  unfold clearEffect. destruct (negb (mounted c)); [lia |]. cbn [history setHistory length]. lia.
Qed.

Lemma resizeToContainer_refs (w h : Z) (scale : Transform) (readable : bool) (c : Canvas) :
  history (resizeToContainer w h scale readable c) = history c
  /\ isDrawing (resizeToContainer w h scale readable c) = isDrawing c
  /\ mounted (resizeToContainer w h scale readable c) = mounted c
  /\ shapeStart (resizeToContainer w h scale readable c) = shapeStart c
  /\ shapeSnapshot (resizeToContainer w h scale readable c) = shapeSnapshot c.
Proof.
  destruct (mounted c) eqn:Hm.
  - rewrite resizeToContainer_mounted by exact Hm. cbn. auto.
  - unfold resizeToContainer. rewrite Hm. cbn. auto.
Qed.

Lemma stepEvent_history (e : Event) (c : Canvas) :
  (length (history c) <= 25)%nat -> (length (history (stepEvent e c)) <= 25)%nat.
Proof.
  intros Hb. destruct e; cbn [stepEvent].
  - destruct (mounted c) eqn:Hm.
    + rewrite handlePointerDown_history by exact Hm.
      destruct (getImageData _ _); [apply pushHistory_length |]; exact Hb.
    + unfold handlePointerDown. rewrite Hm. exact Hb.
  - rewrite handlePointerMove_history. exact Hb.
  - rewrite handlePointerUp_history. exact Hb.
  - unfold handlePointerLeave. rewrite stopDrawing_history. exact Hb.
  - unfold handlePointerCancel. rewrite stopDrawing_history. exact Hb.
  - unfold runSignalEffects.
    pose proof (clearEffect_history_length c) as Hc.
    destruct (depChanged (Some prev) next clearSignal);
      destruct (depChanged (Some prev) next undoSignal);
      try (etransitivity; [apply undoEffect_history_length |]); lia.
  - destruct (resizeToContainer_refs (Z.of_nat newWidth) (Z.of_nat newHeight) scale readable c)
      as (-> & _). exact Hb.
Qed.

Lemma stepEvent_wellFormed (e : Event) (c : Canvas) :
  wellFormed (bitmap c) ->
  wellFormed (bitmap (stepEvent e c))
  /\ (notResized e -> sameSize (bitmap (stepEvent e c)) (bitmap c)).
Proof.
  intros Hwf.
  assert (Hs : notResized e -> sameSize (bitmap (stepEvent e c)) (bitmap c)).
  { destruct e; cbn [stepEvent notResized]; intros Hn; try contradiction.
    - apply handlePointerDown_sameSize, Hwf.
    - apply handlePointerMove_sameSize, Hwf.
    - apply handlePointerUp_sameSize, Hwf.
    - unfold handlePointerLeave. rewrite (proj1 (stopDrawing_bitmap _ _)). apply sameSize_refl.
    - unfold handlePointerCancel. rewrite (proj1 (stopDrawing_bitmap _ _)). apply sameSize_refl.
    - apply runSignalEffects_sameSize, Hwf. }
  split; [| exact Hs].
  destruct e; try (eapply sameSize_wellFormed; [apply Hs; exact I | exact Hwf]).
  cbn [stepEvent]. apply resizeToContainer_wellFormed; [lia | lia | exact Hwf].
Qed.

(** The pen across [drawPreviewShape] and [floodFill]. *)
Lemma drawPreviewShape_pen (props : Props) (cur : Point) (c : Canvas) :
  isDrawing (drawPreviewShape props cur c) = isDrawing c
  /\ mounted (drawPreviewShape props cur c) = mounted c
  /\ (globalCompositeOperation (drawPreviewShape props cur c) = globalCompositeOperation c
      \/ globalCompositeOperation (drawPreviewShape props cur c) = SourceOver).
Proof.
  unfold drawPreviewShape.
  destruct c as [m bmp tr lw ss fs op sv pa dr hi st sn]. cbn [negb mounted shapeStart].
  destruct m; cbn [negb]; [| auto]. destruct st as [start |]; [| auto].
  destruct sn; destruct (tool props); cbn; auto.
Qed.

Lemma floodFill_pen (props : Props) (ev : PointerEvent) (c : Canvas) :
  globalCompositeOperation (floodFill props ev c) = globalCompositeOperation c.
Proof.
  unfold floodFill. destruct c as [m bmp tr lw ss fs op sv pa dr hi st sn].
  cbn [negb mounted bitmap setTransform save]. destruct m; cbn [negb]; [| reflexivity].
  destruct (getImageData _ _); [| reflexivity].
  destruct (floodFillImage _ _ _); reflexivity.
Qed.

Lemma pushSnapshotForUndo_pen (readable : bool) (c : Canvas) :
  globalCompositeOperation (fst (pushSnapshotForUndo readable c)) = globalCompositeOperation c.
Proof.
  destruct readable.
  - rewrite pushSnapshotForUndo_captured. reflexivity.
  - rewrite pushSnapshotForUndo_failed. reflexivity.
Qed.

Lemma handlePointerDown_pen (props : Props) (ev : PointerEvent) (c : Canvas) :
  mounted (handlePointerDown props ev c) = mounted c
  /\ (isDrawing (handlePointerDown props ev c) = true
      \/ (isDrawing (handlePointerDown props ev c) = isDrawing c
          /\ globalCompositeOperation (handlePointerDown props ev c)
             = globalCompositeOperation c)).
Proof.
  destruct (mounted c) eqn:Hm; [| unfold handlePointerDown; rewrite Hm; cbn; auto].
  destruct (tool props) eqn:Ht.
  1, 2: destruct (handlePointerDown_stroke props ev c Hm) as (_ & Hd & _);
        [rewrite Ht; auto |]; split; [| left; exact Hd];
        unfold handlePointerDown; rewrite Hm, Ht; cbn [negb];
        destruct (pushSnapshotForUndo_frame (snapshotReadable ev) c) as (Hm1 & _);
        destruct (pushSnapshotForUndo (snapshotReadable ev) c) as [c1 sn];
        cbn [fst] in Hm1; cbn; congruence.
  1, 2, 3: destruct (handlePointerDown_shape props ev c Hm) as (_ & Hm' & Hd & _);
           [rewrite Ht; reflexivity |]; split; [exact Hm' | left; exact Hd].
  rewrite handlePointerDown_fill by assumption.
  destruct (floodFill_frame props ev (fst (pushSnapshotForUndo (snapshotReadable ev) c)))
    as (_ & Hd & Hm').
  destruct (pushSnapshotForUndo_frame (snapshotReadable ev) c) as (Hm1 & _ & Hd1 & _).
  split; [congruence |]. right. split; [congruence |].
  rewrite floodFill_pen. apply pushSnapshotForUndo_pen.
Qed.

Lemma handlePointerMove_pen (props : Props) (ev : PointerEvent) (c : Canvas) :
  (isDrawing c = false -> handlePointerMove props ev c = c)
  /\ isDrawing (handlePointerMove props ev c) = isDrawing c
  /\ mounted (handlePointerMove props ev c) = mounted c.
Proof.
  unfold handlePointerMove. destruct (isDrawing c) eqn:Hd; cbn [negb]; [| auto].
  split; [discriminate |].
  destruct (mounted c) eqn:Hm; cbn [negb]; [| auto].
  destruct (isShapeTool (tool props)).
  - destruct (drawPreviewShape_pen props (point ev) c) as (H1 & H2 & _).
    rewrite H1, H2. auto.
  - destruct (tool props); cbn; auto.
Qed.

Lemma stopDrawing_pen (props : Props) (c : Canvas) :
  mounted (stopDrawing props c) = mounted c
  /\ (mounted c = true ->
      isDrawing (stopDrawing props c) = false
      /\ shapeStart (stopDrawing props c) = None
      /\ shapeSnapshot (stopDrawing props c) = None
      /\ globalCompositeOperation (stopDrawing props c)
         = if isDrawing c then SourceOver else globalCompositeOperation c).
Proof.
  unfold stopDrawing. destruct (mounted c) eqn:Hm; cbn [negb];
    [| split; [exact Hm | discriminate]].
  destruct (isDrawing c); [destruct (tool props) |]; cbn; rewrite ?Hm; auto.
Qed.

Lemma effects_pen (prev : option Props) (next : Props) (c : Canvas) :
  mounted (runSignalEffects prev next c) = mounted c
  /\ isDrawing (runSignalEffects prev next c) = isDrawing c
  /\ globalCompositeOperation (runSignalEffects prev next c) = globalCompositeOperation c.
Proof.
  assert (Hc : mounted (clearEffect c) = mounted c /\ isDrawing (clearEffect c) = isDrawing c
               /\ globalCompositeOperation (clearEffect c) = globalCompositeOperation c).
  { unfold clearEffect. destruct c as [m bmp tr lw ss fs op sv pa dr hi st sn].
    destruct m; cbn; auto. }
  assert (Hu : forall s x, mounted (undoEffect s x) = mounted x
               /\ isDrawing (undoEffect s x) = isDrawing x
               /\ globalCompositeOperation (undoEffect s x) = globalCompositeOperation x).
  { intros s x. unfold undoEffect. destruct (s =? 0); [auto |].
    destruct x as [m bmp tr lw ss fs op sv pa dr hi st sn].
    destruct m; cbn [negb mounted history]; [| auto].
    destruct (popHistory hi) as [[previous rest] |]; cbn; auto. }
  unfold runSignalEffects.
  destruct (depChanged prev next clearSignal), (depChanged prev next undoSignal);
    try (destruct (Hu (undoSignal next) (clearEffect c)) as (-> & -> & ->));
    try (destruct (Hu (undoSignal next) c) as (-> & -> & ->)); auto.
Qed.

Lemma stopDrawing_idle (props : Props) (c : Canvas) :
  idlePaints c -> idlePaints (stopDrawing props c).
Proof.
  unfold idlePaints. intros Hi. destruct (stopDrawing_pen props c) as (_ & Hstop).
  destruct (mounted c) eqn:Hm.
  - destruct (Hstop eq_refl) as (_ & _ & _ & ->). intros _.
    destruct (isDrawing c) eqn:Hd; [reflexivity | apply Hi; reflexivity].
  - unfold stopDrawing. rewrite Hm. exact Hi.
Qed.

Lemma drawPreviewShape_idle (props : Props) (cur : Point) (c : Canvas) :
  idlePaints c -> idlePaints (drawPreviewShape props cur c).
Proof.
  unfold idlePaints. intros Hi.
  destruct (drawPreviewShape_pen props cur c) as (Hd & _ & [Hop | Hop]); rewrite Hd, Hop; auto.
Qed.

Lemma stepEvent_idle (e : Event) (c : Canvas) :
  idlePaints c ->
  idlePaints (stepEvent e c) /\ mounted (stepEvent e c) = mounted c.
Proof.
  intros Hi. destruct e; cbn [stepEvent].
  - unfold idlePaints in *.
    destruct (handlePointerDown_pen props ev c) as (Hm & [Hd | [Hd Hop]]).
    + split; [| exact Hm]. rewrite Hd. discriminate.
    + split; [| exact Hm]. rewrite Hd, Hop. exact Hi.
  - unfold idlePaints in *.
    destruct (handlePointerMove_pen props ev c) as (Hsame & Hd & Hm).
    split; [| exact Hm]. rewrite Hd. intros Hidle. rewrite (Hsame Hidle). auto.
  - unfold handlePointerUp. split.
    + apply stopDrawing_idle.
      destruct (isShapeTool (tool props)); [apply drawPreviewShape_idle |]; exact Hi.
    + rewrite (proj1 (stopDrawing_pen props _)).
      destruct (isShapeTool (tool props)); [apply drawPreviewShape_pen | reflexivity].
  - unfold handlePointerLeave. split; [apply stopDrawing_idle, Hi | apply stopDrawing_pen].
  - unfold handlePointerCancel. split; [apply stopDrawing_idle, Hi | apply stopDrawing_pen].
  - unfold idlePaints in *.
    destruct (effects_pen (Some prev) next c) as (Hm & Hd & Hop).
    split; [| exact Hm]. rewrite Hd, Hop. exact Hi.
  - destruct (resizeToContainer_refs (Z.of_nat newWidth) (Z.of_nat newHeight) scale readable c)
      as (_ & _ & Hm & _).
    split; [| exact Hm]. destruct (mounted c) eqn:Hmc.
    + rewrite resizeToContainer_mounted by exact Hmc. intros _. reflexivity.
    + unfold resizeToContainer. rewrite Hmc. exact Hi.
Qed.

End EventFacts.

(** X8.  Whatever happens to the component, the buffer stays well formed:
    its data has four channels for each pixel of its dimensions.  Only a
    resize changes the dimensions. *)
Theorem events_keep_buffer_wellFormed {R : Canvas2D} (events : list Event) (c : Canvas) :
  wellFormed (bitmap c) ->
  wellFormed (bitmap (runEvents events c))
  /\ (Forall notResized events -> sameSize (bitmap (runEvents events c)) (bitmap c)).
Proof.
  revert c. induction events as [| e events IH]; intros c Hwf.
  - split; [exact Hwf | intros _; apply sameSize_refl].
  - unfold runEvents. cbn [fold_left]. fold (runEvents events (stepEvent e c)).
    destruct (stepEvent_wellFormed e c Hwf) as [Hwf' Hs].
    destruct (IH _ Hwf') as [Hfinal Hsame]. split; [exact Hfinal |].
    intros Hall. apply Forall_cons in Hall as [He Hall].
    eapply sameSize_trans; [apply Hsame, Hall | apply Hs, He].
Qed.

Lemma events_keep_buffer_wellFormed_witness :
  wellFormed (bitmap (runEvents
    [PointerDown (sampleProps fill "#ff0000") (eventAt 1 true);
     @Resized pointRaster 2%nat 2%nat 3 true;
     Rendered (sampleProps fill "#ff0000") (pressUndo (sampleProps fill "#ff0000"))]
    strip)).
Proof.
  apply events_keep_buffer_wellFormed.
  unfold wellFormed, strip, whiteImage. cbn [bitmap freshCanvas width height data].
  split; [lia | split; [lia | reflexivity]].
Defined.

(** X9.  Whatever happens to the component, the undo history never holds
    more than 25 snapshots. *)
Theorem events_keep_history_bounded {R : Canvas2D} (events : list Event) (c : Canvas) :
  (length (history c) <= 25)%nat -> (length (history (runEvents events c)) <= 25)%nat.
Proof.
  revert c. induction events as [| e events IH]; intros c Hb; [exact Hb |].
  unfold runEvents. cbn [fold_left]. apply IH, stepEvent_history, Hb.
Qed.

Lemma events_keep_history_bounded_witness :
  (length (history (runEvents
     (replicate 40 (PointerDown (sampleProps pencil "#ff0000") (eventAt 1 true))) strip))
   <= 25)%nat.
Proof. apply events_keep_history_bounded. cbn. lia. Defined.

(** X10.  On a canvas that has been mounted, whatever happened since, the
    context paints with [source-over] whenever no gesture is active; so a
    clear outside a gesture always leaves an opaque white buffer and an
    empty history. *)
Theorem idle_canvas_clears_to_white {R : Canvas2D} (events : list Event)
    (scale : Transform) (bmp : ImageData) :
  let c := runEvents events (freshCanvas scale bmp) in
  mounted c = true
  /\ idlePaints c
  /\ (isDrawing c = false ->
      bitmap (clearEffect c) = whiteImage (width (bitmap c)) (height (bitmap c))
      /\ history (clearEffect c) = []).
Proof.
  intros c.
  assert (Hinv : forall evs x, mounted x = true -> idlePaints x ->
                   mounted (runEvents evs x) = true /\ idlePaints (runEvents evs x)).
  { induction evs as [| e evs IH]; intros x Hm Hi; [auto |].
    unfold runEvents. cbn [fold_left]. destruct (stepEvent_idle e x Hi) as [Hi' Hm'].
    apply IH; [congruence | exact Hi']. }
  destruct (Hinv events (freshCanvas scale bmp) eq_refl) as [Hm Hi].
  { unfold idlePaints. reflexivity. }
  fold c in Hm, Hi. split; [exact Hm |]. split; [exact Hi |].
  intros Hd. rewrite clearEffect_bitmap by exact Hm. rewrite (Hi Hd).
  cbn [bitmap history setBitmap setHistory]. split; reflexivity.
Qed.

Lemma idle_canvas_clears_to_white_witness :
  let c := runEvents
             [PointerDown (sampleProps eraser "#ff0000") (eventAt 1 true);
              PointerMove (sampleProps eraser "#ff0000") (eventAt 2 true);
              PointerCancel (sampleProps eraser "#ff0000")]
             strip2 in
  bitmap (clearEffect c) = whiteImage 4 1.
Proof.
  intros c.
  apply (idle_canvas_clears_to_white
           [PointerDown (sampleProps eraser "#ff0000") (eventAt 1 true);
            PointerMove (sampleProps eraser "#ff0000") (eventAt 2 true);
            PointerCancel (sampleProps eraser "#ff0000")] 2 (whiteImage 4 1)).
  reflexivity.
Defined.

(** X11.  A clear that runs while an eraser gesture is active does not
    leave a white buffer: the context still erases, the white rectangle
    erases the cleared buffer, and every pixel is transparent black. *)
Theorem clear_during_eraser_is_transparent {R : Canvas2D}
    (props : Props) (ev : PointerEvent) (c : Canvas) :
  mounted c = true -> tool props = eraser ->
  let c' := clearEffect (handlePointerDown props ev c) in
  bitmap c' = blankImage (width (bitmap c)) (height (bitmap c)) /\ history c' = [].
Proof.
  intros Hm Ht c'. subst c'.
  destruct (handlePointerDown_pen props ev c) as (Hm' & _).
  rewrite clearEffect_bitmap by congruence. cbn [bitmap history setBitmap setHistory].
  split; [| reflexivity].
  assert (Hop : globalCompositeOperation (handlePointerDown props ev c) = DestinationOut).
  { unfold handlePointerDown, pushSnapshotForUndo. rewrite Hm, Ht.
    destruct c as [m bmp tr lw ss fs op sv pa dr hi st sn].
    destruct (snapshotReadable ev); reflexivity. }
  destruct (handlePointerDown_stroke props ev c Hm (or_intror Ht)) as (Hb & _).
  rewrite Hop, Hb. unfold fillRectWhiteAll, clearRectAll, blankImage. cbn [width height].
  destruct (stroke_sameSize (transformAfterCapture (snapshotReadable ev) c)
              (penWidth props c) (penStyle props c)
              (match tool props with eraser => DestinationOut | _ => SourceOver end)
              (dotPath (transformAfterCapture (snapshotReadable ev) c) (point ev))
              (bitmap c)) as (-> & -> & _).
  reflexivity.
Qed.

Lemma clear_during_eraser_is_transparent_witness :
  bitmap (clearEffect (handlePointerDown (sampleProps eraser "#ff0000") (eventAt 1 true) strip))
  = blankImage 4 1.
Proof.
  apply (clear_during_eraser_is_transparent (sampleProps eraser "#ff0000") (eventAt 1 true)
           strip); reflexivity.
Defined.

(** ** The context across the handlers *)

Section ContextFacts.

Context {R : Canvas2D}.

Lemma drawPreviewShape_context (props : Props) (cur : Point) (c : Canvas) :
  transform (drawPreviewShape props cur c) = transform c
  /\ saved (drawPreviewShape props cur c) = saved c.
Proof.
  unfold drawPreviewShape.
  destruct c as [m bmp tr lw ss fs op sv pa dr hi st sn]. cbn [negb mounted shapeStart].
  destruct m; cbn [negb]; [| auto]. destruct st as [start |]; [| auto].
  destruct sn; destruct (tool props); cbn; auto.
Qed.

Lemma floodFill_context (props : Props) (ev : PointerEvent) (c : Canvas) :
  fillReadable ev = true ->
  transform (floodFill props ev c) = transform c /\ saved (floodFill props ev c) = saved c.
Proof.
  intros Hr. unfold floodFill. rewrite Hr.
  destruct c as [m bmp tr lw ss fs op sv pa dr hi st sn].
  cbn [negb mounted bitmap setTransform save getImageData]. destruct m; cbn [negb]; [| auto].
  pose proof (floodFillImage_total (color props) (pixel ev) bmp) as Ht.
  destruct (floodFillImage (color props) (pixel ev) bmp); cbn; auto. congruence.
Qed.

Lemma stopDrawing_context (props : Props) (c : Canvas) :
  transform (stopDrawing props c) = transform c /\ saved (stopDrawing props c) = saved c.
Proof.
  unfold stopDrawing. destruct (negb (mounted c)); [auto |].
  destruct (isDrawing c); [destruct (tool props) |]; cbn; auto.
Qed.

Lemma handlePointerDown_context (props : Props) (ev : PointerEvent) (c : Canvas) :
  mounted c = true ->
  tool props <> fill \/ fillReadable ev = true ->
  transform (handlePointerDown props ev c) = transformAfterCapture (snapshotReadable ev) c
  /\ saved (handlePointerDown props ev c)
     = if snapshotReadable ev then saved c
       else mkDrawingState (transform c) (lineWidth c) (strokeStyle c) (fillStyle c)
              (globalCompositeOperation c) :: saved c.
Proof.
  intros Hm Hok. unfold handlePointerDown, transformAfterCapture. rewrite Hm. cbn [negb].
  destruct (snapshotReadable ev).
  - rewrite pushSnapshotForUndo_captured.
    destruct (tool props) eqn:Ht.
    1, 2: destruct c; cbn; auto.
    1, 2, 3: destruct (drawPreviewShape_context props (point ev)
                         (setShape (Some (point ev)) (Some (bitmap c))
                            (setComposite SourceOver
                               (setStrokeStyle (color props)
                                  (setLineWidth (brushSize props)
                                     (setIsDrawing true
                                        (setHistory (pushHistory (bitmap c) (history c)) c)))))))
               as (-> & ->); destruct c; cbn; auto.
    destruct Hok as [Hne | Hr]; [congruence |].
    destruct (floodFill_context props ev
                (setHistory (pushHistory (bitmap c) (history c)) c) Hr) as (-> & ->).
    destruct c; cbn; auto.
  - rewrite pushSnapshotForUndo_failed.
    destruct (tool props) eqn:Ht.
    1, 2: destruct c; cbn; auto.
    1, 2, 3: destruct (drawPreviewShape_context props (point ev)
                         (setShape (Some (point ev)) None
                            (setComposite SourceOver
                               (setStrokeStyle (color props)
                                  (setLineWidth (brushSize props)
                                     (setIsDrawing true
                                        (setTransform identityTransform (save c))))))))
               as (-> & ->); destruct c; cbn; auto.
    destruct Hok as [Hne | Hr]; [congruence |].
    destruct (floodFill_context props ev (setTransform identityTransform (save c)) Hr)
      as (-> & ->).
    destruct c; cbn; auto.
Qed.

(** [floodFill] when its read throws: the exception leaves between
    [setTransform] and the first [restore]. *)
Lemma floodFill_unreadable (props : Props) (ev : PointerEvent) (c : Canvas) :
  mounted c = true -> fillReadable ev = false ->
  floodFill props ev c = setTransform identityTransform (save c).
Proof. intros Hm Hr. unfold floodFill. rewrite Hm, Hr. reflexivity. Qed.

(** Pointer down with the fill tool when both reads throw: two saved
    states stay on the stack. *)
Lemma handlePointerDown_fill_unreadable (props : Props) (ev : PointerEvent) (c : Canvas) :
  mounted c = true -> tool props = fill -> fillReadable ev = false ->
  transform (handlePointerDown props ev c) = identityTransform
  /\ length (saved (handlePointerDown props ev c))
     = if snapshotReadable ev then S (length (saved c)) else S (S (length (saved c))).
Proof.
  intros Hm Ht Hr. rewrite handlePointerDown_fill by assumption.
  destruct (snapshotReadable ev).
  - rewrite pushSnapshotForUndo_captured. cbn [fst].
    rewrite floodFill_unreadable by assumption. destruct c; cbn; auto.
  - rewrite pushSnapshotForUndo_failed. cbn [fst].
    rewrite floodFill_unreadable by assumption. destruct c; cbn; auto.
Qed.

Lemma handlePointerMove_context (props : Props) (ev : PointerEvent) (c : Canvas) :
  transform (handlePointerMove props ev c) = transform c
  /\ saved (handlePointerMove props ev c) = saved c.
Proof.
  unfold handlePointerMove. destruct (negb (isDrawing c)); [auto |].
  destruct (negb (mounted c)); [auto |].
  destruct (isShapeTool (tool props)); [apply drawPreviewShape_context |].
  destruct (tool props); cbn; auto.
Qed.

Lemma handlePointerUp_context (props : Props) (ev : PointerEvent) (c : Canvas) :
  transform (handlePointerUp props ev c) = transform c
  /\ saved (handlePointerUp props ev c) = saved c.
Proof.
  unfold handlePointerUp.
  destruct (stopDrawing_context props
              (if isShapeTool (tool props) then drawPreviewShape props (point ev) c else c))
    as (-> & ->).
  destruct (isShapeTool (tool props)); [apply drawPreviewShape_context | auto].
Qed.

Lemma effects_context (prev : option Props) (next : Props) (c : Canvas) :
  transform (runSignalEffects prev next c) = transform c
  /\ saved (runSignalEffects prev next c) = saved c.
Proof.
  assert (Hc : transform (clearEffect c) = transform c /\ saved (clearEffect c) = saved c).
  { unfold clearEffect. destruct c as [m bmp tr lw ss fs op sv pa dr hi st sn].
    destruct m; cbn; auto. }
  assert (Hu : forall s x, transform (undoEffect s x) = transform x
                           /\ saved (undoEffect s x) = saved x).
  { intros s x. unfold undoEffect. destruct (s =? 0); [auto |].
    destruct x as [m bmp tr lw ss fs op sv pa dr hi st sn].
    destruct m; cbn [negb mounted history]; [| auto].
    destruct (popHistory hi) as [[previous rest] |]; cbn; auto. }
  unfold runSignalEffects.
  destruct (depChanged prev next clearSignal), (depChanged prev next undoSignal);
    try (destruct (Hu (undoSignal next) (clearEffect c)) as (-> & ->));
    try (destruct (Hu (undoSignal next) c) as (-> & ->)); auto.
Qed.

End ContextFacts.

(** X12.  [save] and [restore] are balanced on every path where no pixel
    read throws: moves, pointer up and the two effects never change the
    transformation or the stack of saved states, and neither does a pointer
    down whose reads return.  Each read that throws during a pointer down
    (the read of [pushSnapshotForUndo], and with the fill tool the read of
    [floodFill]) leaves the identity as transformation and one more saved
    state: one for either read alone, two when both throw. *)
Theorem context_balanced_unless_read_throws {R : Canvas2D}
    (props : Props) (ev : PointerEvent) (c : Canvas) :
  (transform (handlePointerMove props ev c) = transform c
   /\ saved (handlePointerMove props ev c) = saved c)
  /\ (transform (handlePointerUp props ev c) = transform c
      /\ saved (handlePointerUp props ev c) = saved c)
  /\ (forall prev next,
        transform (runSignalEffects prev next c) = transform c
        /\ saved (runSignalEffects prev next c) = saved c)
  /\ (mounted c = true -> snapshotReadable ev = true ->
      tool props <> fill \/ fillReadable ev = true ->
      transform (handlePointerDown props ev c) = transform c
      /\ saved (handlePointerDown props ev c) = saved c)
  /\ (mounted c = true ->
      snapshotReadable ev = false \/ (tool props = fill /\ fillReadable ev = false) ->
      transform (handlePointerDown props ev c) = identityTransform
      /\ length (saved (handlePointerDown props ev c))
         = (length (saved c)
            + (if snapshotReadable ev then 0 else 1)
            + (match tool props with
               | fill => if fillReadable ev then 0 else 1
               | _ => 0
               end))%nat).
Proof.
  split; [apply handlePointerMove_context |].
  split; [apply handlePointerUp_context |].
  split; [intros; apply effects_context |].
  split.
  - intros Hm Hs Hok.
    destruct (handlePointerDown_context props ev c Hm Hok) as (-> & ->).
    unfold transformAfterCapture. rewrite Hs. auto.
  - intros Hm Hthrow.
    assert (Hcases : (tool props = fill /\ fillReadable ev = false)
                     \/ ((tool props <> fill \/ fillReadable ev = true)
                         /\ snapshotReadable ev = false)).
    { destruct (tool props) eqn:Ht, (fillReadable ev) eqn:Hf;
        destruct Hthrow as [Hs | [Ht' Hf']];
        first [ left; split; [assumption || reflexivity | reflexivity]
              | right; split; [first [right; reflexivity | left; discriminate] | exact Hs]
              | discriminate ]. }
    destruct Hcases as [[Ht Hf] | [Hok Hs]].
    + destruct (handlePointerDown_fill_unreadable props ev c Hm Ht Hf) as (-> & ->).
      rewrite Ht, Hf. split; [reflexivity |]. destruct (snapshotReadable ev); lia.
    + destruct (handlePointerDown_context props ev c Hm Hok) as (-> & ->).
      unfold transformAfterCapture. rewrite Hs. split; [reflexivity |].
      cbn [length]. destruct Hok as [Hne | ->]; destruct (tool props); try congruence; lia.
Qed.

Lemma context_balanced_unless_read_throws_witness :
  transform (handlePointerDown (sampleProps line "#ff0000") (eventAt 1 true) strip2) = 2
  /\ saved (handlePointerDown (sampleProps line "#ff0000") (eventAt 1 true) strip2) = []
  /\ transform (handlePointerDown (sampleProps line "#ff0000") (eventAt 1 false) strip2) = 1
  /\ length (saved (handlePointerDown (sampleProps line "#ff0000") (eventAt 1 false) strip2))
     = 1%nat
  /\ length (saved (handlePointerDown (sampleProps fill "#ff0000")
                      (@mkPointerEvent pointRaster (1, 0) (1, 0) false false) strip2))
     = 2%nat.
Proof.
  destruct (context_balanced_unless_read_throws (sampleProps line "#ff0000") (eventAt 1 true)
              strip2) as (_ & _ & _ & Hok & _).
  destruct (context_balanced_unless_read_throws (sampleProps line "#ff0000") (eventAt 1 false)
              strip2) as (_ & _ & _ & _ & Hfail).
  destruct (context_balanced_unless_read_throws (sampleProps fill "#ff0000")
              (@mkPointerEvent pointRaster (1, 0) (1, 0) false false) strip2)
    as (_ & _ & _ & _ & Hboth).
  split; [apply Hok; [reflexivity | reflexivity | left; discriminate] |].
  split; [apply Hok; [reflexivity | reflexivity | left; discriminate] |].
  split; [apply Hfail; [reflexivity | left; reflexivity] |].
  split; [apply Hfail; [reflexivity | left; reflexivity] |].
  apply Hboth; [reflexivity | left; reflexivity].
Defined.

(** ** Undo after gestures *)

Section UndoFacts.

Context {R : Canvas2D}.

Lemma moves_frame (props : Props) (moves : list PointerEvent) (c : Canvas) :
  wellFormed (bitmap c) ->
  let c' := fold_left (fun c' ev => handlePointerMove props ev c') moves c in
  mounted c' = mounted c /\ history c' = history c /\ sameSize (bitmap c') (bitmap c).
Proof.
  revert c. induction moves as [| ev moves IH]; intros c Hwf.
  - cbn. split; [reflexivity | split; [reflexivity | apply sameSize_refl]].
  - cbn [fold_left].
    pose proof (handlePointerMove_sameSize props ev c Hwf) as Hs.
    destruct (IH (handlePointerMove props ev c)) as (Hm & Hh & Hsz).
    { eapply sameSize_wellFormed; [exact Hs | exact Hwf]. }
    destruct (handlePointerMove_pen props ev c) as (_ & _ & Hm1).
    split; [congruence |]. split; [rewrite Hh; apply handlePointerMove_history |].
    eapply sameSize_trans; [exact Hsz | exact Hs].
Qed.

(** A gesture whose snapshot is captured: one push, the same size. *)
Lemma gesture_frame (props : Props) (down : PointerEvent) (moves : list PointerEvent)
    (up : PointerEvent) (c : Canvas) :
  mounted c = true -> wellFormed (bitmap c) -> snapshotReadable down = true ->
  mounted (gesture props down moves up c) = true
  /\ history (gesture props down moves up c) = pushHistory (bitmap c) (history c)
  /\ sameSize (bitmap (gesture props down moves up c)) (bitmap c).
Proof.
  intros Hm Hwf Hr. unfold gesture.
  pose proof (handlePointerDown_sameSize props down c Hwf) as Hs1.
  assert (Hwf1 : wellFormed (bitmap (handlePointerDown props down c)))
    by (eapply sameSize_wellFormed; [exact Hs1 | exact Hwf]).
  destruct (moves_frame props moves _ Hwf1) as (Hm2 & Hh2 & Hs2).
  set (c2 := fold_left (fun c' ev => handlePointerMove props ev c') moves
               (handlePointerDown props down c)) in *.
  assert (Hwf2 : wellFormed (bitmap c2))
    by (eapply sameSize_wellFormed; [exact Hs2 | exact Hwf1]).
  destruct (handlePointerDown_pen props down c) as (Hm1 & _).
  split; [| split].
  - unfold handlePointerUp. rewrite (proj1 (stopDrawing_pen props _)).
    destruct (isShapeTool (tool props));
      [rewrite (proj1 (proj2 (drawPreviewShape_pen props (point up) c2))) |]; congruence.
  - rewrite handlePointerUp_history, Hh2, handlePointerDown_history by exact Hm.
    rewrite Hr. reflexivity.
  - eapply sameSize_trans; [apply handlePointerUp_sameSize, Hwf2 |].
    eapply sameSize_trans; [exact Hs2 | exact Hs1].
Qed.

Lemma undoEffect_after_push (signal : Z) (c : Canvas) (s : ImageData) (h : list ImageData) :
  signal <> 0 -> mounted c = true -> history c = h ++ [s] ->
  wellFormed s -> sameSize (bitmap c) s ->
  mounted (undoEffect signal c) = true
  /\ bitmap (undoEffect signal c) = s
  /\ history (undoEffect signal c) = h.
Proof.
  intros Hs Hm Hh Hwf (Hw & Hht & _).
  rewrite (undoEffect_popped signal c s h Hs Hm) by (rewrite Hh; apply popHistory_snoc).
  cbn [mounted bitmap history setBitmap setHistory].
  split; [exact Hm |]. split; [| reflexivity].
  apply restore_same; assumption.
Qed.

Lemma undoClicks_succ (signal : Z) (n : nat) (c : Canvas) :
  undoClicks signal (S n) c
  = undoEffect (signal + 1 + Z.of_nat n) (undoClicks signal n c).
Proof.
  unfold undoClicks.
  replace (Z.of_nat (S n)) with (Z.of_nat n + 1) by lia.
  rewrite seqZ_app by lia. rewrite fold_left_app. reflexivity.
Qed.

End UndoFacts.

(** X13.  Undo right after a gesture brings back the buffer as it was
    before the gesture, pixel for pixel, whatever the tool and whatever the
    gesture drew, provided the snapshot was captured at pointer down.  The
    history is back to what it was, less its oldest entry when it was
    full. *)
Theorem undo_after_gesture_restores {R : Canvas2D}
    (props : Props) (down : PointerEvent) (moves : list PointerEvent) (up : PointerEvent)
    (signal : Z) (c : Canvas) :
  mounted c = true -> wellFormed (bitmap c) -> snapshotReadable down = true ->
  signal <> 0 ->
  let c' := undoEffect signal (gesture props down moves up c) in
  bitmap c' = bitmap c
  /\ history c' = if (25 <=? length (history c))%nat then tail (history c) else history c.
Proof.
  intros Hm Hwf Hr Hs c'. subst c'.
  destruct (gesture_frame props down moves up c Hm Hwf Hr) as (Hm' & Hh & Hsz).
  destruct (undoEffect_after_push signal (gesture props down moves up c) (bitmap c)
              (if (historyLimit <=? length (history c))%nat then tail (history c)
               else history c) Hs Hm' Hh Hwf Hsz) as (_ & Hb & Hh').
  split; [exact Hb | exact Hh'].
Qed.

Lemma undo_after_gesture_restores_witness :
  bitmap (undoEffect 1 (gesture (sampleProps fill "#ff0000") (eventAt 1 true)
                          [eventAt 2 true] (eventAt 3 true) strip))
  = whiteImage 4 1.
Proof.
  apply (undo_after_gesture_restores (sampleProps fill "#ff0000") (eventAt 1 true)
           [eventAt 2 true] (eventAt 3 true) 1 strip).
  - reflexivity.
  - unfold wellFormed, strip, whiteImage. cbn [bitmap freshCanvas width height data].
    split; [lia | split; [lia | reflexivity]].
  - reflexivity.
  - lia.
Defined.

(** X14.  After [n] gestures whose snapshots were captured and that fit in
    the history without eviction, [n] presses of the undo button bring
    back the buffer and the history as they were before the first of
    them. *)
Theorem undo_all_gestures_restores {R : Canvas2D} (gs : list Gesture) (signal : Z)
    (c : Canvas) :
  mounted c = true -> wellFormed (bitmap c) ->
  Forall (fun g => snapshotReadable (gDown g) = true) gs ->
  (length (history c) + length gs <= 25)%nat -> 0 <= signal ->
  let c' := undoClicks signal (length gs) (runGestures gs c) in
  mounted c' = true /\ bitmap c' = bitmap c /\ history c' = history c.
Proof.
  revert c. induction gs as [| g gs IH]; intros c Hm Hwf Hall Hlen Hsig c'; subst c'.
  - cbn. auto.
  - apply Forall_cons in Hall as [Hg Hall]. cbn [length] in *.
    rewrite undoClicks_succ. unfold runGestures. cbn [fold_left].
    set (c1 := gesture (gProps g) (gDown g) (gMoves g) (gUp g) c).
    fold (runGestures gs c1).
    destruct (gesture_frame (gProps g) (gDown g) (gMoves g) (gUp g) c Hm Hwf Hg)
      as (Hm1 & Hh1 & Hs1). fold c1 in Hm1, Hh1, Hs1.
    rewrite pushHistory_room in Hh1 by (unfold historyLimit; lia).
    assert (Hwf1 : wellFormed (bitmap c1))
      by (eapply sameSize_wellFormed; [exact Hs1 | exact Hwf]).
    destruct (IH c1 Hm1 Hwf1 Hall) as (Hm2 & Hb2 & Hh2);
      [rewrite Hh1, length_app; cbn [length]; lia | exact Hsig |].
    apply undoEffect_after_push; try assumption.
    + lia.
    + rewrite Hh2. exact Hh1.
    + rewrite Hb2. exact Hs1.
Qed.

Lemma undo_all_gestures_restores_witness :
  let gs := [mkGesture (sampleProps pencil "#ff0000") (eventAt 0 true) [eventAt 1 true]
               (eventAt 1 true);
             mkGesture (sampleProps fill "#00ff00") (eventAt 3 true) [] (eventAt 3 true);
             mkGesture (sampleProps rectangle "#0000ff") (eventAt 0 true) [eventAt 2 true]
               (eventAt 3 true)] in
  bitmap (undoClicks 0 3 (runGestures gs strip)) = whiteImage 4 1.
Proof.
  intros gs.
  apply (undo_all_gestures_restores gs 0 strip).
  - reflexivity.
  - unfold wellFormed, strip, whiteImage. cbn [bitmap freshCanvas width height data].
    split; [lia | split; [lia | reflexivity]].
  - repeat constructor.
  - cbn. lia.
  - lia.
Defined.

(** ** Gestures that end early, and the fill tool *)

Section InertFacts.

Context {R : Canvas2D}.

Lemma moves_inert (props : Props) (moves : list PointerEvent) (c : Canvas) :
  isDrawing c = false ->
  fold_left (fun c' ev => handlePointerMove props ev c') moves c = c.
Proof.
  intros Hd. induction moves as [| ev moves IH]; [reflexivity |].
  cbn [fold_left]. rewrite (proj1 (handlePointerMove_pen props ev c) Hd). exact IH.
Qed.

Lemma drawPreviewShape_no_start (props : Props) (cur : Point) (c : Canvas) :
  shapeStart c = None -> drawPreviewShape props cur c = c.
Proof.
  intros Hs. unfold drawPreviewShape. rewrite Hs. destruct (negb (mounted c)); reflexivity.
Qed.

End InertFacts.

(** X15.  The fill tool has no drag: on an idle canvas the fill is done at
    pointer down, the moves of the gesture change nothing at all, and the
    pointer up leaves the buffer as the fill left it. *)
Theorem fill_gesture_is_done_at_pointer_down {R : Canvas2D}
    (props : Props) (down : PointerEvent) (moves : list PointerEvent) (up : PointerEvent)
    (c : Canvas) :
  mounted c = true -> isDrawing c = false -> tool props = fill ->
  previewAfter props down moves c = handlePointerDown props down c
  /\ bitmap (gesture props down moves up c) = bitmap (handlePointerDown props down c)
  /\ isDrawing (gesture props down moves up c) = false.
Proof.
  intros Hm Hd Ht.
  assert (Hd1 : isDrawing (handlePointerDown props down c) = false).
  { rewrite handlePointerDown_fill by assumption.
    destruct (floodFill_frame props down
                (fst (pushSnapshotForUndo (snapshotReadable down) c))) as (_ & -> & _).
    destruct (pushSnapshotForUndo_frame (snapshotReadable down) c) as (_ & _ & -> & _).
    exact Hd. }
  assert (Hmoves : previewAfter props down moves c = handlePointerDown props down c)
    by (unfold previewAfter; apply moves_inert, Hd1).
  split; [exact Hmoves |].
  unfold gesture. fold (previewAfter props down moves c). rewrite Hmoves.
  unfold handlePointerUp. rewrite Ht. cbn [isShapeTool].
  destruct (stopDrawing_bitmap props (handlePointerDown props down c)) as [Hb Hstop].
  split; [exact Hb |]. apply Hstop.
  rewrite (proj1 (handlePointerDown_pen props down c)). exact Hm.
Qed.

Lemma fill_gesture_is_done_at_pointer_down_witness :
  bitmap (gesture (sampleProps fill "#ff0000") (eventAt 1 true) [eventAt 2 true; eventAt 3 true]
            (eventAt 3 true) strip)
  = bitmap (handlePointerDown (sampleProps fill "#ff0000") (eventAt 1 true) strip).
Proof.
  apply (fill_gesture_is_done_at_pointer_down (sampleProps fill "#ff0000") (eventAt 1 true)
           [eventAt 2 true; eventAt 3 true] (eventAt 3 true) strip); reflexivity.
Defined.

(** X16.  Once the pointer has left the canvas or the gesture was
    cancelled, the rest of the drag is ignored: a move changes nothing, and
    a pointer up draws nothing and pushes nothing, whatever the tool; what
    was drawn before stays. *)
Theorem drag_is_ignored_after_leave {R : Canvas2D}
    (props props' : Props) (ev : PointerEvent) (c : Canvas) :
  let left := handlePointerLeave props c in
  handlePointerCancel props c = left
  /\ bitmap left = bitmap c
  /\ handlePointerMove props' ev left = left
  /\ bitmap (handlePointerUp props' ev left) = bitmap c
  /\ history (handlePointerUp props' ev left) = history c.
Proof.
  intros left. subst left. unfold handlePointerLeave, handlePointerCancel.
  destruct (stopDrawing_bitmap props c) as [Hb _].
  split; [reflexivity |]. split; [exact Hb |].
  destruct (stopDrawing_pen props c) as (Hm & Hstop).
  destruct (mounted c) eqn:Hmc.
  - destruct (Hstop eq_refl) as (Hd & Hs & _).
    split; [apply handlePointerMove_pen, Hd |].
    unfold handlePointerUp.
    assert (Hx : (if isShapeTool (tool props')
                  then drawPreviewShape props' (point ev) (stopDrawing props c)
                  else stopDrawing props c) = stopDrawing props c).
    { destruct (isShapeTool (tool props')); [apply drawPreviewShape_no_start, Hs | reflexivity]. }
    rewrite Hx. rewrite (proj1 (stopDrawing_bitmap props' _)), Hb.
    rewrite !stopDrawing_history. auto.
  - assert (Hc : stopDrawing props c = c) by (unfold stopDrawing; rewrite Hmc; reflexivity).
    rewrite Hc. split.
    + unfold handlePointerMove. rewrite Hmc. destruct (negb (isDrawing c)); reflexivity.
    + rewrite handlePointerUp_history. split; [| reflexivity].
      unfold handlePointerUp. rewrite (proj1 (stopDrawing_bitmap props' _)).
      unfold drawPreviewShape. rewrite Hmc.
      destruct (isShapeTool (tool props')); reflexivity.
Qed.

(** ** Pixels of a bitmap written with [putImageData] *)

Section PutPixelFacts.

Lemma index_split (W x y : Z) :
  0 <= x < W -> (y * W + x) mod W = x /\ (y * W + x) / W = y.
Proof.
  intros Hx. split; symmetry.
  - apply (Z.mod_unique _ _ y); [lia | lia].
  - apply (Z.div_unique _ _ _ x); [lia | lia].
Qed.

Lemma channel_split (p k : Z) :
  0 <= k < 4 -> (p * 4 + k) / 4 = p /\ (p * 4 + k) mod 4 = k.
Proof.
  intros Hk. split; symmetry.
  - apply (Z.div_unique _ _ _ k); [lia | lia].
  - apply (Z.mod_unique _ _ p); [lia | lia].
Qed.

Lemma getAt_imap (f : nat -> Z -> Z) (d : list Z) (i : Z) :
  getAt (imap f d) i = f (Z.to_nat i) <$> getAt d i.
Proof.
  unfold getAt. destruct (i <? 0); [reflexivity |]. apply list_lookup_imap.
Qed.

(** One channel of a pixel inside the bitmap after [putImageData]. *)
Lemma getAt_putImageData (img bmp : ImageData) (x y k o : Z) :
  0 <= x < width bmp -> 0 <= y -> 0 <= k < 4 ->
  o = pixelOffset (width bmp) x y + k ->
  getAt (data (putImageData img bmp)) o
  = (fun old => if (x <? width img) && (y <? height img)
                then default old (getAt (data img) (pixelOffset (width img) x y + k))
                else old) <$> getAt (data bmp) o.
Proof.
  intros Hx Hy Hk ->. unfold putImageData. cbn [data width]. rewrite getAt_imap.
  assert (Ho : 0 <= pixelOffset (width bmp) x y + k) by (unfold pixelOffset; nia).
  rewrite Z2Nat.id by exact Ho. unfold pixelOffset.
  destruct (channel_split (y * width bmp + x) k Hk) as [-> ->].
  destruct (index_split (width bmp) x y Hx) as [-> ->]. reflexivity.
Qed.

Lemma readQuad_putImageData (img bmp : ImageData) (x y : Z) :
  0 <= x < width bmp -> 0 <= y ->
  readQuad (data (putImageData img bmp)) (pixelOffset (width bmp) x y)
  = match readQuad (data bmp) (pixelOffset (width bmp) x y) with
    | Some (o0, o1, o2, o3) =>
        if (x <? width img) && (y <? height img)
        then
          let o := pixelOffset (width img) x y in
          Some (default o0 (getAt (data img) (o + 0)), default o1 (getAt (data img) (o + 1)),
                default o2 (getAt (data img) (o + 2)), default o3 (getAt (data img) (o + 3)))
        else Some (o0, o1, o2, o3)
    | None => None
    end.
Proof.
  intros Hx Hy. unfold readQuad.
  rewrite (getAt_putImageData img bmp x y 0) by (first [assumption | lia]).
  rewrite (getAt_putImageData img bmp x y 1) by (first [assumption | lia]).
  rewrite (getAt_putImageData img bmp x y 2) by (first [assumption | lia]).
  rewrite (getAt_putImageData img bmp x y 3) by (first [assumption | lia]).
  destruct (getAt (data bmp) (pixelOffset (width bmp) x y)) as [o0 |]; [| reflexivity].
  destruct (getAt (data bmp) (pixelOffset (width bmp) x y + 1)) as [o1 |]; [| reflexivity].
  destruct (getAt (data bmp) (pixelOffset (width bmp) x y + 2)) as [o2 |]; [| reflexivity].
  destruct (getAt (data bmp) (pixelOffset (width bmp) x y + 3)) as [o3 |]; [| reflexivity].
  cbn. destruct ((x <? width img) && (y <? height img)); reflexivity.
Qed.

(** A pixel of the bitmap after [putImageData]: inside the image it is the
    pixel of the image, elsewhere it is the pixel the bitmap had. *)
Lemma getPixel_putImageData (img bmp : ImageData) (x y : Z) :
  wellFormed img -> wellFormed bmp ->
  0 <= x < width bmp -> 0 <= y < height bmp ->
  getPixel (putImageData img bmp) x y
  = if (x <? width img) && (y <? height img) then getPixel img x y else getPixel bmp x y.
Proof.
  intros (HWi & HHi & Hli) (HWb & HHb & Hlb) Hx Hy.
  unfold getPixel at 1. change (width (putImageData img bmp)) with (width bmp).
  rewrite readQuad_putImageData by lia.
  destruct (pixelOffset_range (width bmp) (height bmp) x y (data bmp) Hlb Hx Hy) as [Hlo Hhi].
  destruct (readQuad_in_range (data bmp) _ Hlo Hhi) as [[[[o0 o1] o2] o3] Hq].
  unfold getPixel at 2. rewrite Hq.
  destruct ((x <? width img) && (y <? height img)) eqn:Hin; [| reflexivity].
  apply andb_true_iff in Hin as [Hxi Hyi]. apply Z.ltb_lt in Hxi, Hyi.
  destruct (pixelOffset_range (width img) (height img) x y (data img) Hli) as [Hlo' Hhi'];
    [lia | lia |].
  unfold getPixel, readQuad. rewrite Z.add_0_r.
  destruct (getAt_in_range (data img) (pixelOffset (width img) x y)) as [v0 ->]; [lia |].
  destruct (getAt_in_range (data img) (pixelOffset (width img) x y + 1)) as [v1 ->]; [lia |].
  destruct (getAt_in_range (data img) (pixelOffset (width img) x y + 2)) as [v2 ->]; [lia |].
  destruct (getAt_in_range (data img) (pixelOffset (width img) x y + 3)) as [v3 ->]; [lia |].
  reflexivity.
Qed.

Lemma getPixel_uniform (w h v x y : Z) :
  0 <= x < w -> 0 <= y < h ->
  getPixel (mkImageData w h (replicate (Z.to_nat (4 * (w * h))) v)) x y = Some (v, v, v, v).
Proof.
  intros Hx Hy. unfold getPixel, readQuad, getAt. cbn [width data].
  pose proof (index_range w h x y Hx Hy) as Hi. unfold pixelOffset.
  repeat match goal with
         | |- context [?o <? 0] => destruct (o <? 0) eqn:?; [lia |]
         end.
  rewrite !lookup_replicate_2 by lia. reflexivity.
Qed.

End PutPixelFacts.

(** ** Resize *)

(** X17.  A resize keeps the drawing anchored at the origin and does not
    scale it: every pixel of the new buffer that lay in the old buffer has
    the colour it had, and every other pixel is transparent black. *)
Theorem resize_keeps_content_at_origin {R : Canvas2D}
    (newWidth newHeight : Z) (scale : Transform) (c : Canvas) (x y : Z) :
  mounted c = true -> wellFormed (bitmap c) ->
  0 < width (bitmap c) -> 0 < height (bitmap c) ->
  0 <= x < newWidth -> 0 <= y < newHeight ->
  getPixel (bitmap (resizeToContainer newWidth newHeight scale true c)) x y
  = if (x <? width (bitmap c)) && (y <? height (bitmap c))
    then getPixel (bitmap c) x y
    else Some (0, 0, 0, 0).
Proof.
  intros Hm Hwf Hw Hh Hx Hy. rewrite resizeToContainer_mounted by exact Hm.
  cbn [bitmap].
  rewrite (proj2 (Z.ltb_lt _ _) Hw), (proj2 (Z.ltb_lt _ _) Hh). cbn [andb getImageData].
  rewrite getPixel_putImageData;
    [| exact Hwf | apply blankImage_wellFormed; lia | exact Hx | exact Hy].
  destruct ((x <? width (bitmap c)) && (y <? height (bitmap c))); [reflexivity |].
  apply getPixel_uniform; assumption.
Qed.

Lemma resize_keeps_content_at_origin_witness :
  getPixel (bitmap (@resizeToContainer pointRaster 6 2 2 true strip)) 3 0 = Some (255, 255, 255, 255)
  /\ getPixel (bitmap (@resizeToContainer pointRaster 6 2 2 true strip)) 4 1 = Some (0, 0, 0, 0).
Proof.
  assert (Hwf : wellFormed (bitmap strip)).
  { unfold wellFormed, strip, whiteImage. cbn [bitmap freshCanvas width height data].
    split; [lia | split; [lia | reflexivity]]. }
  split.
  - apply (@resize_keeps_content_at_origin pointRaster 6 2 2 strip 3 0 eq_refl Hwf); cbn; lia.
  - apply (@resize_keeps_content_at_origin pointRaster 6 2 2 strip 4 1 eq_refl Hwf); cbn; lia.
Defined.

(** X18.  A resize of a buffer that has pixels to the size it already has
    changes no pixel when the read of the old pixels returns, so repeated
    resize notifications do not harm the drawing; when that read throws,
    the buffer becomes opaque white and the drawing is lost. *)
Theorem resize_to_same_size_keeps_bitmap {R : Canvas2D}
    (scale : Transform) (readable : bool) (c : Canvas) :
  mounted c = true -> wellFormed (bitmap c) ->
  0 < width (bitmap c) -> 0 < height (bitmap c) ->
  bitmap (resizeToContainer (width (bitmap c)) (height (bitmap c)) scale readable c)
  = if readable then bitmap c
    else whiteImage (width (bitmap c)) (height (bitmap c)).
Proof.
  intros Hm Hwf Hw Hh. rewrite resizeToContainer_mounted by exact Hm. cbn [bitmap].
  rewrite (proj2 (Z.ltb_lt _ _) Hw), (proj2 (Z.ltb_lt _ _) Hh). cbn [andb].
  destruct readable; cbn [getImageData]; [| reflexivity].
  apply putImageData_same; [exact Hwf | reflexivity | reflexivity |].
  destruct Hwf as (_ & _ & Hl). cbn [blankImage data]. rewrite length_replicate.
  apply Nat2Z.inj. rewrite Hl. lia.
Qed.

Lemma resize_to_same_size_keeps_bitmap_witness :
  let drawn := handlePointerDown (sampleProps pencil "#000000") (eventAt 1 true) strip in
  bitmap (@resizeToContainer pointRaster 4 1 2 true drawn) = bitmap drawn
  /\ bitmap (@resizeToContainer pointRaster 4 1 2 false drawn) = whiteImage 4 1
  /\ bitmap drawn <> whiteImage 4 1.
Proof.
  intros drawn.
  assert (Hwf : wellFormed (bitmap drawn)).
  { unfold wellFormed. split; [vm_compute; discriminate |].
    split; [vm_compute; discriminate | vm_compute; reflexivity]. }
  split; [| split].
  - apply (@resize_to_same_size_keeps_bitmap pointRaster 2 true drawn eq_refl Hwf);
      reflexivity.
  - apply (@resize_to_same_size_keeps_bitmap pointRaster 2 false drawn eq_refl Hwf);
      reflexivity.
  - intros E. apply (f_equal data) in E. vm_compute in E. discriminate E.
Defined.

(** X19.  When the old buffer has no pixels or cannot be read, the resized
    buffer is opaque white: the previous drawing is lost, not kept. *)
Theorem resize_without_content_is_white {R : Canvas2D}
    (newWidth newHeight : Z) (scale : Transform) (readable : bool) (c : Canvas) :
  mounted c = true ->
  readable = false \/ width (bitmap c) <= 0 \/ height (bitmap c) <= 0 ->
  bitmap (resizeToContainer newWidth newHeight scale readable c)
  = whiteImage newWidth newHeight.
Proof.
  intros Hm Hno. rewrite resizeToContainer_mounted by exact Hm. cbn [bitmap].
  assert (E : (if (0 <? width (bitmap c)) && (0 <? height (bitmap c))
               then getImageData readable (bitmap c) else None) = None).
  { destruct Hno as [-> | [Hw | Hh]].
    - destruct (_ && _); reflexivity.
    - rewrite (proj2 (Z.ltb_ge _ _) Hw). reflexivity.
    - rewrite (proj2 (Z.ltb_ge _ _) Hh), andb_false_r. reflexivity. }
  rewrite E. reflexivity.
Qed.

Lemma resize_without_content_is_white_witness :
  bitmap (@resizeToContainer pointRaster 2 2 1 false strip) = whiteImage 2 2
  /\ bitmap (@resizeToContainer pointRaster 2 2 1 true (@freshCanvas pointRaster 1 (blankImage 0 0)))
     = whiteImage 2 2.
Proof.
  split.
  - apply (@resize_without_content_is_white pointRaster 2 2 1 false strip); [reflexivity | left; reflexivity].
  - apply (@resize_without_content_is_white pointRaster 2 2 1 true
             (@freshCanvas pointRaster 1 (blankImage 0 0))); [reflexivity |].
    right. left. cbn. lia.
Defined.

(** X20.  Undo with a snapshot that is smaller than the buffer, as after a
    resize to a larger size, writes the snapshot at the origin and leaves
    the rest of the buffer transparent black; a larger snapshot is cut to
    the buffer. *)
Theorem undo_snapshot_of_other_size {R : Canvas2D}
    (signal : Z) (c : Canvas) (h : list ImageData) (s : ImageData) (x y : Z) :
  signal <> 0 -> mounted c = true -> history c = h ++ [s] ->
  wellFormed s -> wellFormed (bitmap c) ->
  0 <= x < width (bitmap c) -> 0 <= y < height (bitmap c) ->
  getPixel (bitmap (undoEffect signal c)) x y
  = if (x <? width s) && (y <? height s) then getPixel s x y else Some (0, 0, 0, 0).
Proof.
  intros Hs Hm Hh Hwfs Hwf Hx Hy.
  rewrite (undoEffect_popped signal c s h Hs Hm) by (rewrite Hh; apply popHistory_snoc).
  cbn [bitmap setBitmap setHistory].
  assert (Hwfc : wellFormed (clearRectAll (bitmap c)))
    by (eapply sameSize_wellFormed; [apply clearRectAll_sameSize, Hwf | exact Hwf]).
  rewrite getPixel_putImageData; [| exact Hwfs | exact Hwfc | exact Hx | exact Hy].
  destruct ((x <? width s) && (y <? height s)); [reflexivity |].
  apply getPixel_uniform; assumption.
Qed.

Lemma undo_snapshot_of_other_size_witness :
  let c := setHistory [numbered 7] strip in
  getPixel (bitmap (undoEffect 1 c)) 0 0 = Some (7, 7, 7, 255)
  /\ getPixel (bitmap (undoEffect 1 c)) 2 0 = Some (0, 0, 0, 0).
Proof.
  intros c.
  assert (Hwf : wellFormed (bitmap c)).
  { unfold wellFormed, c, strip, whiteImage.
    cbn [bitmap setHistory freshCanvas width height data].
    split; [lia | split; [lia | reflexivity]]. }
  assert (Hs : wellFormed (numbered 7)).
  { unfold wellFormed, numbered. cbn [width height data length].
    split; [lia | split; [lia | reflexivity]]. }
  split.
  - apply (undo_snapshot_of_other_size 1 c [] (numbered 7) 0 0 ltac:(lia) eq_refl eq_refl
             Hs Hwf); cbn; lia.
  - apply (undo_snapshot_of_other_size 1 c [] (numbered 7) 2 0 ltac:(lia) eq_refl eq_refl
             Hs Hwf); cbn; lia.
Defined.



(** ** Clear, load and the signals *)

(** X22.  Clearing and loading are not undoable: right after the clear
    effect, or after a loaded image has been drawn, an undo changes
    nothing, whatever the history held before. *)
Theorem clear_and_load_are_not_undoable {R : Canvas2D}
    (signal : Z) (drawImage : CompositeOperation -> ImageData -> ImageData) (c : Canvas) :
  undoEffect signal (clearEffect c) = clearEffect c
  /\ undoEffect signal (imageLoaded drawImage c) = imageLoaded drawImage c
  /\ (mounted c = true ->
      history (clearEffect c) = [] /\ history (imageLoaded drawImage c) = []).
Proof.
  assert (Hempty : forall x : Canvas, history x = [] -> undoEffect signal x = x).
  { intros x Hx. unfold undoEffect. rewrite Hx.
    destruct (signal =? 0); [reflexivity |]. destruct (negb (mounted x)); reflexivity. }
  assert (Hunmounted : forall x : Canvas, mounted x = false -> undoEffect signal x = x).
  { intros x Hx. unfold undoEffect. rewrite Hx. destruct (signal =? 0); reflexivity. }
  destruct (mounted c) eqn:Hm.
  - assert (H1 : history (clearEffect c) = [])
      by (unfold clearEffect; rewrite Hm; reflexivity).
    assert (H2 : history (imageLoaded drawImage c) = [])
      by (unfold imageLoaded; rewrite Hm; reflexivity).
    split; [apply Hempty, H1 |]. split; [apply Hempty, H2 | auto].
  - assert (H1 : clearEffect c = c) by (unfold clearEffect; rewrite Hm; reflexivity).
    assert (H2 : imageLoaded drawImage c = c)
      by (unfold imageLoaded; rewrite Hm; reflexivity).
    rewrite H1, H2. split; [apply Hunmounted, Hm |].
    split; [apply Hunmounted, Hm | discriminate].
Qed.

Lemma clear_and_load_are_not_undoable_witness :
  history (clearEffect (setHistory [numbered 1; numbered 2] strip)) = []
  /\ history (imageLoaded (fun _ bmp => bmp) (setHistory [numbered 1; numbered 2] strip)) = [].
Proof.
  apply (clear_and_load_are_not_undoable 1 (fun _ bmp => bmp)
           (setHistory [numbered 1; numbered 2] strip)).
  reflexivity.
Defined.

(** X23.  The signals are edge-triggered.  A render that changes neither
    signal touches nothing; a press of the undo button runs exactly the
    undo effect, and with a signal that started at 0 it pops one snapshot;
    a press of the clear button runs exactly the clear effect. *)
Theorem signals_are_edge_triggered {R : Canvas2D} (p next : Props) (c : Canvas) :
  (clearSignal next = clearSignal p -> undoSignal next = undoSignal p ->
   runSignalEffects (Some p) next c = c)
  /\ runSignalEffects (Some p) (pressUndo p) c = undoEffect (undoSignal p + 1) c
  /\ runSignalEffects (Some p) (pressClear p) c = clearEffect c
  /\ (0 <= undoSignal p -> mounted c = true ->
      forall h s, history c = h ++ [s] ->
      history (runSignalEffects (Some p) (pressUndo p) c) = h).
Proof.
  assert (Hundo : runSignalEffects (Some p) (pressUndo p) c = undoEffect (undoSignal p + 1) c).
  { unfold runSignalEffects, depChanged, pressUndo. cbn [clearSignal undoSignal].
    rewrite Z.eqb_refl. cbn [negb].
    destruct (undoSignal p =? undoSignal p + 1) eqn:E; [lia | reflexivity]. }
  split; [| split; [exact Hundo | split]].
  - intros Hc Hu. unfold runSignalEffects, depChanged. rewrite Hc, Hu, !Z.eqb_refl.
    reflexivity.
  - unfold runSignalEffects, depChanged, pressClear. cbn [clearSignal undoSignal].
    rewrite Z.eqb_refl. cbn [negb].
    destruct (clearSignal p =? clearSignal p + 1) eqn:E; [lia | reflexivity].
  - intros Hsig Hm h s Hh. rewrite Hundo.
    rewrite (undoEffect_popped (undoSignal p + 1) c s h) by
      first [lia | exact Hm | rewrite Hh; apply popHistory_snoc].
    reflexivity.
Qed.

Lemma signals_are_edge_triggered_witness :
  runSignalEffects (Some (sampleProps pencil "#ff0000")) (sampleProps fill "#00ff00")
    (setHistory [numbered 1] strip)
  = setHistory [numbered 1] strip
  /\ history (runSignalEffects (Some (sampleProps pencil "#ff0000"))
                (pressUndo (sampleProps pencil "#ff0000"))
                (setHistory [numbered 1; numbered 2] strip))
     = [numbered 1].
Proof.
  split.
  - apply (signals_are_edge_triggered (sampleProps pencil "#ff0000")
             (sampleProps fill "#00ff00")); reflexivity.
  - apply (proj2 (proj2 (proj2 (signals_are_edge_triggered (sampleProps pencil "#ff0000")
                                  (sampleProps pencil "#ff0000")
                                  (setHistory [numbered 1; numbered 2] strip))))
             ltac:(cbn; lia) eq_refl [numbered 1] (numbered 2) eq_refl).
Defined.

(** X24.  When the pixel read of the flood fill throws, nothing is drawn
    and no drag starts, but the snapshot taken just before stays in the
    history, and the context is left with the identity transformation. *)
Theorem fill_read_failure_draws_nothing {R : Canvas2D}
    (props : Props) (ev : PointerEvent) (c : Canvas) :
  mounted c = true -> tool props = fill -> fillReadable ev = false ->
  let c' := handlePointerDown props ev c in
  bitmap c' = bitmap c
  /\ isDrawing c' = isDrawing c
  /\ transform c' = identityTransform
  /\ history c' = if snapshotReadable ev then pushHistory (bitmap c) (history c)
                  else history c.
Proof.
  intros Hm Ht Hf c'. subst c'. rewrite handlePointerDown_fill by assumption.
  unfold floodFill. rewrite Hf.
  destruct (snapshotReadable ev).
  - rewrite pushSnapshotForUndo_captured. cbn [fst mounted setHistory]. rewrite Hm.
    cbn. auto.
  - rewrite pushSnapshotForUndo_failed. cbn [fst mounted setTransform save]. rewrite Hm.
    cbn. auto.
Qed.

Lemma fill_read_failure_draws_nothing_witness :
  let ev := @mkPointerEvent pointRaster (1, 0) (1, 0) true false in
  bitmap (handlePointerDown (sampleProps fill "#ff0000") ev strip2) = whiteImage 4 1
  /\ history (handlePointerDown (sampleProps fill "#ff0000") ev strip2) = [whiteImage 4 1]
  /\ transform (handlePointerDown (sampleProps fill "#ff0000") ev strip2) = 1.
Proof.
  intros ev.
  destruct (fill_read_failure_draws_nothing (sampleProps fill "#ff0000") ev strip2
              eq_refl eq_refl eq_refl) as (Hb & _ & Ht & Hh).
  split; [exact Hb |]. split; [exact Hh | exact Ht].
Defined.

(** X25.  Choosing a colour while the eraser is active switches to the
    pencil: the next pointer down paints with [source-over], in the chosen
    colour when the context accepts it.  With any other tool the choice of
    a colour keeps the tool. *)
Theorem colour_choice_leaves_eraser {R : Canvas2D}
    (value : string) (p : Props) (ev : PointerEvent) (c : Canvas) :
  (tool p <> eraser -> tool (changeColor value p) = tool p)
  /\ (tool p = eraser -> mounted c = true ->
      let c' := handlePointerDown (changeColor value p) ev c in
      tool (changeColor value p) = pencil
      /\ globalCompositeOperation c' = SourceOver
      /\ isDrawing c' = true
      /\ (validStyle value = true -> strokeStyle c' = value)).
Proof.
  split.
  - intros Hne. unfold changeColor. cbn [tool]. destruct (tool p); congruence.
  - intros Ht Hm c'. subst c'.
    unfold handlePointerDown, pushSnapshotForUndo, changeColor. rewrite Hm, Ht.
    cbn [tool color brushSize negb].
    destruct c as [m bmp tr lw ss fs op sv pa dr hi st sn].
    destruct (snapshotReadable ev); cbn;
      (split; [reflexivity |]; split; [reflexivity |]; split; [reflexivity |]);
      intros ->; reflexivity.
Qed.

Lemma colour_choice_leaves_eraser_witness :
  tool (changeColor "#00ff00" (sampleProps line "#ff0000")) = line
  /\ strokeStyle (handlePointerDown (changeColor "#00ff00" (sampleProps eraser "#ff0000"))
                    (eventAt 1 true) strip) = "#00ff00"%string.
Proof.
  split.
  - apply (proj1 (colour_choice_leaves_eraser "#00ff00" (sampleProps line "#ff0000")
                    (eventAt 1 true) strip)). discriminate.
  - apply (proj2 (colour_choice_leaves_eraser "#00ff00" (sampleProps eraser "#ff0000")
                    (eventAt 1 true) strip) eq_refl eq_refl). reflexivity.
Defined.

(** * The fill, the history and a failed capture, on the canvas *)

(** ** The fill on the buffer of the canvas *)

Section CanvasFillFacts.

Context {R : Canvas2D}.

(** [floodFill] on a mounted canvas whose pixels it can read: the image
    left by the loop is written back and becomes the buffer; nothing else
    of the canvas changes. *)
Lemma floodFill_repainted (props : Props) (ev : PointerEvent) (c : Canvas)
    (img' : ImageData) (trace : list (Z * Z)) :
  mounted c = true -> fillReadable ev = true -> wellFormed (bitmap c) ->
  floodFillImage (color props) (pixel ev) (bitmap c) = Repainted img' trace ->
  floodFill props ev c = setBitmap img' c.
Proof.
  intros Hm Hr Hwf Hrun.
  assert (Hf : filledImage (color props) (pixel ev) (bitmap c) = Some img')
    by (unfold filledImage; rewrite Hrun; reflexivity).
  destruct (filledImage_sameSize _ _ _ _ Hf) as (Hw & Hh & Hl).
  unfold floodFill. rewrite Hm, Hr. cbn [negb getImageData bitmap setTransform save].
  rewrite Hrun, restore_after_save. f_equal.
  apply putImageData_same; [| auto | auto | auto].
  destruct Hwf as (HW & HH & Hlen). unfold wellFormed. rewrite Hw, Hh, Hl. auto.
Qed.

End CanvasFillFacts.

(** C1.  [floodFill] reads the buffer of the canvas, runs its loop on the
    copy and writes the copy back.  On a buffer that it reads and a seed
    inside it whose colour does not match the fill colour under tolerance
    26, the buffer of the canvas afterwards is the buffer before with
    exactly the 4-connected region of the seed repainted: every pixel linked
    to the seed through pixels that match the seed's original colour under
    the tolerance has the fill colour and was written by exactly one call of
    [setPixel]; every other pixel was never written and has its original
    value.  Nothing else of the canvas changes, and a pointer down with the
    fill tool leaves this buffer. *)
Theorem floodFill_repaints_region {R : Canvas2D}
    (props : Props) (ev : PointerEvent) (c : Canvas) (tq : Quad) :
  mounted c = true -> fillReadable ev = true ->
  wellFormed (bitmap c) -> inBounds (bitmap c) (pixel ev) ->
  getPixel (bitmap c) (fst (pixel ev)) (snd (pixel ev)) = Some tq ->
  colorsMatch tq (hexToRgba (color props)) defaultTolerance = false ->
  let c' := floodFill props ev c in
  let region := connected (bitmap c) (rgbaOfQuad tq) (pixel ev) in
  exists trace : list (Z * Z),
    floodFillImage (color props) (pixel ev) (bitmap c) = Repainted (bitmap c') trace
    /\ c' = setBitmap (bitmap c') c
    /\ sameSize (bitmap c') (bitmap c)
    /\ (forall p, region p ->
          getPixel (bitmap c') (fst p) (snd p) = Some (quadOf (hexToRgba (color props)))
          /\ paintCount p trace = 1%nat)
    /\ (forall p, ~ region p ->
          paintCount p trace = 0%nat
          /\ (inBounds (bitmap c) p ->
              getPixel (bitmap c') (fst p) (snd p) = getPixel (bitmap c) (fst p) (snd p)))
    /\ (tool props = fill -> bitmap (handlePointerDown props ev c) = bitmap c').
Proof.
  intros Hm Hr Hwf Hin Hpx Hdiff c' region. subst c' region.
  destruct (pixel ev) as [sx sy] eqn:Hp. cbn [fst snd] in Hpx.
  destruct (floodFillImage_repaints (color props) (bitmap c) sx sy tq Hwf Hin Hpx Hdiff)
    as (img' & trace & Hrun & Hw & Hh & Hl & Hreg & Hout).
  assert (Hff : floodFill props ev c = setBitmap img' c).
  { apply (floodFill_repainted props ev c img' trace Hm Hr Hwf). rewrite Hp. exact Hrun. }
  exists trace. rewrite Hff. cbn [bitmap setBitmap].
  split; [exact Hrun |]. split; [reflexivity |].
  split; [repeat split; assumption |].
  split; [exact Hreg |]. split; [exact Hout |].
  intros Ht. rewrite handlePointerDown_fill by assumption.
  destruct (pushSnapshotForUndo_frame (snapshotReadable ev) c) as (Hm1 & Hb1 & _).
  rewrite (floodFill_bitmap_ext props ev ev c _ Hm1 Hb1 eq_refl eq_refl).
  rewrite Hff. reflexivity.
Qed.

Lemma floodFill_repaints_region_witness :
  let c := @freshCanvas pointRaster 1 demo in
  let c' := floodFill (sampleProps fill "#00ff00") (eventAt 0 true) c in
  exists trace : list (Z * Z),
    floodFillImage "#00ff00" (0, 0) demo = Repainted (bitmap c') trace
    /\ c' = setBitmap (bitmap c') c
    /\ sameSize (bitmap c') demo
    /\ (forall p, connected demo (mkRgba 255 255 255 255) (0, 0) p ->
          getPixel (bitmap c') (fst p) (snd p) = Some (0, 255, 0, 255)
          /\ paintCount p trace = 1%nat)
    /\ (forall p, ~ connected demo (mkRgba 255 255 255 255) (0, 0) p ->
          paintCount p trace = 0%nat
          /\ (inBounds demo p ->
              getPixel (bitmap c') (fst p) (snd p) = getPixel demo (fst p) (snd p)))
    /\ bitmap (handlePointerDown (sampleProps fill "#00ff00") (eventAt 0 true) c) = bitmap c'.
Proof.
  destruct (floodFill_repaints_region (sampleProps fill "#00ff00") (eventAt 0 true)
              (@freshCanvas pointRaster 1 demo) (255, 255, 255, 255))
    as (trace & Hrun & Hrest & Hsize & Hregion & Hout & Hdown).
  - reflexivity.
  - reflexivity.
  - exact demo_wellFormed.
  - unfold inBounds; cbn; lia.
  - reflexivity.
  - reflexivity.
  - exists trace. split; [exact Hrun |]. split; [exact Hrest |]. split; [exact Hsize |].
    split; [exact Hregion |]. split; [exact Hout |]. apply Hdown. reflexivity.
Defined.

Example floodFill_demo_canvas :
  data (bitmap (handlePointerDown (sampleProps fill "#00ff00") (eventAt 0 true)
                  (@freshCanvas pointRaster 1 demo)))
  = [0; 255; 0; 255;   0; 0; 0; 255;   255; 255; 255; 255;
     0; 255; 0; 255;   0; 0; 0; 255;   250; 250; 250; 255].
Proof. vm_compute. reflexivity. Qed.

(** ** The history on the canvas *)

Section CanvasHistoryFacts.

Context {R : Canvas2D}.

Lemma pushSnapshotForUndo_history (readable : bool) (c : Canvas) :
  history (fst (pushSnapshotForUndo readable c))
  = if readable then pushHistory (bitmap c) (history c) else history c.
Proof.
  destruct (pushSnapshotForUndo_frame readable c) as (_ & _ & _ & Hh).
  rewrite Hh. destruct readable; reflexivity.
Qed.

(** What [pushEach] leaves of the canvas. *)
Lemma pushEach_frame (shown : list ImageData) (c : Canvas) :
  mounted (pushEach shown c) = mounted c
  /\ history (pushEach shown c) = fold_left (fun h s => pushHistory s h) shown (history c).
Proof.
  unfold pushEach. revert c. induction shown as [| s shown IH]; intros c.
  - cbn. auto.
  - cbn [fold_left]. rewrite pushSnapshotForUndo_captured. cbn [fst].
    destruct (IH (setHistory (pushHistory (bitmap (setBitmap s c)) (history (setBitmap s c)))
                    (setBitmap s c))) as (Hm & Hh).
    rewrite Hm, Hh. cbn [mounted history bitmap setHistory setBitmap].
    split; reflexivity.
Qed.

Lemma clearRectAll_ext (bmp bmp' : ImageData) :
  width bmp' = width bmp -> height bmp' = height bmp -> clearRectAll bmp' = clearRectAll bmp.
Proof. unfold clearRectAll. intros -> ->. reflexivity. Qed.

(** [k] undos on a history that holds at least [k] snapshots. *)
Lemma undoClicks_run (signal : Z) (c : Canvas) (k : nat) :
  0 <= signal -> mounted c = true -> (k <= length (history c))%nat ->
  mounted (undoClicks signal k c) = true
  /\ history (undoClicks signal k c) = take (length (history c) - k) (history c)
  /\ width (bitmap (undoClicks signal k c)) = width (bitmap c)
  /\ height (bitmap (undoClicks signal k c)) = height (bitmap c)
  /\ (forall s, (k < length (history c))%nat ->
        history c !! (length (history c) - S k)%nat = Some s ->
        undoClicks signal (S k) c
        = setBitmap (putImageData s (clearRectAll (bitmap c)))
            (setHistory (take (length (history c) - S k) (history c))
               (undoClicks signal k c))).
Proof.
  intros Hsig Hm. induction k as [| k IH]; intros Hk.
  - assert (H0 : undoClicks signal 0 c = c) by reflexivity.
    rewrite H0, Nat.sub_0_r, take_ge by lia.
    split; [exact Hm |]. split; [reflexivity |]. split; [reflexivity |].
    split; [reflexivity |]. intros s Hlt Hs.
    rewrite undoClicks_succ, H0.
    apply undoEffect_popped; [lia | exact Hm |].
    rewrite <- (take_drop (length (history c) - 1) (history c)) at 1.
    assert (Hd : drop (length (history c) - 1) (history c) = [s]).
    { apply list_eq. intros i. rewrite lookup_drop. destruct i as [| i].
      - rewrite Nat.add_0_r. exact Hs.
      - cbn. apply lookup_ge_None. lia. }
    rewrite Hd. apply popHistory_snoc.
  - destruct IH as (Hmk & Hhk & Hwk & Hhtk & Hstep); [lia |].
    destruct (lookup_lt_is_Some_2 (history c) (length (history c) - S k)) as [s Hs]; [lia |].
    specialize (Hstep s ltac:(lia) Hs).
    assert (Hfacts : mounted (undoClicks signal (S k) c) = true
              /\ history (undoClicks signal (S k) c)
                 = take (length (history c) - S k) (history c)
              /\ width (bitmap (undoClicks signal (S k) c)) = width (bitmap c)
              /\ height (bitmap (undoClicks signal (S k) c)) = height (bitmap c)).
    { rewrite Hstep. cbn [mounted history bitmap setBitmap setHistory putImageData
                            clearRectAll width height]. auto. }
    destruct Hfacts as (Hm' & Hh' & Hw' & Hht').
    split; [exact Hm' |]. split; [exact Hh' |]. split; [exact Hw' |].
    split; [exact Hht' |]. intros s' Hlt Hs'.
    rewrite (undoClicks_succ signal (S k)).
    rewrite <- (clearRectAll_ext _ _ Hw' Hht').
    apply undoEffect_popped; [lia | exact Hm' |].
    rewrite Hh'.
    replace (length (history c) - S k)%nat with (S (length (history c) - S (S k))) by lia.
    rewrite (take_S_r _ _ s') by exact Hs'.
    apply popHistory_snoc.
Qed.

(** The undo that follows [k] others writes the snapshot [k] places from
    the end of the history. *)
Lemma undoClicks_restores (signal : Z) (c : Canvas) (k : nat) (s : ImageData) :
  0 <= signal -> mounted c = true -> reverse (history c) !! k = Some s ->
  history (undoClicks signal (S k) c) = take (length (history c) - S k) (history c)
  /\ bitmap (undoClicks signal (S k) c) = putImageData s (clearRectAll (bitmap c)).
Proof.
  intros Hsig Hm Hs. apply reverse_lookup_Some in Hs as [Hs Hk].
  destruct (undoClicks_run signal c k Hsig Hm ltac:(lia)) as (_ & _ & _ & _ & Hstep).
  rewrite (Hstep s Hk Hs). split; reflexivity.
Qed.

(** Undo on an emptied history changes nothing. *)
Lemma undoClicks_exhausted (signal : Z) (c : Canvas) (n : nat) :
  0 <= signal -> mounted c = true -> (length (history c) <= n)%nat ->
  undoClicks signal n c = undoClicks signal (length (history c)) c.
Proof.
  intros Hsig Hm. induction n as [| n IH]; intros Hn.
  - replace (length (history c)) with 0%nat by lia. reflexivity.
  - destruct (Nat.eq_dec (length (history c)) (S n)) as [-> | Hne]; [reflexivity |].
    rewrite undoClicks_succ, IH by lia.
    destruct (undoClicks_run signal c (length (history c)) Hsig Hm ltac:(lia))
      as (_ & Hh & _).
    rewrite Nat.sub_diag, take_0 in Hh.
    unfold undoEffect. rewrite Hh. cbn [popHistory last].
    destruct (_ =? 0); [reflexivity |]. destruct (negb _); reflexivity.
Qed.

End CanvasHistoryFacts.

(** C2.  [pushSnapshotForUndo] never lets the history of the canvas grow
    past 25 snapshots: on a full history it first shifts the oldest entry
    out, then appends the bitmap it captured.  The undo effect takes the
    most recent entry off the history and writes it on the buffer.  So
    after any sequence of pushes the history holds the last 25 of its old
    entries and the captured bitmaps; successive undos write them back
    newest first, each one whole when it has the size of the buffer; once
    they are all written back undo changes nothing.  After 30 pushes these
    are the last 25 captured bitmaps, and the first five are gone. *)
Theorem history_bounded_fifo_lifo {R : Canvas2D} :
  (forall (readable : bool) (c : Canvas),
      (length (history c) <= 25)%nat ->
      (length (history (fst (pushSnapshotForUndo readable c))) <= 25)%nat)
  /\ (forall c : Canvas,
      history (fst (pushSnapshotForUndo true c))
      = (if (25 <=? length (history c))%nat then tail (history c) else history c)
          ++ [bitmap c])
  /\ (forall (signal : Z) (c : Canvas) (h : list ImageData) (s : ImageData),
      signal <> 0 -> mounted c = true -> history c = h ++ [s] ->
      history (undoEffect signal c) = h
      /\ bitmap (undoEffect signal c) = putImageData s (clearRectAll (bitmap c))
      /\ (wellFormed s -> sameSize (bitmap c) s -> bitmap (undoEffect signal c) = s))
  /\ (forall (shown : list ImageData) (signal : Z) (c : Canvas),
      mounted c = true -> (length (history c) <= 25)%nat -> 0 <= signal ->
      let pushed := history c ++ shown in
      let kept := drop (length pushed - 25) pushed in
      let c' := pushEach shown c in
      history c' = kept
      /\ (length kept <= 25)%nat
      /\ (forall (k : nat) (s : ImageData),
            reverse kept !! k = Some s ->
            history (undoClicks signal (S k) c') = take (length kept - S k) kept
            /\ bitmap (undoClicks signal (S k) c') = putImageData s (clearRectAll (bitmap c'))
            /\ (wellFormed s -> sameSize (bitmap c') s ->
                bitmap (undoClicks signal (S k) c') = s))
      /\ (forall n : nat,
            (length kept <= n)%nat ->
            undoClicks signal n c' = undoClicks signal (length kept) c')
      /\ (length shown = 30%nat -> length kept = 25%nat /\ kept = drop 5 shown)).
Proof.
  split.
  { intros readable c Hlen. rewrite pushSnapshotForUndo_history.
    destruct readable; [apply pushHistory_length |]; exact Hlen. }
  split.
  { intros c. rewrite pushSnapshotForUndo_history. reflexivity. }
  split.
  { intros signal c h s Hsig Hm Hh.
    rewrite (undoEffect_popped signal c s h Hsig Hm)
      by (rewrite Hh; apply popHistory_snoc).
    cbn [history bitmap setBitmap setHistory].
    split; [reflexivity |]. split; [reflexivity |].
    intros Hwf (Hw & Hht & _). apply restore_same; assumption. }
  intros shown signal c Hm Hlen Hsig pushed kept c'.
  destruct (pushEach_frame shown c) as (Hm' & Hh'). fold c' in Hm', Hh'.
  rewrite pushHistory_fold in Hh' by exact Hlen. change historyLimit with 25%nat in Hh'.
  fold pushed in Hh'. fold kept in Hh'. rewrite Hm in Hm'.
  assert (Hpushed : length pushed = (length (history c) + length shown)%nat)
    by (subst pushed; apply length_app).
  split; [exact Hh' |]. split; [| split; [| split]].
  - subst kept. rewrite length_drop. lia.
  - intros k s Hs. rewrite <- Hh' in Hs |- *.
    destruct (undoClicks_restores signal c' k s Hsig Hm' Hs) as (Hhk & Hbk).
    split; [exact Hhk |]. split; [exact Hbk |].
    intros Hwf (Hw & Hht & _). rewrite Hbk. apply restore_same; assumption.
  - intros n Hn. rewrite <- Hh' in Hn |- *.
    apply undoClicks_exhausted; assumption.
  - intros H30.
    assert (Hkept : kept = drop 5 shown).
    { subst kept pushed. rewrite Hpushed, H30.
      rewrite drop_app_ge by lia. f_equal. lia. }
    split; [rewrite Hkept, length_drop; lia | exact Hkept].
Qed.

Lemma history_bounded_fifo_lifo_witness :
  let c' := pushEach thirty (@freshCanvas pointRaster 1 (numbered 99)) in
  history c' = drop 5 thirty
  /\ bitmap (undoClicks 0 1 c') = numbered 29
  /\ bitmap (undoClicks 0 2 c') = numbered 28
  /\ bitmap (undoClicks 0 25 c') = numbered 5
  /\ history (undoClicks 0 25 c') = []
  /\ undoClicks 0 26 c' = undoClicks 0 25 c'.
Proof.
  intros c'.
  destruct (@history_bounded_fifo_lifo pointRaster) as (_ & _ & _ & Hseq).
  destruct (Hseq thirty 0 (@freshCanvas pointRaster 1 (numbered 99)) eq_refl
              ltac:(cbn; lia) ltac:(lia)) as (Hh & _ & Hundo & Hend & _).
  fold c' in Hh, Hundo, Hend.
  assert (Hwf : forall n, wellFormed (numbered n))
    by (intros n; unfold wellFormed; cbn; lia).
  assert (Hsz : forall n, sameSize (bitmap c') (numbered n))
    by (intros n; repeat split).
  split; [exact Hh |].
  split; [exact (proj2 (proj2 (Hundo 0%nat (numbered 29) eq_refl)) (Hwf 29) (Hsz 29)) |].
  split; [exact (proj2 (proj2 (Hundo 1%nat (numbered 28) eq_refl)) (Hwf 28) (Hsz 28)) |].
  split; [exact (proj2 (proj2 (Hundo 24%nat (numbered 5) eq_refl)) (Hwf 5) (Hsz 5)) |].
  split; [exact (proj1 (Hundo 24%nat (numbered 5) eq_refl)) |].
  apply (Hend 26%nat). vm_compute. lia.
Defined.

(** ** A capture that fails *)

(** C8.  When [getImageData] throws in [pushSnapshotForUndo] at pointer
    down, the [catch] returns [null]: nothing is pushed on the history and
    the handler goes on with the tool.  But the [catch] does not run
    [context.restore()], so the identity transformation set for the read
    stays in force, with one more saved state.  The dot of the pencil or
    eraser and the shape are then stroked under the identity instead of the
    transformation of the canvas, which a pointer down whose capture
    succeeds uses.  The fill does not use the transformation: it leaves what
    it leaves after a capture, the filled image when its own read returns
    and the buffer as it was when that read throws too. *)
Theorem snapshot_failure_skips_restore {R : Canvas2D}
    (props : Props) (ev : PointerEvent) (c : Canvas) :
  mounted c = true -> wellFormed (bitmap c) -> snapshotReadable ev = false ->
  let failed := handlePointerDown props ev c in
  let captured := handlePointerDown props (withSnapshotReadable true ev) c in
  history failed = history c
  /\ transform failed = identityTransform
  /\ (tool props <> fill \/ fillReadable ev = true ->
      length (saved failed) = S (length (saved c))
      /\ transform captured = transform c /\ saved captured = saved c)
  /\ bitmap failed =
     match tool props with
     | fill => bitmap (floodFill props ev c)
     | pencil =>
         stroke identityTransform (penWidth props c) (penStyle props c) SourceOver
           (dotPath identityTransform (point ev)) (bitmap c)
     | eraser =>
         stroke identityTransform (penWidth props c) (penStyle props c) DestinationOut
           (dotPath identityTransform (point ev)) (bitmap c)
     | t => renderShape t identityTransform (penWidth props c) (penStyle props c)
              (point ev) (point ev) (bitmap c)
     end
  /\ bitmap captured =
     match tool props with
     | fill => bitmap (floodFill props ev c)
     | pencil =>
         stroke (transform c) (penWidth props c) (penStyle props c) SourceOver
           (dotPath (transform c) (point ev)) (bitmap c)
     | eraser =>
         stroke (transform c) (penWidth props c) (penStyle props c) DestinationOut
           (dotPath (transform c) (point ev)) (bitmap c)
     | t => renderShape t (transform c) (penWidth props c) (penStyle props c)
              (point ev) (point ev) (bitmap c)
     end
  /\ (tool props <> fill -> isDrawing failed = true)
  /\ (tool props = fill -> fillReadable ev = true ->
      filledImage (color props) (pixel ev) (bitmap c) = Some (bitmap failed))
  /\ (tool props = fill -> fillReadable ev = false -> bitmap failed = bitmap c).
Proof.
  intros Hm Hwf Hr failed captured. subst failed captured.
  split.
  { rewrite handlePointerDown_history by exact Hm. rewrite Hr. reflexivity. }
  split.
  { destruct (tool props) eqn:Ht.
    1, 2, 3, 4, 5:
      destruct (handlePointerDown_context props ev c Hm) as (-> & _);
        [left; rewrite Ht; discriminate |];
      unfold transformAfterCapture; rewrite Hr; reflexivity.
    destruct (fillReadable ev) eqn:Hf.
    - destruct (handlePointerDown_context props ev c Hm (or_intror Hf)) as (-> & _).
      unfold transformAfterCapture. rewrite Hr. reflexivity.
    - apply handlePointerDown_fill_unreadable; assumption. }
  split.
  { intros Hok.
    destruct (handlePointerDown_context props ev c Hm Hok) as (_ & ->).
    destruct (handlePointerDown_context props (withSnapshotReadable true ev) c Hm Hok)
      as (-> & ->).
    rewrite Hr. cbn [snapshotReadable withSnapshotReadable length].
    unfold transformAfterCapture. auto. }
  destruct (tool props) eqn:Ht.
  1, 2:
    destruct (handlePointerDown_stroke props ev c Hm) as (Hb & Hd & _);
      [rewrite Ht; auto |];
    destruct (handlePointerDown_stroke props (withSnapshotReadable true ev) c Hm)
      as (Hb' & _); [rewrite Ht; auto |];
    unfold transformAfterCapture in *;
    cbn [point snapshotReadable withSnapshotReadable] in *; rewrite Hr, Ht in *;
    rewrite Hb, Hb', Hd;
    split; [reflexivity |]; split; [reflexivity |]; split; [reflexivity |];
    split; discriminate.
  1, 2, 3:
    destruct (handlePointerDown_shape props ev c Hm) as (Hb & _ & Hd & _);
      [rewrite Ht; reflexivity |];
    destruct (handlePointerDown_shape props (withSnapshotReadable true ev) c Hm)
      as (Hb' & _); [rewrite Ht; reflexivity |];
    unfold transformAfterCapture in *;
    cbn [point snapshotReadable withSnapshotReadable getImageData] in *;
    rewrite Hr in Hb; cbn [getImageData] in Hb;
    rewrite restore_same in Hb' by (auto using eq_refl);
    rewrite Ht in *; rewrite Hb, Hb', Hd;
    split; [reflexivity |]; split; [reflexivity |]; split; [reflexivity |];
    split; discriminate.
  rewrite !handlePointerDown_fill by assumption.
  cbn [snapshotReadable withSnapshotReadable]. rewrite Hr.
  rewrite pushSnapshotForUndo_failed, pushSnapshotForUndo_captured. cbn [fst].
  assert (Hb : bitmap (floodFill props ev (setTransform identityTransform (save c)))
               = bitmap (floodFill props ev c))
    by (apply floodFill_bitmap_ext; reflexivity).
  assert (Hb' : bitmap (floodFill props (withSnapshotReadable true ev)
                          (setHistory (pushHistory (bitmap c) (history c)) c))
                = bitmap (floodFill props ev c))
    by (apply floodFill_bitmap_ext; reflexivity).
  rewrite Hb, Hb'.
  split; [reflexivity |]. split; [reflexivity |]. split; [congruence |].
  split; [intros _ Hfr; apply floodFill_bitmap; assumption |].
  intros _ Hfr. rewrite floodFill_unreadable by assumption. reflexivity.
Qed.

Lemma snapshot_failure_skips_restore_witness :
  let failed := handlePointerDown (sampleProps pencil "#000000") (eventAt 1 false) strip2 in
  let captured := handlePointerDown (sampleProps pencil "#000000") (eventAt 1 true) strip2 in
  history failed = []
  /\ transform failed = 1 /\ transform captured = 2
  /\ length (saved failed) = 1%nat /\ saved captured = []
  /\ data (bitmap failed)
     = [255; 255; 255; 255;   0; 0; 0; 255;   255; 255; 255; 255;   255; 255; 255; 255]
  /\ data (bitmap captured)
     = [255; 255; 255; 255;   255; 255; 255; 255;   0; 0; 0; 255;   255; 255; 255; 255].
Proof.
  intros failed captured.
  assert (Hwf : wellFormed (bitmap strip2)).
  { unfold wellFormed, strip2, whiteImage. cbn [bitmap freshCanvas width height data].
    split; [lia | split; [lia | reflexivity]]. }
  destruct (snapshot_failure_skips_restore (sampleProps pencil "#000000") (eventAt 1 false)
              strip2 eq_refl Hwf eq_refl)
    as (Hhist & Htr & Hctx & Hfailed & Hcaptured & _).
  destruct Hctx as (Hsv & Htr' & Hsv'); [left; discriminate |].
  split; [exact Hhist |]. split; [exact Htr |]. split; [exact Htr' |].
  split; [exact Hsv |]. split; [exact Hsv' |].
  split.
  - change (bitmap failed) with
      (bitmap (handlePointerDown (sampleProps pencil "#000000") (eventAt 1 false) strip2)).
    rewrite Hfailed. vm_compute. reflexivity.
  - change (bitmap captured) with
      (bitmap (handlePointerDown (sampleProps pencil "#000000")
                 (withSnapshotReadable true (eventAt 1 false)) strip2)).
    rewrite Hcaptured. vm_compute. reflexivity.
Defined.
